(** * dumbsnake: board, snake and key handling of the terminal snake game

    A shallow embedding of [dumbsnake.c].  The C functions become Rocq
    functions with the same names.  [size_t] values are integers in
    [0, 2^64) with the wrap-around written out, snake segments live in a
    heap of [snake_part_t] cells addressed by locations, and every memory
    access is checked: a failed [assert] gives [Err Abort], an access the C
    standard leaves undefined gives [Err Undefined]. *)

From Stdlib Require Import ZArith Ascii String List Lia.
From stdpp Require Import gmap list fin_maps.

Local Open Scope Z_scope.

(** ** Outcomes of a C function *)

Inductive fault : Type :=
  | Abort       (* an assert failed *)
  | Undefined   (* out-of-bounds or dangling access, division by zero *)
  | Diverge.    (* a pointer walk that never reaches NULL *)

Inductive result (A : Type) : Type :=
  | Ok (a : A)
  | Err (f : fault).

Arguments Ok {A} a.
Arguments Err {A} f.

Definition rbind {A B : Type} (r : result A) (k : A → result B) : result B :=
  match r with
  | Ok a => k a
  | Err f => Err f
  end.

Definition assert (b : bool) : result unit :=
  if b then Ok tt else Err Abort.

#[export] Instance result_ret : MRet result := λ A a, Ok a.
#[export] Instance result_bind : MBind result := λ A B k r, rbind r k.

(** ** Machine integers (LP64) *)

Definition SIZE_MOD : Z := 2 ^ 64.
Definition PTRDIFF_MAX : Z := 2 ^ 63 - 1.
Definition INT_MAX : Z := 2 ^ 31 - 1.
Definition sizeof_ptr : Z := 8.

(* conversion of an integer value to size_t, and size_t arithmetic *)
Definition to_size_t (z : Z) : Z := z mod SIZE_MOD.
Definition size_add (a b : Z) : Z := to_size_t (a + b).
Definition size_sub (a b : Z) : Z := to_size_t (a - b).
Definition size_mul (a b : Z) : Z := to_size_t (a * b).

(* a % b on size_t; the behaviour is undefined for b = 0 *)
Definition size_rem (a b : Z) : result Z :=
  if b =? 0 then Err Undefined else Ok (a mod b).

Definition DS_MIN (a b : Z) : Z := if a <? b then a else b.

(** ** Config *)

Definition DS_DELAY_MILLIS : Z := 50.
Definition DS_FULL_GROWN_LEN : Z := 15.
Definition DS_CHAR_SNAKE_BODY : ascii := "X"%char.
Definition DS_CHAR_FLOOR : ascii := " "%char.

Definition NUL : ascii := "000"%char.

(** ** Data *)

(* [text] is the flat buffer of [width * height] cells and a terminator;
   [array] holds, for each row, the offset of its first cell in [text]
   (the C code keeps the pointer [text + y * width]). *)
Record board_t : Type := mk_board {
  text : list ascii;
  array : list Z;
  height : Z;
  width : Z
}.

Record pos_t : Type := mk_pos {
  x : Z;
  y : Z
}.

#[export] Instance pos_eq_dec : EqDecision pos_t.
Proof. solve_decision. Defined.

Definition loc : Type := positive.

(* a pointer to a snake part: [None] is NULL *)
Definition ptr : Type := option loc.

Record snake_part_t : Type := mk_part {
  pos : pos_t;
  prev : ptr;
  next : ptr
}.

Record snake_t : Type := mk_snake {
  len : Z;
  head : ptr;
  tail : ptr
}.

Abbreviation heap := (gmap loc snake_part_t).

(** ** Character buffers *)

(* malloc of a character buffer: the request is refused (NULL) above
   PTRDIFF_MAX; the fresh bytes are indeterminate, written here as NUL *)
Definition malloc_chars (n : Z) : option (list ascii) :=
  if n <=? PTRDIFF_MAX then Some (replicate (Z.to_nat n) NUL) else None.

(* malloc of a table of row pointers from a size in bytes *)
Definition malloc_rows (n : Z) : option (list Z) :=
  if n <=? PTRDIFF_MAX then Some (replicate (Z.to_nat (n / sizeof_ptr)) 0) else None.

Definition nonnull {A : Type} (p : option A) : result A :=
  match p with
  | Some a => Ok a
  | None => Err Abort
  end.

(* buf[i] = v *)
Definition store {A : Type} (buf : list A) (i : Z) (v : A) : result (list A) :=
  if (0 <=? i) && (i <? Z.of_nat (length buf))
  then Ok (<[Z.to_nat i := v]> buf)
  else Err Undefined.

(* buf[i] *)
Definition load {A : Type} (buf : list A) (i : Z) : result A :=
  if 0 <=? i then
    match buf !! Z.to_nat i with
    | Some v => Ok v
    | None => Err Undefined
    end
  else Err Undefined.

Definition chars (s : string) : list ascii := list_ascii_of_string s.

Definition strlen (s : string) : Z := Z.of_nat (String.length s).

(* strncpy(dest, src, n): the first [n] characters of [src], padded with
   NUL when [src] is shorter; [i] is the index of the next character *)
Fixpoint strncpy_from (n : nat) (i : Z) (src : list ascii) (dest : list ascii)
  : result (list ascii) :=
  match n with
  | O => Ok dest
  | S n' =>
      (dest' ← store dest i (hd NUL src);
       strncpy_from n' (i + 1) (tl src) dest')
  end.

Definition strncpy (dest : list ascii) (src : string) (n : Z) : result (list ascii) :=
  strncpy_from (Z.to_nat n) 0 (chars src) dest.

(** ** Board *)

Definition help : string := "Press 'q' to quit, 'p' to pause.".

(* board->array[y][x] = c *)
Definition board_set (board : board_t) (px py : Z) (c : ascii) : result board_t :=
  (row ← load (array board) py;
   text' ← store (text board) (row + px) c;
   Ok (mk_board text' (array board) (height board) (width board))).

(* board->array[y][x] *)
Definition board_get (board : board_t) (px py : Z) : result ascii :=
  (row ← load (array board) py;
   load (text board) (row + px)).

(* for (x = 0; x < width; x++) array[y][x] = DS_CHAR_FLOOR;
   [n] counts the iterations left *)
Fixpoint fill_row (n : nat) (px : Z) (row : Z) (txt : list ascii)
  : result (list ascii) :=
  match n with
  | O => Ok txt
  | S n' =>
      (txt' ← store txt (row + px) DS_CHAR_FLOOR;
       fill_row n' (px + 1) row txt')
  end.

(* for (; y < height; y++) { array[y] = text + y * width; ... } *)
Fixpoint fill_rows (n : nat) (py : Z) (w : Z) (arr : list Z) (txt : list ascii)
  : result (list Z * list ascii) :=
  match n with
  | O => Ok (arr, txt)
  | S n' =>
      (arr' ← store arr py (size_mul py w);
       row ← load arr' py;
       txt' ← fill_row (Z.to_nat w) 0 row txt;
       fill_rows n' (py + 1) w arr' txt')
  end.

(* the board_t struct is the value returned; its malloc is not modelled *)
Definition ds_board_create (w h : Z) : result board_t :=
  (assert (0 <? w);;
   assert (0 <? h);;
   let len := size_mul w h in
   txt ← nonnull (malloc_chars (size_add len 1));
   txt ← store txt len NUL;
   arr ← nonnull (malloc_rows (size_mul sizeof_ptr h));
   filled ← fill_rows (Z.to_nat h) 0 w arr txt;
   txt ← strncpy filled.2 help (DS_MIN (strlen help) len);
   Ok (mk_board txt filled.1 h w)).

(** ** Snake parts on the heap *)

(* computations that read and write the heap of snake parts *)
Definition M (A : Type) : Type := heap → result (A * heap).

#[export] Instance M_ret : MRet M := λ A a h, Ok (a, h).
#[export] Instance M_bind : MBind M := λ A B k m h,
  match m h with
  | Ok (a, h') => k a h'
  | Err f => Err f
  end.

(* a heap-independent step inside a heap computation *)
Definition lift {A : Type} (r : result A) : M A := λ h,
  match r with
  | Ok a => Ok (a, h)
  | Err f => Err f
  end.

(* malloc(sizeof(snake_part_t)): a location that is not in use; the fields
   are indeterminate until written *)
Definition malloc_part : M ptr := λ h,
  let l := fresh (dom h) in
  Ok (Some l, <[l := mk_part (mk_pos 0 0) None None]> h).

(* *p *)
Definition deref (p : ptr) : M snake_part_t := λ h,
  match p with
  | Some l =>
      match h !! l with
      | Some part => Ok (part, h)
      | None => Err Undefined
      end
  | None => Err Undefined
  end.

(* p->field = v, as an update of the part [p] points to *)
Definition update (p : ptr) (f : snake_part_t → snake_part_t) : M unit := λ h,
  match p with
  | Some l =>
      match h !! l with
      | Some _ => Ok (tt, alter f l h)
      | None => Err Undefined
      end
  | None => Err Undefined
  end.

(* free(p); free(NULL) does nothing *)
Definition free (p : ptr) : M unit := λ h,
  match p with
  | Some l =>
      match h !! l with
      | Some _ => Ok (tt, delete l h)
      | None => Err Undefined
      end
  | None => Ok (tt, h)
  end.

Definition set_pos_x (v : Z) (part : snake_part_t) : snake_part_t :=
  mk_part (mk_pos v (y (pos part))) (prev part) (next part).
Definition set_pos_y (v : Z) (part : snake_part_t) : snake_part_t :=
  mk_part (mk_pos (x (pos part)) v) (prev part) (next part).
Definition set_prev (v : ptr) (part : snake_part_t) : snake_part_t :=
  mk_part (pos part) v (next part).
Definition set_next (v : ptr) (part : snake_part_t) : snake_part_t :=
  mk_part (pos part) (prev part) v.

(** ** Snake *)

(* The [snake_t] and [board_t] structs are passed by value and returned
   updated; the asserts on their pointers hold trivially. *)

Definition ds_snake_create (px py : Z) : M snake_t :=
  part ← malloc_part;
  update part (set_pos_x (to_size_t px));;
  update part (set_pos_y (to_size_t py));;
  update part (set_prev None);;
  update part (set_next None);;
  mret (mk_snake 1 part part).

(* for (; part; part = next_backup) { next_backup = part->next; free(part); } *)
Fixpoint destroy_parts (fuel : nat) (part : ptr) : M unit :=
  match part with
  | None => mret tt
  | Some _ =>
      match fuel with
      | O => lift (Err Diverge)
      | S fuel' =>
          p ← deref part;
          let next_backup := next p in
          free part;;
          destroy_parts fuel' next_backup
      end
  end.

(* every pass frees one part, so a walk of more than [size h] passes has
   already failed on a freed part *)
Definition ds_snake_destroy (snake : snake_t) : M unit := λ h,
  destroy_parts (S (size h)) (head snake) h.

(* for (; part; part = part->next) array[part->pos.y][part->pos.x] = 'X'; *)
Fixpoint put_parts (fuel : nat) (board : board_t) (part : ptr) : M board_t :=
  match part with
  | None => mret board
  | Some _ =>
      match fuel with
      | O => lift (Err Diverge)
      | S fuel' =>
          p ← deref part;
          board' ← lift (board_set board (x (pos p)) (y (pos p)) DS_CHAR_SNAKE_BODY);
          put_parts fuel' board' (next p)
      end
  end.

(* a walk that visits more parts than the heap holds is in a cycle and
   never ends *)
Definition ds_board_put_snake (board : board_t) (snake : snake_t) : M board_t := λ h,
  put_parts (S (size h)) board (head snake) h.

Definition valid_step (d : Z) : bool := (d =? 0) || (d =? 1) || (d =? -1).

(* Add new head *)
Definition add_new_head (snake : snake_t) (board : board_t) (dx dy : Z)
  : M (snake_t * board_t) :=
  part ← malloc_part;
  hd ← deref (head snake);
  nx ← lift (size_rem (size_add (size_add (x (pos hd)) (to_size_t dx)) (width board))
                      (width board));
  update part (set_pos_x nx);;
  hd ← deref (head snake);
  ny ← lift (size_rem (size_add (size_add (y (pos hd)) (to_size_t dy)) (height board))
                      (height board));
  update part (set_pos_y ny);;
  update part (set_prev None);;
  update part (set_next (head snake));;
  p ← deref part;
  board ← lift (board_set board (x (pos p)) (y (pos p)) DS_CHAR_SNAKE_BODY);
  update (head snake) (set_prev part);;
  let snake := mk_snake (len snake) part (tail snake) in
  let snake := mk_snake (size_add (len snake) 1) (head snake) (tail snake) in
  mret (snake, board).

(* Cut off tail *)
Definition cut_off_tail (snake : snake_t) (board : board_t)
  : M (snake_t * board_t) :=
  if DS_FULL_GROWN_LEN <? len snake then
    let tail_backup := tail snake in
    t ← deref (tail snake);
    update (prev t) (set_next None);;
    t ← deref (tail snake);
    let snake := mk_snake (len snake) (head snake) (prev t) in
    tb ← deref tail_backup;
    board ← lift (board_set board (x (pos tb)) (y (pos tb)) DS_CHAR_FLOOR);
    free tail_backup;;
    let snake := mk_snake (size_sub (len snake) 1) (head snake) (tail snake) in
    mret (snake, board)
  else
    mret (snake, board).

Definition ds_snake_move (snake : snake_t) (board : board_t) (dx dy : Z)
  : M (snake_t * board_t) :=
  lift (assert (valid_step dx));;
  lift (assert (valid_step dy));;
  lift (assert (negb (eqb (dx =? 0) (dy =? 0))));;
  grown ← add_new_head snake board dx dy;
  cut_off_tail grown.1 grown.2.


(** ** Game state and key handling *)

Definition char_code (c : ascii) : Z := Z.of_nat (nat_of_ascii c).

(* The codes of the arrow keys come from ncurses.h; the switch over the
   keys compiles only when its case labels are pairwise different. *)
Class curses_keys : Type := {
  KEY_DOWN : Z;
  KEY_UP : Z;
  KEY_LEFT : Z;
  KEY_RIGHT : Z;
  case_labels_distinct :
    NoDup [char_code "q"; char_code "p"; KEY_LEFT; KEY_RIGHT; KEY_UP; KEY_DOWN]
}.

(* the locals of game() that the loop carries from pass to pass *)
Record game_t : Type := mk_game {
  prev_COLS : Z;
  prev_LINES : Z;
  board : board_t;
  snake : snake_t;
  dx : Z;
  dy : Z;
  quit : bool;
  paused : bool
}.

(* dx = vx; dy = vy; *)
Definition set_direction (g : game_t) (vx vy : Z) : game_t :=
  mk_game (prev_COLS g) (prev_LINES g) (board g) (snake g) vx vy
          (quit g) (paused g).

Section Game.

Context `{keys : curses_keys}.

(* the switch (key) of the key loop *)
Definition handle_key (key : Z) (g : game_t) : game_t :=
  if key =? char_code "q" then
    mk_game (prev_COLS g) (prev_LINES g) (board g) (snake g) (dx g) (dy g)
            true (paused g)
  else if key =? char_code "p" then
    mk_game (prev_COLS g) (prev_LINES g) (board g) (snake g) (dx g) (dy g)
            (quit g) (negb (paused g))
  else if key =? KEY_LEFT then
    if dx g =? 0 then set_direction g (-1) 0 else g
  else if key =? KEY_RIGHT then
    if dx g =? 0 then set_direction g 1 0 else g
  else if key =? KEY_UP then
    if dy g =? 0 then set_direction g 0 (-1) else g
  else if key =? KEY_DOWN then
    if dy g =? 0 then set_direction g 0 1 else g
  else g.

(* while (! quit) { key = getch(); ... }: getch() takes the next pending
   key off the queue and returns -1 when there is none, so the loop is a
   recursion on the queue; the keys left unread are returned with the
   state *)
Fixpoint key_loop (pending : list Z) (prev_key : Z) (g : game_t)
  : game_t * list Z :=
  if quit g then (g, pending)
  else
    match pending with
    | [] => (g, [])
    | key :: rest =>
        if key =? -1 then (g, rest)
        else if key =? prev_key then key_loop rest prev_key g
        else key_loop rest key (handle_key key g)
    end.

(* Handle keys *)
Definition handle_keys (pending : list Z) (g : game_t) : game_t * list Z :=
  key_loop pending (-1) g.

(* Reset on window size change; COLS and LINES are ints.  The old board
   is a value here, so ds_board_destroy has nothing to free. *)
Definition reset_on_resize (COLS LINES : Z) (g : game_t) : M game_t :=
  if negb (COLS =? prev_COLS g) || negb (prev_LINES g =? LINES) then
    board' ← lift (ds_board_create (to_size_t COLS) (to_size_t LINES));
    ds_snake_destroy (snake g);;
    snake' ← ds_snake_create (COLS ÷ 2) (LINES ÷ 2);
    mret (mk_game COLS LINES board' snake' (dx g) (dy g) (quit g) (paused g))
  else mret g.

(* Do a single step *)
Definition single_step (g : game_t) : M game_t :=
  if negb (paused g) then
    moved ← ds_snake_move (snake g) (board g) (dx g) (dy g);
    mret (mk_game (prev_COLS g) (prev_LINES g) moved.2 moved.1 (dx g) (dy g)
                  (quit g) (paused g))
  else mret g.

(* one pass of the main loop; printing the board and sleeping change
   nothing in the state *)
Definition game_pass (COLS LINES : Z) (pending : list Z) (g : game_t)
  : M (game_t * list Z) :=
  g ← reset_on_resize COLS LINES g;
  g ← single_step g;
  mret (handle_keys pending g).

End Game.

(* Init game data *)
Definition game_init (COLS LINES : Z) : M game_t :=
  board0 ← lift (ds_board_create (to_size_t COLS) (to_size_t LINES));
  snake0 ← ds_snake_create (COLS ÷ 2) (LINES ÷ 2);
  board0 ← ds_board_put_snake board0 snake0;
  mret (mk_game COLS LINES board0 snake0 0 (-1) false false).

(* the key codes of ncurses.h: 0402, 0403, 0404 and 0405 *)
#[export] Instance ncurses_keys : curses_keys := {|
  KEY_DOWN := 258;
  KEY_UP := 259;
  KEY_LEFT := 260;
  KEY_RIGHT := 261;
  case_labels_distinct :=
    bool_decide_unpack
      (NoDup [char_code "q"; char_code "p"; 260; 261; 259; 258]) I
|}.

(** ** Well-formed boards and snakes *)

(* the shape ds_board_create gives a board: [height] rows of [width]
   cells, row [y] starting at offset [y * width], and a terminator *)
Definition board_wf (b : board_t) : Prop :=
  0 < width b ∧ 0 < height b ∧
  width b * height b < PTRDIFF_MAX ∧
  Z.of_nat (length (text b)) = width b * height b + 1 ∧
  array b = (λ py, py * width b) <$> seqZ 0 (height b).

Definition in_board (b : board_t) (q : pos_t) : Prop :=
  0 ≤ x q < width b ∧ 0 ≤ y q < height b.

(* index in [text] of the cell at [q] *)
Definition cell_index (b : board_t) (q : pos_t) : nat :=
  Z.to_nat (y q * width b + x q).

(* the board with cell [q] overwritten *)
Definition paint (b : board_t) (q : pos_t) (c : ascii) : board_t :=
  mk_board (<[cell_index b q := c]> (text b)) (array b) (height b) (width b).

(* the text of a fresh board: the help message cut to the grid, Floor up
   to the end of the grid, and the terminator *)
Definition fresh_text (w h : Z) : list ascii :=
  take (Z.to_nat (w * h)) (chars help)
  ++ replicate (Z.to_nat (w * h - DS_MIN (strlen help) (w * h))) DS_CHAR_FLOOR
  ++ [NUL].

Definition row_offsets (w h : Z) : list Z := (λ py, py * w) <$> seqZ 0 h.

(* [chain h pv l]: the parts at the locations of [l] hold the positions
   of [l] and are linked in the order of [l]; the first one's prev is
   [pv], the last one's next is NULL *)
Fixpoint chain (h : heap) (pv : ptr) (l : list (loc * pos_t)) : Prop :=
  match l with
  | [] => True
  | e :: l' =>
      h !! e.1 = Some (mk_part e.2 pv (fst <$> hd_error l')) ∧
      chain h (Some e.1) l'
  end.

(* [snake_rep h s l]: in heap [h], snake [s] is the chain of the
   segments [l], head first *)
Definition snake_rep (h : heap) (s : snake_t) (l : list (loc * pos_t)) : Prop :=
  NoDup l.*1 ∧
  chain h None l ∧
  head s = fst <$> hd_error l ∧
  tail s = fst <$> last l ∧
  len s = Z.of_nat (length l) ∧
  1 ≤ len s ≤ DS_FULL_GROWN_LEN.

Definition on_board (b : board_t) (l : list (loc * pos_t)) : Prop :=
  Forall (λ e, in_board b e.2) l.

(* the position of the head segment *)
Definition head_pos (snake : snake_t) : M pos_t :=
  part ← deref (head snake);
  mret (pos part).

(* exactly one of dx, dy is non-zero and each is -1, 0 or 1 *)
Definition valid_dir (dx dy : Z) : Prop :=
  (dx = 0 ∧ (dy = 1 ∨ dy = -1)) ∨ (dy = 0 ∧ (dx = 1 ∨ dx = -1)).

(* the position the code computes for the new head *)
Definition new_head_pos (b : board_t) (q : pos_t) (dx dy : Z) : pos_t :=
  mk_pos (size_add (size_add (x q) (to_size_t dx)) (width b) mod width b)
         (size_add (size_add (y q) (to_size_t dy)) (height b) mod height b).

(* the heap after a new head at position [np] is linked before [hd] *)
Definition grown (h : heap) (hd : loc) (np : pos_t) : heap :=
  alter (set_prev (Some (fresh (dom h)))) hd
        (<[fresh (dom h) := mk_part np None (Some hd)]> h).

(* the heap after the tail [t] is unlinked from its predecessor [e] and freed *)
Definition trimmed (h : heap) (e t : loc) : heap :=
  delete t (alter (set_next None) e h).

(* snakes that creation and completed moves lead to *)
Inductive reachable : heap → snake_t → Prop :=
  | reach_create h0 px py s h :
      ds_snake_create px py h0 = Ok (s, h) →
      reachable h s
  | reach_move h s b dx dy s' b' h' :
      reachable h s →
      ds_snake_move s b dx dy h = Ok ((s', b'), h') →
      reachable h' s'.

(** ** The de-duplication rule in the words of the specification *)

(* the keys of one drain that are not equal to the key polled just
   before them; [before] is that key, if there is one *)
Fixpoint squeeze (before : option Z) (pending : list Z) : list Z :=
  match pending with
  | [] => []
  | key :: rest =>
      if decide (before = Some key) then squeeze (Some key) rest
      else key :: squeeze (Some key) rest
  end.

(* the previous key of the key loop, -1 at the start, as the key polled
   just before *)
Definition polled_before (prev_key : Z) : option Z :=
  if prev_key =? -1 then None else Some prev_key.

(** ** The scenario of one move after creation *)

(* Board.create(10,5), Snake.create(5,2), Snake.move(board, 0,-1) *)
Definition create_then_move : M (snake_t * board_t) :=
  board0 ← lift (ds_board_create 10 5);
  snake0 ← ds_snake_create 5 2;
  ds_snake_move snake0 board0 0 (-1).

(* the same with the snake put on the board before it moves, as
   game() does when it starts *)
Definition create_put_then_move : M (snake_t * board_t) :=
  board0 ← lift (ds_board_create 10 5);
  snake0 ← ds_snake_create 5 2;
  board0 ← ds_board_put_snake board0 snake0;
  ds_snake_move snake0 board0 0 (-1).

(* what the scenario promises of a run [m] from the empty heap: it
   returns with the head at (5,1), length 2 and SnakeBody in the cells
   (5,2) and (5,1) *)
Definition scenario_holds (m : M (snake_t * board_t)) : Prop :=
  ∃ s b h,
    m ∅ = Ok ((s, b), h) ∧
    head_pos s h = Ok (mk_pos 5 1, h) ∧
    len s = 2 ∧
    board_get b 5 2 = Ok DS_CHAR_SNAKE_BODY ∧
    board_get b 5 1 = Ok DS_CHAR_SNAKE_BODY.

(** ** Example snakes, boards and games *)

(* the heap that holds the chain [l] and nothing else *)
Fixpoint heap_of_chain (pv : ptr) (l : list (loc * pos_t)) : heap :=
  match l with
  | [] => ∅
  | e :: l' =>
      <[e.1 := mk_part e.2 pv (fst <$> hd_error l')]> (heap_of_chain (Some e.1) l')
  end.

(* a snake of [n] segments lying on row 0, its head at column [n - 1] *)
Definition line_segments (n : nat) : list (loc * pos_t) :=
  (λ i, (Pos.of_nat i, mk_pos (Z.of_nat i - 1) 0)) <$> rev (seq 1 n).

Definition line_heap (n : nat) : heap := heap_of_chain None (line_segments n).

Definition line_snake (n : nat) : snake_t :=
  mk_snake (Z.of_nat n) (Some (Pos.of_nat n)) (Some 1%positive).

(* a board of one row and fifteen columns, and one of 10 x 5 *)
Definition row_board : board_t :=
  mk_board (fresh_text 15 1) (row_offsets 15 1) 1 15.

Definition small_board : board_t :=
  mk_board (fresh_text 10 5) (row_offsets 10 5) 5 10.

(* a game in which the snake moves to the right on a 10 x 5 terminal *)
Definition right_game : game_t :=
  mk_game 10 5 small_board (line_snake 3) 1 0 false false.

(* closed facts about the example snakes and boards, by evaluation *)
Ltac by_evaluation :=
  lazymatch goal with
  | |- snake_rep _ _ _ =>
      split; [apply (bool_decide_unpack _); vm_compute; exact I|];
      split; [vm_compute; repeat split; reflexivity|];
      repeat split; vm_compute; (reflexivity || discriminate)
  | |- board_wf _ =>
      repeat split; vm_compute; (reflexivity || discriminate)
  | |- on_board _ _ =>
      unfold on_board, in_board; apply (bool_decide_unpack _); vm_compute; exact I
  | |- in_board _ _ =>
      unfold in_board; apply (bool_decide_unpack _); vm_compute; exact I
  | |- valid_dir _ _ => unfold valid_dir; lia
  | |- _ => vm_compute; (reflexivity || discriminate)
  end.


(** ** Printing *)

(* the characters of the C string in [buf]: those before the first NUL;
   a buffer without NUL is read past its end *)
Fixpoint c_string (buf : list ascii) : result (list ascii) :=
  match buf with
  | [] => Err Undefined
  | c :: rest =>
      if Ascii.eqb c NUL then Ok []
      else cs ← c_string rest; Ok (c :: cs)
  end.

(* erase(); printw("%s", board->text); refresh(): the characters put on
   the cleared screen *)
Definition ds_board_print (board : board_t) : result (list ascii) :=
  c_string (text board).

(** ** Timing *)

Record timespec : Type := mk_timespec {
  tv_sec : Z;
  tv_nsec : Z
}.

Definition LONG_MAX : Z := 2 ^ 63 - 1.
Definition LONG_MIN : Z := - 2 ^ 63.

(* arithmetic on long: an overflow is undefined *)
Definition long_of (z : Z) : result Z :=
  if (LONG_MIN <=? z) && (z <=? LONG_MAX) then Ok z else Err Undefined.
Definition long_add (a b : Z) : result Z := long_of (a + b).
Definition long_sub (a b : Z) : result Z := long_of (a - b).
Definition long_mul (a b : Z) : result Z := long_of (a * b).

Definition ds_nano_diff (before after : timespec) : result Z :=
  secs_before ← long_mul (1000 * 1000 * 1000) (tv_sec before);
  nano_before ← long_add (tv_nsec before) secs_before;
  secs_after ← long_mul (1000 * 1000 * 1000) (tv_sec after);
  nano_after ← long_add (tv_nsec after) secs_after;
  long_sub nano_after nano_before.

(* Apply rythm: the delay handed to nanosleep, if any, and the new
   prev_timestamp; [timestamp] is what clock_gettime has just read *)
Definition apply_rhythm (prev_timestamp timestamp : timespec)
  : result (option timespec * timespec) :=
  nanosecs_passed ← ds_nano_diff prev_timestamp timestamp;
  nanos_to_sleep ← long_sub (DS_DELAY_MILLIS * 1000 * 1000) nanosecs_passed;
  if 0 <? nanos_to_sleep then
    let delay_sec := nanos_to_sleep ÷ (1000 * 1000 * 1000) in
    whole ← long_mul (1000 * 1000 * 1000) delay_sec;
    delay_nsec ← long_sub nanos_to_sleep whole;
    Ok (Some (mk_timespec delay_sec delay_nsec), timestamp)
  else Ok (None, timestamp).

(** ** The main loop on a trace of terminal inputs *)

(* while (! quit) { ... }: one pass for each element of [trace], which
   gives COLS, LINES and the keys pending in that pass *)
Fixpoint game_loop `{keys : curses_keys} (trace : list (Z * Z * list Z))
    (g : game_t) : M game_t :=
  match trace with
  | [] => mret g
  | (cols, lines, pending) :: rest =>
      if quit g then mret g
      else
        passed ← game_pass cols lines pending g;
        game_loop rest passed.1
  end.

(* game(): Init game data, the main loop, and ds_snake_destroy (the board
   is a value and needs no destroy).  The loop ends only when quit is set:
   a trace that is used up before that gives no result. *)
Definition game `{keys : curses_keys} (COLS LINES : Z)
    (trace : list (Z * Z * list Z)) : M game_t :=
  g ← game_init COLS LINES;
  g ← game_loop trace g;
  if quit g then
    ds_snake_destroy (snake g);;
    mret g
  else lift (Err Diverge).

(* main(): [atexit_error] is what atexit returns, COLS and LINES are what
   ds_curses_start leaves in the two globals of curses *)
Definition main `{keys : curses_keys} (atexit_error COLS LINES : Z)
    (trace : list (Z * Z * list Z)) : M Z :=
  if negb (atexit_error =? 0) then mret atexit_error
  else if negb (0 <? COLS) then lift (Err Abort)
  else if negb (0 <? LINES) then lift (Err Abort)
  else
    game COLS LINES trace;;
    mret 0.

(** ** Runs of moves *)

(* ds_snake_move once for each direction of [dirs] *)
Fixpoint moves (dirs : list (Z * Z)) (s : snake_t) (b : board_t)
  : M (snake_t * board_t) :=
  match dirs with
  | [] => mret (s, b)
  | d :: rest =>
      moved ← ds_snake_move s b d.1 d.2;
      moves rest moved.1 moved.2
  end.

(* the board with SnakeBody at every segment of [l], head first *)
Definition with_snake (b : board_t) (l : list (loc * pos_t)) : board_t :=
  foldl (λ b' e, paint b' e.2 DS_CHAR_SNAKE_BODY) b l.

(* every segment of [l] is shown as SnakeBody *)
Definition shown (b : board_t) (l : list (loc * pos_t)) : Prop :=
  Forall (λ e, board_get b (x e.2) (y e.2) = Ok DS_CHAR_SNAKE_BODY) l.

(* [h] is [h0] and the parts of [l], which [h0] does not hold *)
Definition owns (h0 h : heap) (l : list (loc * pos_t)) : Prop :=
  (∀ q, q ∉ l.*1 → h !! q = h0 !! q) ∧
  (∀ q, q ∈ l.*1 → h0 !! q = None).

(* the grid is followed by the terminator and holds no NUL *)
Definition printable (b : board_t) : Prop :=
  text b !! Z.to_nat (width b * height b) = Some NUL ∧
  ∀ i c, (i < Z.to_nat (width b * height b))%nat →
         text b !! i = Some c → c ≠ NUL.

(* what the passes of the main loop keep: a well-formed snake on a
   well-formed board of the stored dimensions, a valid direction, and a
   heap that is the initial heap [h0] and the parts of the snake *)
Definition game_inv (h0 : heap) (g : game_t) (h : heap) : Prop :=
  ∃ l, snake_rep h (snake g) l ∧
       board_wf (board g) ∧
       width (board g) = prev_COLS g ∧
       height (board g) = prev_LINES g ∧
       on_board (board g) l ∧
       valid_dir (dx g) (dy g) ∧
       owns h0 h l.

(* the last key of [pending], or [prev_key] when there is none *)
Definition last_key (prev_key : Z) (pending : list Z) : Z :=
  default prev_key (last pending).

(* terminal dimensions: positive ints *)
Definition good_dims (cols lines : Z) : Prop :=
  0 < cols ≤ INT_MAX ∧ 0 < lines ≤ INT_MAX.

(* timestamps of the process clock the arithmetic of the loop can take *)
Definition clock_range (t : timespec) : Prop :=
  0 ≤ tv_sec t ≤ 9 * 10 ^ 9 ∧ 0 ≤ tv_nsec t < 10 ^ 9.

(* the board ds_board_create returns, and the cell on which game() puts
   a new snake *)
Definition fresh_board (w h : Z) : board_t :=
  mk_board (fresh_text w h) (row_offsets w h) h w.

Definition centre (cols lines : Z) : pos_t := mk_pos (cols ÷ 2) (lines ÷ 2).

(* the game of [right_game], paused *)
Definition paused_game : game_t :=
  mk_game 10 5 small_board (line_snake 3) 1 0 false true.

(* two passes: a turn to the left, then a resize and the quit key *)
Definition quit_trace : list (Z * Z * list Z) :=
  [(10, 5, [KEY_LEFT]); (12, 6, [char_code "q"])].

(* three passes without the quit key: turns, a resize and the pause key *)
Definition turn_trace : list (Z * Z * list Z) :=
  [(10, 5, [KEY_LEFT]); (12, 6, [KEY_DOWN; KEY_DOWN]); (12, 6, [char_code "p"])].


(* the snake of fifteen segments that a snake made at (0, 0) of
   [row_board] is after twenty moves to the right: the head has gone
   round the row once, and six tails have been cut off *)
Definition wrapped_segments : list (loc * pos_t) :=
  (λ i, (Pos.of_nat i, mk_pos (Z.of_nat (i - 1) mod 15) 0)) <$> rev (seq 7 15).

Definition wrapped_heap : heap := heap_of_chain None wrapped_segments.

Definition wrapped_snake : snake_t :=
  mk_snake 15 (Some 21%positive) (Some 7%positive).

(** ** The snake behind its pointer *)

(* ds_snake_destroy gets a pointer to a snake_t from malloc; the memory
   here holds the snake_t structs beside the parts *)
Record memory : Type := mk_memory {
  parts : heap;
  snakes : gmap loc snake_t
}.

(* ds_snake_destroy with the accesses to the snake_t written out:
   snake->head is read from the struct, the parts are freed as in
   [ds_snake_destroy], and free(snake) ends the function *)
Definition ds_snake_destroy_ptr (snake : ptr) (m : memory)
  : result (unit * memory) :=
  match snake with
  | Some sp =>
      match snakes m !! sp with
      | Some s =>
          match ds_snake_destroy s (parts m) with
          | Ok (_, h) => Ok (tt, mk_memory h (delete sp (snakes m)))
          | Err f => Err f
          end
      | None => Err Undefined
      end
  | None => Err Undefined
  end.

(* the snake of [line_snake], in a snake_t at address 1 *)
Definition line_memory (n : nat) : memory :=
  mk_memory (line_heap n) {[1%positive := line_snake n]}.

(** * Proofs *)

(** ** Buffers *)

Lemma store_in_range {A : Type} (buf : list A) (i : Z) (v : A) :
  0 ≤ i < Z.of_nat (length buf) →
  store buf i v = Ok (<[Z.to_nat i := v]> buf).
Proof.
  intros Hi. unfold store.
  destruct (Z.leb_spec 0 i); [|lia].
  destruct (Z.ltb_spec i (Z.of_nat (length buf))); [reflexivity|lia].
Qed.

Lemma load_lookup {A : Type} (buf : list A) (i : Z) (v : A) :
  0 ≤ i → buf !! Z.to_nat i = Some v → load buf i = Ok v.
Proof.
  intros Hi Hv. unfold load.
  destruct (Z.leb_spec 0 i); [|lia]. by rewrite Hv.
Qed.

Lemma to_size_t_small (z : Z) : 0 ≤ z < SIZE_MOD → to_size_t z = z.
Proof. intros Hz. unfold to_size_t. by apply Z.mod_small. Qed.

Lemma lookup_insert_Z {A : Type} (buf : list A) (i : Z) (j : nat) (v : A) :
  0 ≤ i < Z.of_nat (length buf) →
  <[Z.to_nat i := v]> buf !! j
  = if decide (Z.of_nat j = i) then Some v else buf !! j.
Proof.
  intros Hi. case_decide as Hj.
  - subst i. rewrite Nat2Z.id. apply list_lookup_insert_eq. lia.
  - apply list_lookup_insert_ne. lia.
Qed.

(* the inner loop writes Floor to the cells [row + px .. row + px + n) *)
Lemma fill_row_spec (n : nat) (px row : Z) (txt : list ascii) :
  0 ≤ row + px →
  row + px + Z.of_nat n ≤ Z.of_nat (length txt) →
  ∃ txt', fill_row n px row txt = Ok txt' ∧
    length txt' = length txt ∧
    ∀ j : nat, txt' !! j =
      if decide (row + px ≤ Z.of_nat j < row + px + Z.of_nat n)
      then Some DS_CHAR_FLOOR else txt !! j.
Proof.
  revert px txt. induction n as [|n IH]; intros px txt Hlo Hhi.
  - exists txt. split; [done|]. split; [done|].
    intros j. case_decide; [lia|done].
  - cbn [fill_row]. rewrite store_in_range by lia. cbn.
    destruct (IH (px + 1) (<[Z.to_nat (row + px) := DS_CHAR_FLOOR]> txt))
      as (txt' & Hrun & Hlen & Hget).
    + lia.
    + rewrite length_insert. lia.
    + exists txt'. split; [exact Hrun|].
      split; [by rewrite Hlen, length_insert|].
      intros j. rewrite Hget, lookup_insert_Z by lia.
      repeat case_decide; try done; lia.
Qed.

(* the outer loop sets the row offsets [py .. py + n) and writes Floor to
   the cells of these rows *)
Lemma fill_rows_spec (n : nat) (py w : Z) (arr : list Z) (txt : list ascii) :
  0 ≤ py → 0 < w →
  py + Z.of_nat n ≤ Z.of_nat (length arr) →
  (py + Z.of_nat n) * w ≤ Z.of_nat (length txt) →
  (py + Z.of_nat n) * w < SIZE_MOD →
  ∃ arr' txt', fill_rows n py w arr txt = Ok (arr', txt') ∧
    length arr' = length arr ∧ length txt' = length txt ∧
    (∀ j : nat, arr' !! j =
      if decide (py ≤ Z.of_nat j < py + Z.of_nat n)
      then Some (Z.of_nat j * w) else arr !! j) ∧
    (∀ j : nat, txt' !! j =
      if decide (py * w ≤ Z.of_nat j < (py + Z.of_nat n) * w)
      then Some DS_CHAR_FLOOR else txt !! j).
Proof.
  revert py arr txt. induction n as [|n IH]; intros py arr txt Hpy Hw Harr Htxt Hfit.
  - exists arr, txt. split; [done|]. do 2 (split; [done|]).
    split; intros j; case_decide; (lia || done).
  - cbn [fill_rows].
    assert (size_mul py w = py * w) as ->.
    { apply to_size_t_small. nia. }
    rewrite store_in_range by lia. cbn.
    erewrite load_lookup; [|lia|apply list_lookup_insert_eq; lia]. cbn.
    destruct (fill_row_spec (Z.to_nat w) 0 (py * w) txt)
      as (txt1 & Hrow & Hlen1 & Hget1); [nia|nia|].
    rewrite Hrow. cbn.
    destruct (IH (py + 1) (<[Z.to_nat py := py * w]> arr) txt1)
      as (arr' & txt' & Hrun & Hlena & Hlent & Hgeta & Hgett).
    + lia.
    + done.
    + rewrite length_insert. lia.
    + rewrite Hlen1. nia.
    + nia.
    + exists arr', txt'. split; [exact Hrun|].
      split; [by rewrite Hlena, length_insert|].
      split; [by rewrite Hlent|].
      split; intros j.
      * rewrite Hgeta, lookup_insert_Z by lia.
        repeat case_decide; try done; try lia. by subst.
      * rewrite Hgett, Hget1.
        repeat case_decide; try done; nia.
Qed.

Lemma nth_tl {A : Type} (k : nat) (l : list A) (d : A) :
  nth k (tl l) d = nth (S k) l d.
Proof. destruct l; [by destruct k|done]. Qed.

Lemma strncpy_from_spec (n : nat) (i : Z) (src dest : list ascii) :
  0 ≤ i →
  i + Z.of_nat n ≤ Z.of_nat (length dest) →
  ∃ dest', strncpy_from n i src dest = Ok dest' ∧
    length dest' = length dest ∧
    ∀ j : nat, dest' !! j =
      if decide (i ≤ Z.of_nat j < i + Z.of_nat n)
      then Some (nth (Z.to_nat (Z.of_nat j - i)) src NUL) else dest !! j.
Proof.
  revert i src dest. induction n as [|n IH]; intros i src dest Hlo Hhi.
  - exists dest. split; [done|]. split; [done|].
    intros j. case_decide; [lia|done].
  - cbn [strncpy_from]. rewrite store_in_range by lia. cbn.
    destruct (IH (i + 1) (tl src) (<[Z.to_nat i := hd NUL src]> dest))
      as (dest' & Hrun & Hlen & Hget).
    + lia.
    + rewrite length_insert. lia.
    + exists dest'. split; [exact Hrun|].
      split; [by rewrite Hlen, length_insert|].
      intros j. rewrite Hget, lookup_insert_Z by lia.
      repeat case_decide; try done; try lia.
      * rewrite nth_tl. do 2 f_equal. lia.
      * subst i. rewrite Z.sub_diag. by destruct src.
Qed.

Lemma DS_MIN_spec (a b : Z) : DS_MIN a b = Z.min a b.
Proof. unfold DS_MIN. destruct (Z.ltb_spec a b); lia. Qed.

Lemma ds_board_create_ok (w h : Z) :
  0 < w → 0 < h →
  w * h < PTRDIFF_MAX →
  sizeof_ptr * h ≤ PTRDIFF_MAX →
  ds_board_create w h = Ok (mk_board (fresh_text w h) (row_offsets w h) h w).
Proof.
  intros Hw Hh Hfit Hrows. unfold ds_board_create.
  assert (PTRDIFF_MAX < SIZE_MOD) as Hmax by done.
  assert (0 < w * h) as Hpos by nia.
  destruct (Z.ltb_spec 0 w); [|lia]. destruct (Z.ltb_spec 0 h); [|lia]. cbn.
  assert (size_mul w h = w * h) as -> by (apply to_size_t_small; lia).
  assert (size_add (w * h) 1 = w * h + 1) as -> by (apply to_size_t_small; lia).
  assert (size_mul sizeof_ptr h = sizeof_ptr * h) as ->
    by (apply to_size_t_small; unfold sizeof_ptr in *; lia).
  unfold malloc_chars, malloc_rows.
  destruct (Z.leb_spec (w * h + 1) PTRDIFF_MAX); [|lia].
  destruct (Z.leb_spec (sizeof_ptr * h) PTRDIFF_MAX); [|lia]. cbn.
  rewrite store_in_range by (rewrite length_replicate; lia). cbn.
  assert (sizeof_ptr * h / sizeof_ptr = h) as ->.
  { unfold sizeof_ptr. rewrite Z.mul_comm. by apply Z.div_mul. }
  set (txt0 := <[Z.to_nat (w * h) := NUL]> (replicate (Z.to_nat (w * h + 1)) NUL)).
  assert (length txt0 = Z.to_nat (w * h + 1)) as Hlen0.
  { unfold txt0. by rewrite length_insert, length_replicate. }
  destruct (fill_rows_spec (Z.to_nat h) 0 w (replicate (Z.to_nat h) 0) txt0)
    as (arr & txt1 & Hrun & Hlena & Hlen1 & Hgeta & Hget1);
    [lia|lia|rewrite length_replicate; lia|rewrite Hlen0; nia|nia|].
  rewrite Hrun. cbn.
  unfold strncpy.
  assert (0 ≤ DS_MIN (strlen help) (w * h) ≤ w * h) as Hmin.
  { rewrite DS_MIN_spec. unfold strlen. lia. }
  destruct (strncpy_from_spec (Z.to_nat (DS_MIN (strlen help) (w * h))) 0
              (chars help) txt1)
    as (txt2 & Hcpy & Hlen2 & Hget2); [lia|rewrite Hlen1, Hlen0; lia|].
  rewrite Hcpy. cbn. f_equal. f_equal.
  - apply list_eq. intros j. rewrite Hget2, Hget1. unfold fresh_text.
    assert (length (take (Z.to_nat (w * h)) (chars help))
            = Z.to_nat (DS_MIN (strlen help) (w * h))) as Htake.
    { rewrite length_take, DS_MIN_spec. unfold strlen, chars.
      change (length (list_ascii_of_string help)) with (String.length help). lia. }
    repeat case_decide.
    + rewrite lookup_app_l by lia.
      rewrite lookup_take_lt by lia.
      rewrite Z.sub_0_r, Nat2Z.id.
      destruct (lookup_lt_is_Some_2 (chars help) j) as [c Hc].
      { rewrite DS_MIN_spec in *. unfold strlen, chars in *.
        change (length (list_ascii_of_string help)) with (String.length help). lia. }
      rewrite Hc. f_equal. by apply nth_lookup_Some.
    + rewrite lookup_app_r by lia.
      rewrite lookup_app_l by (rewrite length_replicate; lia).
      symmetry. apply lookup_replicate_2. lia.
    + rewrite lookup_app_r by lia.
      rewrite lookup_app_r by (rewrite length_replicate; lia).
      rewrite Htake, length_replicate.
      unfold txt0.
      destruct (decide (Z.of_nat j = w * h)) as [Hj|Hj].
      * replace (j - _ - _)%nat with 0%nat by lia.
        replace (Z.to_nat (w * h)) with j by lia.
        apply list_lookup_insert_eq. rewrite length_replicate. lia.
      * rewrite list_lookup_insert_ne by lia.
        rewrite !lookup_ge_None_2; [done|simpl; lia|rewrite length_replicate; lia].
  - apply list_eq. intros j. rewrite Hgeta. unfold row_offsets.
    rewrite list_lookup_fmap. case_decide.
    + rewrite lookup_seqZ_lt by lia. cbn. f_equal.
    + rewrite lookup_seqZ_ge by lia. cbn.
      apply lookup_ge_None_2. rewrite length_replicate. lia.
Qed.

(** ** Cells of a well-formed board *)

Lemma cell_index_lt (b : board_t) (q : pos_t) :
  board_wf b → in_board b q →
  0 ≤ y q * width b + x q < width b * height b.
Proof. intros (Hw & Hh & _) [Hx Hy]. nia. Qed.

Lemma cell_index_inj (b : board_t) (q q' : pos_t) :
  board_wf b → in_board b q → in_board b q' →
  cell_index b q = cell_index b q' → q = q'.
Proof.
  intros (Hw & Hh & _) [Hx Hy] [Hx' Hy'] Heq. unfold cell_index in Heq.
  assert (y q * width b + x q = y q' * width b + x q') as Hz by nia.
  assert (y q = y q') by nia. assert (x q = x q') by nia.
  destruct q, q'; cbn in *; congruence.
Qed.

Lemma row_lookup (b : board_t) (py : Z) :
  board_wf b → 0 ≤ py < height b →
  load (array b) py = Ok (py * width b).
Proof.
  intros (_ & _ & _ & _ & Harr) Hy. apply load_lookup; [lia|].
  rewrite Harr, list_lookup_fmap, lookup_seqZ_lt by lia.
  cbn. do 2 f_equal. lia.
Qed.

Lemma board_set_in (b : board_t) (q : pos_t) (c : ascii) :
  board_wf b → in_board b q →
  board_set b (x q) (y q) c = Ok (paint b q c).
Proof.
  intros Hwf Hq. pose proof (cell_index_lt b q Hwf Hq) as Hi.
  unfold board_set. rewrite row_lookup by (done || apply Hq). cbn.
  destruct Hwf as (_ & _ & _ & Hlen & _).
  rewrite store_in_range by lia. done.
Qed.

Lemma board_get_in (b : board_t) (q : pos_t) :
  board_wf b → in_board b q →
  ∃ c, text b !! cell_index b q = Some c ∧ board_get b (x q) (y q) = Ok c.
Proof.
  intros Hwf Hq. pose proof (cell_index_lt b q Hwf Hq) as Hi.
  unfold board_get. rewrite row_lookup by (done || apply Hq). cbn.
  destruct Hwf as (_ & _ & _ & Hlen & _).
  destruct (lookup_lt_is_Some_2 (text b) (cell_index b q)) as [c Hc].
  { unfold cell_index. lia. }
  exists c. split; [done|]. by apply load_lookup; [lia|].
Qed.

Lemma paint_wf (b : board_t) (q : pos_t) (c : ascii) :
  board_wf b → board_wf (paint b q c).
Proof.
  intros (Hw & Hh & Hfit & Hlen & Harr). unfold paint.
  repeat split; cbn; try done. by rewrite length_insert.
Qed.

Lemma board_get_paint_same (b : board_t) (q : pos_t) (c : ascii) :
  board_wf b → in_board b q →
  board_get (paint b q c) (x q) (y q) = Ok c.
Proof.
  intros Hwf Hq. pose proof (cell_index_lt b q Hwf Hq) as Hi.
  destruct (board_get_in (paint b q c) q) as (c' & Hc' & ->);
    [by apply paint_wf|done|].
  f_equal. cbn in Hc'.
  destruct Hwf as (_ & _ & _ & Hlen & _).
  change (cell_index (paint b q c) q) with (cell_index b q) in Hc'.
  rewrite list_lookup_insert_eq in Hc' by (unfold cell_index; lia).
  congruence.
Qed.

Lemma board_get_paint_other (b : board_t) (q q' : pos_t) (c : ascii) :
  board_wf b → in_board b q → in_board b q' → q' ≠ q →
  board_get (paint b q c) (x q') (y q') = board_get b (x q') (y q').
Proof.
  intros Hwf Hq Hq' Hne.
  destruct (board_get_in (paint b q c) q') as (c1 & Hc1 & ->);
    [by apply paint_wf|done|].
  destruct (board_get_in b q') as (c2 & Hc2 & ->); [done..|].
  f_equal. cbn in Hc1.
  change (cell_index (paint b q c) q') with (cell_index b q') in Hc1.
  rewrite list_lookup_insert_ne in Hc1; [congruence|].
  intros Heq. apply Hne. symmetry. by eapply cell_index_inj.
Qed.

Lemma fresh_text_length (w h : Z) :
  0 < w → 0 < h →
  Z.of_nat (length (fresh_text w h)) = w * h + 1.
Proof.
  intros Hw Hh. unfold fresh_text.
  rewrite !length_app, length_take, length_replicate, DS_MIN_spec. cbn [length].
  unfold strlen, chars.
  change (length (list_ascii_of_string help)) with (String.length help). nia.
Qed.

Lemma fresh_board_wf (w h : Z) :
  0 < w → 0 < h → w * h < PTRDIFF_MAX →
  board_wf (mk_board (fresh_text w h) (row_offsets w h) h w).
Proof.
  intros Hw Hh Hfit. repeat split; cbn; try done; try lia.
  by apply fresh_text_length.
Qed.

(** ** Heap computations *)

Lemma bind_lift {A B : Type} (r : result A) (k : A → M B) (h : heap) :
  (lift r ≫= k) h = (r ≫= λ a, k a h).
Proof. by destruct r. Qed.

Lemma bind_run {A B : Type} (m : M A) (k : A → M B) (h h' : heap) (a : A) :
  m h = Ok (a, h') → (m ≫= k) h = k a h'.
Proof. intros Hm. unfold mbind, M_bind. by rewrite Hm. Qed.

Lemma rbind_ext {A B : Type} (r : result A) (k k' : A → result B) :
  (∀ a, r = Ok a → k a = k' a) → (r ≫= k) = (r ≫= k').
Proof. intros Hk. destruct r; [by apply Hk|done]. Qed.

Lemma fresh_lookup (h : heap) : h !! fresh (dom h) = None.
Proof. apply not_elem_of_dom, is_fresh. Qed.

Lemma deref_lookup (h : heap) (l : loc) (part : snake_part_t) :
  h !! l = Some part → deref (Some l) h = Ok (part, h).
Proof. intros Hl. unfold deref. by rewrite Hl. Qed.

Lemma update_lookup (h : heap) (l : loc) (f : snake_part_t → snake_part_t)
    (part : snake_part_t) :
  h !! l = Some part → update (Some l) f h = Ok (tt, <[l := f part]> h).
Proof.
  intros Hl. unfold update. rewrite Hl. do 2 f_equal.
  apply map_eq. intros j. destruct (decide (l = j)) as [->|Hne].
  - by rewrite lookup_alter_eq, lookup_insert_eq, Hl.
  - by rewrite lookup_alter_ne, lookup_insert_ne.
Qed.

Lemma update_insert (h : heap) (l : loc) (f : snake_part_t → snake_part_t)
    (part : snake_part_t) :
  update (Some l) f (<[l := part]> h) = Ok (tt, <[l := f part]> h).
Proof.
  erewrite update_lookup by apply lookup_insert_eq.
  by rewrite insert_insert_eq.
Qed.

Lemma free_lookup (h : heap) (l : loc) (part : snake_part_t) :
  h !! l = Some part → free (Some l) h = Ok (tt, delete l h).
Proof. intros Hl. unfold free. by rewrite Hl. Qed.

(** ** Chains *)

Lemma chain_lookup (h : heap) (pv : ptr) (l : list (loc * pos_t)) (p : loc) :
  chain h pv l → p ∈ l.*1 → is_Some (h !! p).
Proof.
  revert pv. induction l as [|e l IH]; intros pv Hc Hin; [by apply elem_of_nil in Hin|].
  destruct Hc as [He Hc]. apply elem_of_cons in Hin as [->|Hin]; [by eexists|eauto].
Qed.

(* a chain only depends on the heap cells of its own parts *)
Lemma chain_ext (h h' : heap) (pv : ptr) (l : list (loc * pos_t)) :
  (∀ p, p ∈ l.*1 → h' !! p = h !! p) → chain h pv l → chain h' pv l.
Proof.
  revert pv. induction l as [|e l IH]; intros pv Hsame Hc; [done|].
  destruct Hc as [He Hc]. split.
  - rewrite Hsame; [done|]. apply elem_of_cons. by left.
  - apply IH; [|done]. intros p Hp. apply Hsame, elem_of_cons. by right.
Qed.

Lemma chain_fresh (h : heap) (pv : ptr) (l : list (loc * pos_t)) :
  chain h pv l → fresh (dom h) ∉ l.*1.
Proof.
  intros Hc Hin. destruct (chain_lookup _ _ _ _ Hc Hin) as [part Hp].
  by rewrite fresh_lookup in Hp.
Qed.

(* the last two parts of a chain *)
Lemma chain_last_two (h : heap) (pv : ptr) (l : list (loc * pos_t))
    (e t : loc * pos_t) :
  chain h pv (l ++ [e; t]) →
  h !! t.1 = Some (mk_part t.2 (Some e.1) None) ∧
  ∃ pv', h !! e.1 = Some (mk_part e.2 pv' (Some t.1)).
Proof.
  revert pv. induction l as [|a l IH]; intros pv Hc.
  - destruct Hc as (He & Ht & _). split; [done|by eexists].
  - destruct Hc as [_ Hc]. eauto.
Qed.

Lemma hd_error_app_two {A : Type} (l : list A) (e t : A) :
  hd_error (l ++ [e; t]) = hd_error (l ++ [e]).
Proof. by destruct l. Qed.

(* cutting the last part off a chain *)
Lemma chain_cut (h : heap) (pv : ptr) (l : list (loc * pos_t))
    (e t : loc * pos_t) :
  NoDup (l ++ [e; t]).*1 →
  chain h pv (l ++ [e; t]) →
  chain (delete t.1 (alter (set_next None) e.1 h)) pv (l ++ [e]).
Proof.
  revert pv. induction l as [|a l IH]; intros pv Hnd Hc.
  - destruct Hc as (He & Ht & _). cbn in *. split; [|done].
    apply NoDup_cons in Hnd as [Hne _].
    rewrite lookup_delete_ne by set_solver.
    by rewrite lookup_alter_eq, He.
  - destruct Hc as [Ha Hc]. cbn in Hnd. apply NoDup_cons in Hnd as [Hni Hnd].
    split; [|by apply IH].
    rewrite fmap_app in Hni. cbn in Hni.
    rewrite lookup_delete_ne by set_solver.
    rewrite lookup_alter_ne by set_solver.
    rewrite Ha. cbn. by rewrite hd_error_app_two.
Qed.

(** ** The two halves of a move, on a heap whose cells are known *)

Lemma add_new_head_eq (h : heap) (s : snake_t) (b : board_t) (dx dy : Z)
    (hd : loc) (part : snake_part_t) :
  head s = Some hd →
  h !! hd = Some part →
  add_new_head s b dx dy h =
    (nx ← size_rem (size_add (size_add (x (pos part)) (to_size_t dx)) (width b))
                   (width b);
     ny ← size_rem (size_add (size_add (y (pos part)) (to_size_t dy)) (height b))
                   (height b);
     b1 ← board_set b nx ny DS_CHAR_SNAKE_BODY;
     Ok ((mk_snake (size_add (len s) 1) (Some (fresh (dom h))) (tail s), b1),
         grown h hd (mk_pos nx ny))).
Proof.
  intros Hhd Hpart. unfold add_new_head. rewrite Hhd.
  assert (fresh (dom h) ≠ hd) as Hne.
  { intros Heq. rewrite <- Heq, fresh_lookup in Hpart. done. }
  erewrite bind_run by reflexivity.
  erewrite bind_run by (apply deref_lookup; rewrite lookup_insert_ne by done; exact Hpart).
  rewrite bind_lift. apply rbind_ext. intros nx _.
  erewrite bind_run by apply update_insert.
  erewrite bind_run by (apply deref_lookup; rewrite lookup_insert_ne by done; exact Hpart).
  rewrite bind_lift. apply rbind_ext. intros ny _.
  erewrite bind_run by apply update_insert.
  erewrite bind_run by apply update_insert.
  erewrite bind_run by apply update_insert.
  erewrite bind_run by (apply deref_lookup, lookup_insert_eq).
  rewrite bind_lift. apply rbind_ext. intros b1 _.
  unfold update at 1.
  unfold mbind at 1, M_bind at 1.
  rewrite lookup_insert_ne, Hpart by done. reflexivity.
Qed.

Lemma cut_off_tail_short (h : heap) (s : snake_t) (b : board_t) :
  len s ≤ DS_FULL_GROWN_LEN → cut_off_tail s b h = Ok ((s, b), h).
Proof.
  intros Hlen. unfold cut_off_tail.
  destruct (Z.ltb_spec DS_FULL_GROWN_LEN (len s)); [lia|done].
Qed.

Lemma cut_off_tail_eq (h : heap) (s : snake_t) (b : board_t)
    (e t : loc) (tq : pos_t) (nx : ptr) :
  DS_FULL_GROWN_LEN < len s →
  tail s = Some t →
  h !! t = Some (mk_part tq (Some e) nx) →
  is_Some (h !! e) →
  e ≠ t →
  cut_off_tail s b h =
    (b2 ← board_set b (x tq) (y tq) DS_CHAR_FLOOR;
     Ok ((mk_snake (size_sub (len s) 1) (head s) (Some e), b2), trimmed h e t)).
Proof.
  intros Hlen Htail Ht [parte He] Hne. unfold cut_off_tail.
  destruct (Z.ltb_spec DS_FULL_GROWN_LEN (len s)); [|lia].
  rewrite Htail.
  erewrite bind_run by (apply deref_lookup; exact Ht). cbn [prev].
  erewrite bind_run by (unfold update; rewrite He; reflexivity).
  erewrite bind_run
    by (apply deref_lookup; rewrite lookup_alter_ne by done; exact Ht).
  erewrite bind_run
    by (apply deref_lookup; rewrite lookup_alter_ne by done; exact Ht).
  cbn [pos prev].
  rewrite bind_lift. apply rbind_ext. intros b2 _.
  erewrite bind_run
    by (eapply free_lookup; rewrite lookup_alter_ne by done; exact Ht).
  reflexivity.
Qed.

(** ** Snakes stay well formed *)

Lemma ds_snake_create_eq (px py : Z) (h : heap) :
  ds_snake_create px py h
  = Ok (mk_snake 1 (Some (fresh (dom h))) (Some (fresh (dom h))),
        <[fresh (dom h) := mk_part (mk_pos (to_size_t px) (to_size_t py)) None None]> h).
Proof.
  unfold ds_snake_create.
  erewrite bind_run by reflexivity.
  do 4 (erewrite bind_run by apply update_insert).
  reflexivity.
Qed.

Lemma rep_created (px py : Z) (h : heap) :
  snake_rep
    (<[fresh (dom h) := mk_part (mk_pos (to_size_t px) (to_size_t py)) None None]> h)
    (mk_snake 1 (Some (fresh (dom h))) (Some (fresh (dom h))))
    [(fresh (dom h), mk_pos (to_size_t px) (to_size_t py))].
Proof.
  repeat split; cbn; try done.
  - apply NoDup_singleton.
  - apply lookup_insert_eq.
Qed.

(* linking a new head before the first part of a chain *)
Lemma chain_grown (h : heap) (l : list (loc * pos_t)) (hd : loc) (hq np : pos_t) :
  NoDup l.*1 →
  chain h None l →
  hd_error l = Some (hd, hq) →
  NoDup ((fresh (dom h), np) :: l).*1 ∧
  chain (grown h hd np) None ((fresh (dom h), np) :: l).
Proof.
  intros Hnd Hc Hhd.
  pose proof (chain_fresh _ _ _ Hc) as Hfresh.
  destruct l as [|[hd' hq'] l']; [done|]. cbn in Hhd. simplify_eq.
  destruct Hc as [Hpart Hc]. cbn in *.
  apply NoDup_cons in Hnd as [Hni Hnd].
  assert (fresh (dom h) ≠ hd) as Hne.
  { intros Heq. apply Hfresh. rewrite Heq. apply elem_of_cons. by left. }
  split; [apply NoDup_cons; split; [done|by apply NoDup_cons]|].
  unfold grown. split; [|split].
  - rewrite lookup_alter_ne by done. apply lookup_insert_eq.
  - rewrite lookup_alter_eq, lookup_insert_ne, Hpart by done. done.
  - eapply chain_ext; [|exact Hc]. intros p Hp.
    rewrite lookup_alter_ne by (by intros ->).
    apply lookup_insert_ne. intros Heq. apply Hfresh.
    rewrite Heq. apply elem_of_cons. by right.
Qed.

Lemma rep_grown (h : heap) (s : snake_t) (l : list (loc * pos_t))
    (hd : loc) (hq np : pos_t) :
  snake_rep h s l →
  hd_error l = Some (hd, hq) →
  len s < DS_FULL_GROWN_LEN →
  snake_rep (grown h hd np)
            (mk_snake (size_add (len s) 1) (Some (fresh (dom h))) (tail s))
            ((fresh (dom h), np) :: l).
Proof.
  intros (Hnd & Hc & Hh & Ht & Hlen & Hrange) Hhd Hshort.
  destruct (chain_grown h l hd hq np Hnd Hc Hhd) as [Hnd' Hc'].
  assert (size_add (len s) 1 = len s + 1) as Hadd.
  { apply to_size_t_small. unfold DS_FULL_GROWN_LEN, SIZE_MOD in *. lia. }
  split; [done|]. split; [done|]. cbn [len head tail]. rewrite Hadd.
  split; [done|]. split.
  - rewrite Ht. destruct l; [done|]. done.
  - cbn [length]. unfold DS_FULL_GROWN_LEN in *. lia.
Qed.

Lemma two_last {A : Type} (l : list A) :
  (2 ≤ length l)%nat → ∃ l0 e t, l = l0 ++ [e; t].
Proof.
  intros Hl. destruct (decide (l = [])) as [->|Hne]; [cbn in Hl; lia|].
  destruct (exists_last Hne) as (l1 & t & ->).
  destruct (decide (l1 = [])) as [->|Hne1]; [cbn in Hl; lia|].
  destruct (exists_last Hne1) as (l0 & e & ->).
  exists l0, e, t. by rewrite <- app_assoc.
Qed.

Lemma removelast_two {A : Type} (l : list A) (e t : A) :
  removelast (l ++ [e; t]) = l ++ [e].
Proof.
  change [e; t] with ([e] ++ [t]). rewrite app_assoc.
  apply removelast_last.
Qed.

Lemma last_two {A : Type} (l : list A) (e t : A) :
  last (l ++ [e; t]) = Some t.
Proof.
  change [e; t] with ([e] ++ [t]). rewrite app_assoc. apply last_snoc.
Qed.

(* a full-grown snake: the new head is linked, the tail is cut *)
Lemma rep_trimmed (h : heap) (s : snake_t) (l0 : list (loc * pos_t))
    (e t : loc * pos_t) (hd : loc) (hq np : pos_t) :
  snake_rep h s (l0 ++ [e; t]) →
  hd_error (l0 ++ [e; t]) = Some (hd, hq) →
  len s = DS_FULL_GROWN_LEN →
  snake_rep (trimmed (grown h hd np) e.1 t.1)
            (mk_snake (size_sub (size_add (len s) 1) 1)
                      (Some (fresh (dom h))) (Some e.1))
            ((fresh (dom h), np) :: l0 ++ [e]).
Proof.
  intros (Hnd & Hc & Hh & Ht & Hlen & Hrange) Hhd Hfull.
  destruct (chain_grown h _ hd hq np Hnd Hc Hhd) as [Hnd' Hc'].
  assert (size_sub (size_add (len s) 1) 1 = len s) as Hsub.
  { unfold size_sub, size_add.
    rewrite !to_size_t_small; unfold DS_FULL_GROWN_LEN, SIZE_MOD in *;
      rewrite ?to_size_t_small; unfold SIZE_MOD; lia. }
  rewrite Hsub.
  change ((fresh (dom h), np) :: l0 ++ [e; t])
    with (((fresh (dom h), np) :: l0) ++ [e; t]) in Hnd', Hc'.
  split; [|split; [|split; [|split; [|split]]]]; cbn [len head tail].
  - change ((fresh (dom h), np) :: l0 ++ [e])
      with (((fresh (dom h), np) :: l0) ++ [e]).
    rewrite fmap_app in *. cbn in *.
    rewrite (assoc_L (++) _ [e.1] [t.1]), app_comm_cons in Hnd'.
    by apply NoDup_app in Hnd' as [? _].
  - by apply (chain_cut _ _ ((fresh (dom h), np) :: l0)).
  - done.
  - change ((fresh (dom h), np) :: l0 ++ [e])
      with (((fresh (dom h), np) :: l0) ++ [e]).
    by rewrite last_snoc.
  - rewrite Hlen. cbn [length]. rewrite !length_app. cbn. lia.
  - done.
Qed.

(** ** One move *)

Lemma valid_dir_asserts (dx dy : Z) :
  valid_dir dx dy ↔
  valid_step dx = true ∧ valid_step dy = true ∧
  negb (eqb (dx =? 0) (dy =? 0)) = true.
Proof.
  unfold valid_dir, valid_step. split.
  - intros [[-> [-> | ->]] | [-> [-> | ->]]]; done.
  - intros (Hx & Hy & Hxy).
    destruct (Z.eqb_spec dx 0), (Z.eqb_spec dx 1), (Z.eqb_spec dx (-1)),
      (Z.eqb_spec dy 0), (Z.eqb_spec dy 1), (Z.eqb_spec dy (-1));
      cbn in *; try done; lia.
Qed.

Lemma rep_head (h : heap) (s : snake_t) (l : list (loc * pos_t)) :
  snake_rep h s l →
  ∃ hd hq nx, hd_error l = Some (hd, hq) ∧ head s = Some hd ∧
    h !! hd = Some (mk_part hq None nx).
Proof.
  intros (Hnd & Hc & Hh & Ht & Hlen & Hrange).
  destruct l as [|[hd hq] l']; [cbn in Hlen; lia|].
  destruct Hc as [Hpart _]. by exists hd, hq, (fst <$> hd_error l').
Qed.

(* a move on a well-formed snake: what is left to decide is whether the
   direction is valid and whether the board writes are in range *)
Lemma ds_snake_move_eq (h : heap) (s : snake_t) (l : list (loc * pos_t))
    (b : board_t) (dx dy : Z) (hd : loc) (hq : pos_t) :
  snake_rep h s l →
  hd_error l = Some (hd, hq) →
  ds_snake_move s b dx dy h =
    (assert (valid_step dx);;
     assert (valid_step dy);;
     assert (negb (eqb (dx =? 0) (dy =? 0)));;
     nx ← size_rem (size_add (size_add (x hq) (to_size_t dx)) (width b)) (width b);
     ny ← size_rem (size_add (size_add (y hq) (to_size_t dy)) (height b)) (height b);
     b1 ← board_set b nx ny DS_CHAR_SNAKE_BODY;
     cut_off_tail (mk_snake (size_add (len s) 1) (Some (fresh (dom h))) (tail s))
                  b1 (grown h hd (mk_pos nx ny))).
Proof.
  intros Hrep Hhd.
  destruct (rep_head _ _ _ Hrep) as (hd' & hq' & nx & Hhd' & Hhead & Hpart).
  rewrite Hhd in Hhd'. simplify_eq.
  unfold ds_snake_move.
  do 3 (rewrite bind_lift; apply rbind_ext; intros [] _).
  unfold mbind at 1, M_bind at 1.
  rewrite (add_new_head_eq h s b dx dy hd' _ Hhead Hpart). cbn [pos x y].
  destruct (size_rem _ (width b)) as [nx'|]; [|done]. cbn.
  destruct (size_rem _ (height b)) as [ny'|]; [|done]. cbn.
  destruct (board_set _ _ _ _) as [b1|]; done.
Qed.

Lemma size_step (a d w : Z) :
  0 ≤ a < w → -1 ≤ d ≤ 1 → w ≤ PTRDIFF_MAX →
  size_add (size_add a (to_size_t d)) w = a + d + w.
Proof.
  intros Ha Hd Hw. unfold size_add, to_size_t.
  rewrite Z.add_mod_idemp_r, Z.add_mod_idemp_l by done.
  apply Z.mod_small. unfold PTRDIFF_MAX, SIZE_MOD in *. lia.
Qed.

Lemma valid_dir_range (dx dy : Z) :
  valid_dir dx dy → -1 ≤ dx ≤ 1 ∧ -1 ≤ dy ≤ 1.
Proof. unfold valid_dir. lia. Qed.

Lemma board_wf_dims (b : board_t) :
  board_wf b →
  0 < width b ≤ PTRDIFF_MAX ∧ 0 < height b ≤ PTRDIFF_MAX.
Proof. intros (Hw & Hh & Hfit & _). nia. Qed.

(* on a well-formed board the new head wraps around the edges *)
Lemma new_head_pos_wraps (b : board_t) (q : pos_t) (dx dy : Z) :
  board_wf b → in_board b q → valid_dir dx dy →
  new_head_pos b q dx dy
  = mk_pos ((x q + dx + width b) mod width b)
           ((y q + dy + height b) mod height b).
Proof.
  intros Hwf [Hx Hy] Hdir.
  destruct (board_wf_dims b Hwf) as [Hw Hh].
  destruct (valid_dir_range dx dy Hdir) as [Hdx Hdy].
  unfold new_head_pos. by rewrite !size_step by lia.
Qed.

Lemma new_head_in_board (b : board_t) (q : pos_t) (dx dy : Z) :
  board_wf b → in_board b (new_head_pos b q dx dy).
Proof.
  intros Hwf. destruct (board_wf_dims b Hwf) as [Hw Hh].
  unfold new_head_pos, in_board. cbn.
  split; apply Z.mod_pos_bound; lia.
Qed.

Lemma size_rem_ok (a w : Z) : 0 < w → size_rem a w = Ok (a mod w).
Proof. intros Hw. unfold size_rem. destruct (Z.eqb_spec w 0); [lia|done]. Qed.

(* a snake that is not full-grown: the move links a new head and nothing else *)
Lemma move_grow (h : heap) (s : snake_t) (l : list (loc * pos_t))
    (b : board_t) (dx dy : Z) (hd : loc) (hq : pos_t) :
  snake_rep h s l →
  hd_error l = Some (hd, hq) →
  board_wf b → valid_dir dx dy →
  len s < DS_FULL_GROWN_LEN →
  ds_snake_move s b dx dy h =
    Ok ((mk_snake (len s + 1) (Some (fresh (dom h))) (tail s),
         paint b (new_head_pos b hq dx dy) DS_CHAR_SNAKE_BODY),
        grown h hd (new_head_pos b hq dx dy)) ∧
  snake_rep (grown h hd (new_head_pos b hq dx dy))
            (mk_snake (len s + 1) (Some (fresh (dom h))) (tail s))
            ((fresh (dom h), new_head_pos b hq dx dy) :: l).
Proof.
  intros Hrep Hhd Hwf Hdir Hshort.
  destruct (board_wf_dims b Hwf) as [Hw Hh].
  apply valid_dir_asserts in Hdir as (Hdx & Hdy & Hxy).
  pose proof (rep_grown h s l hd hq (new_head_pos b hq dx dy) Hrep Hhd Hshort) as Hrep'.
  assert (size_add (len s) 1 = len s + 1) as Hadd.
  { destruct Hrep as (_ & _ & _ & _ & _ & Hrange).
    apply to_size_t_small. unfold SIZE_MOD, DS_FULL_GROWN_LEN in *. lia. }
  rewrite Hadd in Hrep'. split; [|done].
  rewrite (ds_snake_move_eq h s l b dx dy hd hq Hrep Hhd).
  rewrite Hdx, Hdy, Hxy. cbn.
  rewrite !size_rem_ok by lia. cbn.
  pose proof (board_set_in b (new_head_pos b hq dx dy) DS_CHAR_SNAKE_BODY Hwf
                (new_head_in_board b hq dx dy Hwf)) as Hset.
  cbn in Hset. rewrite Hset. cbn.
  rewrite cut_off_tail_short by (cbn; rewrite Hadd; lia).
  by rewrite Hadd.
Qed.

Lemma rep_full_split (h : heap) (s : snake_t) (l : list (loc * pos_t)) :
  snake_rep h s l → len s = DS_FULL_GROWN_LEN →
  ∃ l0 e t, l = l0 ++ [e; t].
Proof.
  intros (_ & _ & _ & _ & Hlen & _) Hfull. apply two_last.
  unfold DS_FULL_GROWN_LEN in *. lia.
Qed.

(* the cells of the tail and of its predecessor once the new head is linked *)
Lemma grown_tail (h : heap) (s : snake_t) (l0 : list (loc * pos_t))
    (e t : loc * pos_t) (hd : loc) (hq np : pos_t) :
  snake_rep h s (l0 ++ [e; t]) →
  hd_error (l0 ++ [e; t]) = Some (hd, hq) →
  tail s = Some t.1 ∧
  grown h hd np !! t.1 = Some (mk_part t.2 (Some e.1) None) ∧
  is_Some (grown h hd np !! e.1) ∧
  e.1 ≠ t.1.
Proof.
  intros (Hnd & Hc & Hh & Ht & Hlen & Hrange) Hhd.
  destruct (chain_grown h _ hd hq np Hnd Hc Hhd) as [Hnd' Hc'].
  change ((fresh (dom h), np) :: l0 ++ [e; t])
    with (((fresh (dom h), np) :: l0) ++ [e; t]) in Hc'.
  destruct (chain_last_two _ _ _ _ _ Hc') as (Ht' & pv' & He').
  split; [by rewrite Ht, last_two|]. split; [done|]. split; [by eexists|].
  rewrite fmap_app in Hnd. apply NoDup_app in Hnd as (_ & _ & Hnd).
  cbn in Hnd. apply NoDup_cons in Hnd as [Hne _].
  intros Heq. apply Hne. rewrite Heq. apply elem_of_cons. by left.
Qed.

(* a full-grown snake: the move links a new head, then cuts the tail *)
Lemma move_trim (h : heap) (s : snake_t) (l0 : list (loc * pos_t))
    (e t : loc * pos_t) (b : board_t) (dx dy : Z) (hd : loc) (hq : pos_t) :
  snake_rep h s (l0 ++ [e; t]) →
  hd_error (l0 ++ [e; t]) = Some (hd, hq) →
  board_wf b → in_board b t.2 → valid_dir dx dy →
  len s = DS_FULL_GROWN_LEN →
  ds_snake_move s b dx dy h =
    Ok ((mk_snake (len s) (Some (fresh (dom h))) (Some e.1),
         paint (paint b (new_head_pos b hq dx dy) DS_CHAR_SNAKE_BODY)
               t.2 DS_CHAR_FLOOR),
        trimmed (grown h hd (new_head_pos b hq dx dy)) e.1 t.1) ∧
  snake_rep (trimmed (grown h hd (new_head_pos b hq dx dy)) e.1 t.1)
            (mk_snake (len s) (Some (fresh (dom h))) (Some e.1))
            ((fresh (dom h), new_head_pos b hq dx dy) :: l0 ++ [e]).
Proof.
  intros Hrep Hhd Hwf Htail Hdir Hfull.
  set (np := new_head_pos b hq dx dy).
  destruct (board_wf_dims b Hwf) as [Hw Hh].
  apply valid_dir_asserts in Hdir as (Hdx & Hdy & Hxy).
  pose proof (rep_trimmed h s l0 e t hd hq np Hrep Hhd Hfull) as Hrep'.
  destruct (grown_tail h s l0 e t hd hq np Hrep Hhd) as (Ht & Htc & Hec & Hne).
  assert (size_add (len s) 1 = len s + 1) as Hadd.
  { apply to_size_t_small. unfold SIZE_MOD, DS_FULL_GROWN_LEN in *. lia. }
  assert (size_sub (len s + 1) 1 = len s) as Hsub.
  { unfold size_sub. rewrite to_size_t_small;
      unfold SIZE_MOD, DS_FULL_GROWN_LEN in *; lia. }
  rewrite Hadd, Hsub in Hrep'. split; [|done].
  rewrite (ds_snake_move_eq h s _ b dx dy hd hq Hrep Hhd).
  rewrite Hdx, Hdy, Hxy. cbn.
  rewrite !size_rem_ok by lia. cbn.
  pose proof (board_set_in b np DS_CHAR_SNAKE_BODY Hwf
                (new_head_in_board b hq dx dy Hwf)) as Hset.
  cbn in Hset. rewrite Hset. cbn.
  rewrite (cut_off_tail_eq _ _ _ e.1 t.1 t.2 None);
    [|cbn; rewrite Hadd; lia|done|done|done|done].
  rewrite board_set_in by (by apply paint_wf || done). cbn.
  by rewrite Hadd, Hsub.
Qed.

(* whatever the board, a completed move leaves a well-formed snake *)
Lemma move_keeps_rep (h h' : heap) (s s' : snake_t) (l : list (loc * pos_t))
    (b b' : board_t) (dx dy : Z) :
  snake_rep h s l →
  ds_snake_move s b dx dy h = Ok ((s', b'), h') →
  ∃ p np, snake_rep h' s'
    ((p, np) :: if len s <? DS_FULL_GROWN_LEN then l else removelast l).
Proof.
  intros Hrep Hmove.
  destruct (rep_head _ _ _ Hrep) as (hd & hq & nx & Hhd & Hhead & Hpart).
  rewrite (ds_snake_move_eq h s l b dx dy hd hq Hrep Hhd) in Hmove.
  destruct (valid_step dx); [|done]. destruct (valid_step dy); [|done].
  destruct (negb _); [|done]. cbn in Hmove.
  destruct (size_rem _ (width b)) as [nx'|]; [|done]. cbn in Hmove.
  destruct (size_rem _ (height b)) as [ny'|]; [|done]. cbn in Hmove.
  destruct (board_set _ _ _ _) as [b1|]; [|done]. cbn in Hmove.
  assert (size_add (len s) 1 = len s + 1) as Hadd.
  { destruct Hrep as (_ & _ & _ & _ & _ & Hrange).
    apply to_size_t_small. unfold SIZE_MOD, DS_FULL_GROWN_LEN in *. lia. }
  exists (fresh (dom h)), (mk_pos nx' ny').
  destruct (Z.ltb_spec (len s) DS_FULL_GROWN_LEN) as [Hshort|Hfull].
  - rewrite cut_off_tail_short in Hmove by (cbn; rewrite Hadd; lia).
    simplify_eq. by apply (rep_grown h s l hd hq).
  - assert (len s = DS_FULL_GROWN_LEN) as Hlen.
    { destruct Hrep as (_ & _ & _ & _ & _ & Hrange). lia. }
    destruct (rep_full_split h s l Hrep Hlen) as (l0 & e & t & ->).
    destruct (grown_tail h s l0 e t hd hq (mk_pos nx' ny') Hrep Hhd)
      as (Ht & Htc & Hec & Hne).
    rewrite (cut_off_tail_eq _ _ _ e.1 t.1 t.2 None) in Hmove;
      [|cbn; rewrite Hadd; lia|done|done|done|done].
    destruct (board_set b1 _ _ _) as [b2|]; [|done]. cbn in Hmove.
    simplify_eq. rewrite removelast_two.
    by apply (rep_trimmed h s l0 e t hd hq).
Qed.

(** ** Board.create *)

Lemma fresh_text_cell (w h : Z) (i : nat) :
  0 < w → 0 < h → Z.of_nat i < w * h →
  fresh_text w h !! i
  = Some (if Z.of_nat i <? DS_MIN (strlen help) (w * h)
          then nth i (chars help) NUL else DS_CHAR_FLOOR).
Proof.
  intros Hw Hh Hi. unfold fresh_text.
  assert (length (take (Z.to_nat (w * h)) (chars help))
          = Z.to_nat (DS_MIN (strlen help) (w * h))) as Htake.
  { rewrite length_take, DS_MIN_spec. unfold strlen, chars.
    change (length (list_ascii_of_string help)) with (String.length help). lia. }
  assert (0 ≤ DS_MIN (strlen help) (w * h) ≤ strlen help) as Hmin.
  { rewrite DS_MIN_spec. unfold strlen. lia. }
  destruct (Z.ltb_spec (Z.of_nat i) (DS_MIN (strlen help) (w * h))) as [Hlt|Hge].
  - rewrite lookup_app_l by lia. rewrite lookup_take_lt by lia.
    destruct (lookup_lt_is_Some_2 (chars help) i) as [c Hc].
    { unfold strlen, chars in *.
      change (length (list_ascii_of_string help)) with (String.length help). lia. }
    rewrite Hc. f_equal. symmetry. by apply nth_lookup_Some.
  - rewrite lookup_app_r by lia.
    rewrite lookup_app_l by (rewrite length_replicate; rewrite DS_MIN_spec in *; lia).
    apply lookup_replicate_2. rewrite DS_MIN_spec in *. lia.
Qed.

Lemma fresh_text_end (w h : Z) :
  0 < w → 0 < h → fresh_text w h !! Z.to_nat (w * h) = Some NUL.
Proof.
  intros Hw Hh. unfold fresh_text.
  assert (length (take (Z.to_nat (w * h)) (chars help))
          = Z.to_nat (DS_MIN (strlen help) (w * h))) as Htake.
  { rewrite length_take, DS_MIN_spec. unfold strlen, chars.
    change (length (list_ascii_of_string help)) with (String.length help). lia. }
  assert (0 ≤ DS_MIN (strlen help) (w * h) ≤ w * h) as Hmin.
  { rewrite DS_MIN_spec. unfold strlen. nia. }
  rewrite lookup_app_r by lia.
  rewrite lookup_app_r by (rewrite length_replicate; lia).
  rewrite Htake, length_replicate.
  by replace (_ - _ - _)%nat with 0%nat by lia.
Qed.

(** C9: for all width, height > 0 whose grid and row table can be
    allocated, ds_board_create yields a board of that width and height
    whose text is exactly width * height cells and the terminator; the
    cell (x, y) is the cell number y * width + x of the text, and it holds
    the character of the help message with that number when the number is
    below the length of the message cut to the grid, and Floor otherwise. *)
Theorem board_create_grid (w h : Z) :
  0 < w → 0 < h →
  w * h < PTRDIFF_MAX →
  sizeof_ptr * h ≤ PTRDIFF_MAX →
  ∃ b, ds_board_create w h = Ok b ∧
    width b = w ∧ height b = h ∧
    Z.of_nat (length (text b)) = w * h + 1 ∧
    text b !! Z.to_nat (w * h) = Some NUL ∧
    text b = take (Z.to_nat (w * h)) (chars help)
             ++ replicate (Z.to_nat (w * h - DS_MIN (strlen help) (w * h)))
                          DS_CHAR_FLOOR
             ++ [NUL] ∧
    ∀ q, in_board b q →
      board_get b (x q) (y q)
      = Ok (if y q * w + x q <? DS_MIN (strlen help) (w * h)
            then nth (Z.to_nat (y q * w + x q)) (chars help) NUL
            else DS_CHAR_FLOOR).
Proof.
  intros Hw Hh Hfit Hrows.
  exists (mk_board (fresh_text w h) (row_offsets w h) h w).
  split; [by apply ds_board_create_ok|]. cbn [width height text].
  split; [done|]. split; [done|].
  split; [by apply fresh_text_length|].
  split; [by apply fresh_text_end|].
  split; [done|].
  intros q Hq.
  pose proof (fresh_board_wf w h Hw Hh Hfit) as Hwf.
  pose proof (cell_index_lt _ q Hwf Hq) as Hi. cbn in Hi.
  destruct (board_get_in _ q Hwf Hq) as (c & Hc & ->). f_equal.
  unfold cell_index in Hc. cbn in Hc.
  rewrite fresh_text_cell in Hc by lia.
  rewrite Z2Nat.id in Hc by lia. congruence.
Qed.

Lemma board_create_grid_witness :
  ∃ b, ds_board_create 10 5 = Ok b ∧
    width b = 10 ∧ height b = 5 ∧
    Z.of_nat (length (text b)) = 10 * 5 + 1 ∧
    text b !! Z.to_nat (10 * 5) = Some NUL ∧
    text b = take (Z.to_nat (10 * 5)) (chars help)
             ++ replicate (Z.to_nat (10 * 5 - DS_MIN (strlen help) (10 * 5)))
                          DS_CHAR_FLOOR
             ++ [NUL] ∧
    ∀ q, in_board b q →
      board_get b (x q) (y q)
      = Ok (if y q * 10 + x q <? DS_MIN (strlen help) (10 * 5)
            then nth (Z.to_nat (y q * 10 + x q)) (chars help) NUL
            else DS_CHAR_FLOOR).
Proof. apply (board_create_grid 10 5); vm_compute; (reflexivity || discriminate). Defined.

(** ** Snake.move *)

(** C2: for every well-formed snake with length < 15, every well-formed
    board and every valid direction, one move returns, the length grows by
    exactly 1, the segments are the new head followed by all the old
    segments (the tail pointer is the old one and no part is freed), and the
    only board write marks the new head's cell SnakeBody: no cell that
    was not Floor before reads Floor afterwards. *)
Theorem growing_move_extends (h : heap) (s : snake_t) (l : list (loc * pos_t))
    (b : board_t) (dx dy : Z) :
  snake_rep h s l →
  board_wf b →
  valid_dir dx dy →
  len s < DS_FULL_GROWN_LEN →
  ∃ p np s' b' h',
    ds_snake_move s b dx dy h = Ok ((s', b'), h') ∧
    len s' = len s + 1 ∧
    snake_rep h' s' ((p, np) :: l) ∧
    tail s' = tail s ∧
    dom h' = {[p]} ∪ dom h ∧
    board_set b (x np) (y np) DS_CHAR_SNAKE_BODY = Ok b' ∧
    (∀ q, in_board b q → q ≠ np →
       board_get b' (x q) (y q) = board_get b (x q) (y q)) ∧
    (∀ q, in_board b q →
       board_get b' (x q) (y q) = Ok DS_CHAR_FLOOR →
       board_get b (x q) (y q) = Ok DS_CHAR_FLOOR).
Proof.
  intros Hrep Hwf Hdir Hshort.
  destruct (rep_head _ _ _ Hrep) as (hd & hq & nx & Hhd & Hhead & Hpart).
  destruct (move_grow h s l b dx dy hd hq Hrep Hhd Hwf Hdir Hshort) as [Hmove Hrep'].
  pose proof (new_head_in_board b hq dx dy Hwf) as Hnp.
  set (np := new_head_pos b hq dx dy) in *.
  exists (fresh (dom h)), np. eexists _, _, _.
  split; [exact Hmove|]. split; [done|]. split; [done|]. split; [done|].
  split.
  { unfold grown. apply set_eq. intros q.
    rewrite elem_of_dom, lookup_alter_is_Some, <- elem_of_dom, dom_insert_L. done. }
  split; [by apply board_set_in|].
  assert (∀ q, in_board b q → q ≠ np →
            board_get (paint b np DS_CHAR_SNAKE_BODY) (x q) (y q)
            = board_get b (x q) (y q)) as Hother.
  { intros q Hq Hne. by apply board_get_paint_other. }
  split; [done|].
  intros q Hq Hfloor. destruct (decide (q = np)) as [->|Hne].
  - rewrite board_get_paint_same in Hfloor by done. by simplify_eq.
  - by rewrite <- Hother.
Qed.

(** C1: for every well-formed snake with length = 15 whose tail is on the
    board, every well-formed board and every valid direction, one move
    returns, the length is still 15, the segments are the new head
    followed by the old segments without the last one (the tail part is
    freed), and the board is written twice: the new head's cell is marked
    SnakeBody (it reads SnakeBody on the board [b1] after this write),
    then the removed tail's cell is marked Floor.  Afterwards the tail's
    cell reads Floor, the head's cell reads SnakeBody unless it is the
    cell the tail left, and every other cell is unchanged. *)
Theorem full_grown_move_slides (h : heap) (s : snake_t) (l : list (loc * pos_t))
    (b : board_t) (dx dy : Z) (t : loc * pos_t) :
  snake_rep h s l →
  last l = Some t →
  board_wf b →
  in_board b t.2 →
  valid_dir dx dy →
  len s = DS_FULL_GROWN_LEN →
  ∃ p np b1 s' b' h',
    ds_snake_move s b dx dy h = Ok ((s', b'), h') ∧
    len s' = DS_FULL_GROWN_LEN ∧
    snake_rep h' s' ((p, np) :: removelast l) ∧
    h !! p = None ∧
    h' !! t.1 = None ∧
    board_set b (x np) (y np) DS_CHAR_SNAKE_BODY = Ok b1 ∧
    board_get b1 (x np) (y np) = Ok DS_CHAR_SNAKE_BODY ∧
    board_set b1 (x t.2) (y t.2) DS_CHAR_FLOOR = Ok b' ∧
    board_get b' (x t.2) (y t.2) = Ok DS_CHAR_FLOOR ∧
    (np ≠ t.2 → board_get b' (x np) (y np) = Ok DS_CHAR_SNAKE_BODY) ∧
    (∀ q, in_board b q → q ≠ np → q ≠ t.2 →
       board_get b' (x q) (y q) = board_get b (x q) (y q)).
Proof.
  intros Hrep Hlast Hwf Htail Hdir Hfull.
  destruct (rep_head _ _ _ Hrep) as (hd & hq & nx & Hhd & Hhead & Hpart).
  destruct (rep_full_split h s l Hrep Hfull) as (l0 & e & t' & ->).
  rewrite last_two in Hlast. simplify_eq.
  destruct (move_trim h s l0 e t b dx dy hd hq Hrep Hhd Hwf Htail Hdir Hfull)
    as [Hmove Hrep'].
  pose proof (new_head_in_board b hq dx dy Hwf) as Hnp.
  set (np := new_head_pos b hq dx dy) in *.
  pose proof (paint_wf b np DS_CHAR_SNAKE_BODY Hwf) as Hwf1.
  exists (fresh (dom h)), np, (paint b np DS_CHAR_SNAKE_BODY). eexists _, _, _.
  split; [exact Hmove|]. split; [done|].
  split; [by rewrite removelast_two|].
  split; [apply fresh_lookup|].
  split; [apply lookup_delete_eq|].
  split; [by apply board_set_in|].
  split; [by apply board_get_paint_same|].
  split; [by apply board_set_in|].
  split; [by apply board_get_paint_same|].
  split.
  - intros Hne. rewrite board_get_paint_other by done.
    by apply board_get_paint_same.
  - intros q Hq Hne1 Hne2. rewrite board_get_paint_other by done.
    by apply board_get_paint_other.
Qed.

(** C10: in a move of a full-grown snake the new head's cell is written
    SnakeBody before the cut tail's cell is written Floor: the board after
    the move is the board after these two writes, in this order.  So for
    every well-formed snake with length = 15 for which the position computed
    for the new head is the position of the tail, the cell at the
    position of the new head segment reads Floor when the move returns. *)
Theorem head_on_tail_cell_reads_floor (h : heap) (s : snake_t)
    (l : list (loc * pos_t)) (b : board_t) (dx dy : Z)
    (hd : loc * pos_t) (t : loc * pos_t) :
  snake_rep h s l →
  hd_error l = Some hd →
  last l = Some t →
  board_wf b →
  in_board b t.2 →
  valid_dir dx dy →
  len s = DS_FULL_GROWN_LEN →
  ∃ np b1 s' b' h',
    np = new_head_pos b hd.2 dx dy ∧
    ds_snake_move s b dx dy h = Ok ((s', b'), h') ∧
    board_set b (x np) (y np) DS_CHAR_SNAKE_BODY = Ok b1 ∧
    board_set b1 (x t.2) (y t.2) DS_CHAR_FLOOR = Ok b' ∧
    head_pos s' h' = Ok (np, h') ∧
    (np = t.2 → board_get b' (x np) (y np) = Ok DS_CHAR_FLOOR).
Proof.
  intros Hrep Hhd Hlast Hwf Htail Hdir Hfull.
  destruct hd as [hd hq]. cbn [snd].
  destruct (rep_full_split h s l Hrep Hfull) as (l0 & e & t' & ->).
  rewrite last_two in Hlast. simplify_eq.
  pose proof (new_head_in_board b hq dx dy Hwf) as Hnp.
  destruct (move_trim h s l0 e t b dx dy hd hq Hrep Hhd Hwf Htail Hdir Hfull)
    as [Hmove Hrep'].
  set (np := new_head_pos b hq dx dy) in *.
  pose proof (paint_wf b np DS_CHAR_SNAKE_BODY Hwf) as Hwf1.
  exists np, (paint b np DS_CHAR_SNAKE_BODY). eexists _, _, _.
  split; [done|].
  split; [exact Hmove|].
  split; [by apply board_set_in|].
  split; [by apply board_set_in|].
  split.
  - destruct (rep_head _ _ _ Hrep') as (p & pq & nx & Hp & Hhead' & Hpart').
    cbn in Hp. simplify_eq. unfold head_pos. rewrite Hhead'.
    erewrite bind_run by (apply deref_lookup; exact Hpart'). done.
  - intros ->. by apply board_get_paint_same.
Qed.

Lemma on_board_last (b : board_t) (l : list (loc * pos_t)) (t : loc * pos_t) :
  on_board b l → last l = Some t → in_board b t.2.
Proof.
  intros Hon Hlast. unfold on_board in Hon. rewrite Forall_forall in Hon.
  apply Hon. rewrite last_lookup in Hlast. by eapply list_elem_of_lookup_2.
Qed.

Lemma on_board_removelast (b : board_t) (l : list (loc * pos_t)) :
  on_board b l → on_board b (removelast l).
Proof.
  unfold on_board. rewrite !Forall_forall. intros Hon e He.
  apply Hon. apply list_elem_of_In. apply list_elem_of_In in He.
  destruct l as [|a l]; [done|].
  destruct (exists_last (l := a :: l)) as (l1 & t & Heq); [done|].
  rewrite Heq in *. rewrite removelast_last in He. apply in_or_app. by left.
Qed.

(* on a well-formed board a move of a snake that lies on the board returns,
   and the snake lies on the board again *)
Lemma move_returns (h : heap) (s : snake_t) (l : list (loc * pos_t))
    (b : board_t) (dx dy : Z) (hd : loc) (hq : pos_t) :
  snake_rep h s l →
  hd_error l = Some (hd, hq) →
  board_wf b → on_board b l → valid_dir dx dy →
  ∃ s' b' h' l',
    ds_snake_move s b dx dy h = Ok ((s', b'), h') ∧
    snake_rep h' s' ((fresh (dom h), new_head_pos b hq dx dy) :: l') ∧
    l' = (if len s <? DS_FULL_GROWN_LEN then l else removelast l) ∧
    board_wf b' ∧ width b' = width b ∧ height b' = height b ∧
    on_board b' ((fresh (dom h), new_head_pos b hq dx dy) :: l').
Proof.
  intros Hrep Hhd Hwf Hon Hdir.
  pose proof (new_head_in_board b hq dx dy Hwf) as Hnp.
  destruct (Z.ltb_spec (len s) DS_FULL_GROWN_LEN) as [Hshort|Hge].
  - destruct (move_grow h s l b dx dy hd hq Hrep Hhd Hwf Hdir Hshort)
      as [Hmove Hrep'].
    eexists _, _, _, l. split; [exact Hmove|]. split; [done|]. split; [done|].
    split; [by apply paint_wf|]. split; [done|]. split; [done|].
    by apply Forall_cons.
  - assert (len s = DS_FULL_GROWN_LEN) as Hfull.
    { destruct Hrep as (_ & _ & _ & _ & _ & Hrange). lia. }
    destruct (rep_full_split h s l Hrep Hfull) as (l0 & e & t & ->).
    pose proof (on_board_last b _ t Hon (last_two l0 e t)) as Htail.
    destruct (move_trim h s l0 e t b dx dy hd hq Hrep Hhd Hwf Htail Hdir Hfull)
      as [Hmove Hrep'].
    eexists _, _, _, (l0 ++ [e]). split; [exact Hmove|]. split; [done|].
    split; [by rewrite removelast_two|].
    split; [by do 2 apply paint_wf|]. split; [done|]. split; [done|].
    apply Forall_cons. split; [done|].
    rewrite <- (removelast_two l0 e t). by apply on_board_removelast.
Qed.

(** C3: the move wraps around the edges of the board.  For every
    well-formed board (width, height > 0) and every well-formed snake on
    it whose head is at [hq], a move in a valid direction returns and the
    new head is at ((hq.x + dx + width) mod width,
    (hq.y + dy + height) mod height); so moving left from x = 0 gives
    x = width - 1, right from x = width - 1 gives x = 0, up from y = 0
    gives y = height - 1 and down from y = height - 1 gives y = 0. *)
Theorem move_wraps_around (h : heap) (s : snake_t) (l : list (loc * pos_t))
    (b : board_t) (dx dy : Z) (hd : loc) (hq : pos_t) :
  snake_rep h s l →
  hd_error l = Some (hd, hq) →
  board_wf b →
  on_board b l →
  valid_dir dx dy →
  ∃ s' b' h' np,
    ds_snake_move s b dx dy h = Ok ((s', b'), h') ∧
    head_pos s' h' = Ok (np, h') ∧
    np = mk_pos ((x hq + dx + width b) mod width b)
                ((y hq + dy + height b) mod height b) ∧
    (x hq = 0 → dx = -1 → x np = width b - 1) ∧
    (x hq = width b - 1 → dx = 1 → x np = 0) ∧
    (y hq = 0 → dy = -1 → y np = height b - 1) ∧
    (y hq = height b - 1 → dy = 1 → y np = 0).
Proof.
  intros Hrep Hhd Hwf Hon Hdir.
  destruct (move_returns h s l b dx dy hd hq Hrep Hhd Hwf Hon Hdir)
    as (s' & b' & h' & l' & Hmove & Hrep' & _).
  assert (in_board b hq) as Hq.
  { unfold on_board in Hon. rewrite Forall_forall in Hon.
    apply (Hon (hd, hq)). destruct l; [done|]. cbn in Hhd. simplify_eq.
    apply elem_of_cons. by left. }
  destruct (board_wf_dims b Hwf) as [Hw Hh].
  exists s', b', h', (new_head_pos b hq dx dy).
  split; [exact Hmove|]. split.
  { destruct (rep_head _ _ _ Hrep') as (p & pq & nx & Hp & Hhead' & Hpart').
    cbn in Hp. simplify_eq. unfold head_pos. rewrite Hhead'.
    erewrite bind_run by (apply deref_lookup; exact Hpart'). done. }
  rewrite (new_head_pos_wraps b hq dx dy Hwf Hq Hdir). split; [done|]. cbn.
  repeat split; intros -> ->.
  - replace (0 + -1 + width b) with (width b - 1) by lia.
    apply Z.mod_small. lia.
  - replace (width b - 1 + 1 + width b) with (2 * width b) by lia.
    apply Z.mod_mul. lia.
  - replace (0 + -1 + height b) with (height b - 1) by lia.
    apply Z.mod_small. lia.
  - replace (height b - 1 + 1 + height b) with (2 * height b) by lia.
    apply Z.mod_mul. lia.
Qed.

(** C4: every snake reached from ds_snake_create by completed moves is
    a chain of 1 to 15 different parts: [len] is the number of parts,
    [head] points to the first part, whose prev is NULL, every part's
    next is the part after it and its prev the part before it, and [tail]
    points to the last part, whose next is NULL. *)
Theorem reachable_snake_inv (h : heap) (s : snake_t) :
  reachable h s →
  1 ≤ len s ≤ DS_FULL_GROWN_LEN ∧ ∃ l, snake_rep h s l.
Proof.
  intros Hreach.
  assert (∃ l, snake_rep h s l) as [l Hrep].
  { induction Hreach as [h0 px py s h Hcreate|h s b dx dy s' b' h' _ [l Hrep] Hmove].
    - rewrite ds_snake_create_eq in Hcreate. simplify_eq.
      eexists. apply rep_created.
    - destruct (move_keeps_rep h h' s s' l b b' dx dy Hrep Hmove) as (p & np & Hrep').
      by eexists. }
  split; [apply Hrep|by exists l].
Qed.

(** ** Keys *)

Section Keys.

Context `{keys : curses_keys}.

Lemma arrow_labels :
  KEY_LEFT ≠ char_code "q" ∧ KEY_LEFT ≠ char_code "p" ∧
  KEY_RIGHT ≠ char_code "q" ∧ KEY_RIGHT ≠ char_code "p" ∧
  KEY_UP ≠ char_code "q" ∧ KEY_UP ≠ char_code "p" ∧
  KEY_DOWN ≠ char_code "q" ∧ KEY_DOWN ≠ char_code "p" ∧
  KEY_RIGHT ≠ KEY_LEFT ∧ KEY_UP ≠ KEY_LEFT ∧ KEY_DOWN ≠ KEY_LEFT ∧
  KEY_UP ≠ KEY_RIGHT ∧ KEY_DOWN ≠ KEY_RIGHT ∧ KEY_DOWN ≠ KEY_UP.
Proof.
  pose proof case_labels_distinct as Hnd.
  repeat (apply NoDup_cons in Hnd as [? Hnd]).
  repeat match goal with
         | H : _ ∉ _ :: _ |- _ => apply not_elem_of_cons in H as [? H]
         end.
  repeat split; congruence.
Qed.

Lemma handle_left (g : game_t) :
  handle_key KEY_LEFT g = if dx g =? 0 then set_direction g (-1) 0 else g.
Proof.
  pose proof arrow_labels as Hl. unfold handle_key.
  destruct (Z.eqb_spec KEY_LEFT (char_code "q")); [intuition|].
  destruct (Z.eqb_spec KEY_LEFT (char_code "p")); [intuition|].
  by rewrite Z.eqb_refl.
Qed.

Lemma handle_right (g : game_t) :
  handle_key KEY_RIGHT g = if dx g =? 0 then set_direction g 1 0 else g.
Proof.
  pose proof arrow_labels as Hl. unfold handle_key.
  destruct (Z.eqb_spec KEY_RIGHT (char_code "q")); [intuition|].
  destruct (Z.eqb_spec KEY_RIGHT (char_code "p")); [intuition|].
  destruct (Z.eqb_spec KEY_RIGHT KEY_LEFT); [intuition|].
  by rewrite Z.eqb_refl.
Qed.

Lemma handle_up (g : game_t) :
  handle_key KEY_UP g = if dy g =? 0 then set_direction g 0 (-1) else g.
Proof.
  pose proof arrow_labels as Hl. unfold handle_key.
  destruct (Z.eqb_spec KEY_UP (char_code "q")); [intuition|].
  destruct (Z.eqb_spec KEY_UP (char_code "p")); [intuition|].
  destruct (Z.eqb_spec KEY_UP KEY_LEFT); [intuition|].
  destruct (Z.eqb_spec KEY_UP KEY_RIGHT); [intuition|].
  by rewrite Z.eqb_refl.
Qed.

Lemma handle_down (g : game_t) :
  handle_key KEY_DOWN g = if dy g =? 0 then set_direction g 0 1 else g.
Proof.
  pose proof arrow_labels as Hl. unfold handle_key.
  destruct (Z.eqb_spec KEY_DOWN (char_code "q")); [intuition|].
  destruct (Z.eqb_spec KEY_DOWN (char_code "p")); [intuition|].
  destruct (Z.eqb_spec KEY_DOWN KEY_LEFT); [intuition|].
  destruct (Z.eqb_spec KEY_DOWN KEY_RIGHT); [intuition|].
  destruct (Z.eqb_spec KEY_DOWN KEY_UP); [intuition|].
  by rewrite Z.eqb_refl.
Qed.


(** ** The key loop *)

(* the loop reads the pending keys up to the end or up to the key that
   quits, and registers those that [squeeze] keeps *)
Lemma key_loop_polled (pending : list Z) (prev_key : Z) (g : game_t) :
  -1 ∉ pending →
  ∃ polled,
    pending = polled ++ (key_loop pending prev_key g).2 ∧
    ((key_loop pending prev_key g).2 = [] ∨
     quit (key_loop pending prev_key g).1 = true) ∧
    (key_loop pending prev_key g).1
    = foldl (λ g' key, handle_key key g') g
            (squeeze (polled_before prev_key) polled).
Proof.
  revert prev_key g. induction pending as [|key rest IH]; intros prev_key g Hno.
  - exists []. cbn. destruct (quit g); cbn; auto.
  - apply not_elem_of_cons in Hno as [Hkey Hno].
    assert (polled_before key = Some key) as Hpk.
    { unfold polled_before. by destruct (Z.eqb_spec key (-1)). }
    cbn [key_loop]. destruct (quit g) eqn:Hq.
    { exists []. cbn. auto. }
    destruct (Z.eqb_spec key (-1)) as [|_]; [done|].
    destruct (Z.eqb_spec key prev_key) as [->|Hne].
    + destruct (IH prev_key g Hno) as (polled & Hsplit & Hend & Hrun).
      exists (prev_key :: polled). cbn [app squeeze].
      split; [by rewrite <- Hsplit|]. split; [done|].
      rewrite Hrun, Hpk. by rewrite decide_True.
    + destruct (IH key (handle_key key g) Hno) as (polled & Hsplit & Hend & Hrun).
      exists (key :: polled). cbn [app squeeze].
      split; [by rewrite <- Hsplit|]. split; [done|].
      rewrite Hrun, Hpk. rewrite decide_False; [done|].
      unfold polled_before. destruct (prev_key =? -1); congruence.
Qed.

(* once a key is registered its repetitions are ignored *)
Lemma key_loop_repeated (key : Z) (n : nat) (g : game_t) :
  key ≠ -1 → (key_loop (replicate n key) key g).1 = g.
Proof.
  intros Hkey. induction n as [|n IH]; cbn.
  - by destruct (quit g).
  - destruct (quit g); [done|].
    destruct (Z.eqb_spec key (-1)); [done|].
    by rewrite Z.eqb_refl.
Qed.

(** C6: input de-duplication.  One drain polls the pending keys up to
    the end, or up to the key after which quit is set; a polled key equal
    to the key polled just before it is ignored and every other polled
    key is registered, in the order of arrival.  So a drain of one key
    repeated registers it exactly once. *)
Theorem repeated_key_registers_once :
  (∀ (pending : list Z) (g : game_t),
     -1 ∉ pending →
     ∃ polled,
       pending = polled ++ (handle_keys pending g).2 ∧
       ((handle_keys pending g).2 = [] ∨ quit (handle_keys pending g).1 = true) ∧
       (handle_keys pending g).1
       = foldl (λ g' key, handle_key key g') g (squeeze None polled)) ∧
  (∀ (key : Z) (n : nat) (g : game_t),
     key ≠ -1 → quit g = false →
     (handle_keys (replicate (S n) key) g).1 = handle_key key g).
Proof.
  split.
  - intros pending g Hno. unfold handle_keys.
    exact (key_loop_polled pending (-1) g Hno).
  - intros key n g Hkey Hq. unfold handle_keys. cbn [replicate key_loop].
    rewrite Hq. destruct (Z.eqb_spec key (-1)); [done|].
    by apply key_loop_repeated.
Qed.

End Keys.

(** ** Destroying a snake *)

Lemma chain_size (h : heap) (pv : ptr) (l : list (loc * pos_t)) :
  NoDup l.*1 → chain h pv l → (length l ≤ size h)%nat.
Proof.
  revert h pv. induction l as [|e l IH]; intros h pv Hnd Hc; [cbn; lia|].
  destruct Hc as [He Hc]. cbn in Hnd. apply NoDup_cons in Hnd as [Hni Hnd].
  assert (chain (delete e.1 h) (Some e.1) l) as Hc'.
  { eapply chain_ext; [|exact Hc]. intros p Hp.
    apply lookup_delete_ne. intros Heq. apply Hni. by rewrite Heq. }
  specialize (IH _ _ Hnd Hc').
  rewrite <- (insert_delete_id h e.1 _ He).
  rewrite map_size_insert_None by apply lookup_delete_eq. cbn. lia.
Qed.

Lemma destroy_parts_chain (fuel : nat) (h : heap) (pv : ptr)
    (l : list (loc * pos_t)) :
  NoDup l.*1 → chain h pv l → (length l ≤ fuel)%nat →
  ∃ h', destroy_parts fuel (fst <$> hd_error l) h = Ok (tt, h') ∧
    ∀ q, h' !! q = if decide (q ∈ l.*1) then None else h !! q.
Proof.
  revert fuel h pv. induction l as [|e l IH]; intros fuel h pv Hnd Hc Hfuel.
  - exists h. split; [by destruct fuel|].
    intros q. rewrite decide_False; [done|]. apply not_elem_of_nil.
  - destruct fuel as [|fuel]; [cbn in Hfuel; lia|].
    destruct Hc as [He Hc]. cbn in Hnd. apply NoDup_cons in Hnd as [Hni Hnd].
    assert (chain (delete e.1 h) (Some e.1) l) as Hc'.
    { eapply chain_ext; [|exact Hc]. intros p Hp.
      apply lookup_delete_ne. intros Heq. apply Hni. by rewrite Heq. }
    destruct (IH fuel _ _ Hnd Hc') as (h' & Hrun & Hget); [cbn in Hfuel; lia|].
    exists h'. split.
    + cbn [hd_error fmap option_fmap option_map destroy_parts].
      erewrite bind_run by (apply deref_lookup; exact He). cbn [next].
      erewrite bind_run by (eapply free_lookup; exact He).
      exact Hrun.
    + intros q. rewrite Hget. cbn [fmap list_fmap].
      destruct (decide (q = e.1)) as [->|Hne].
      * rewrite decide_False by done. rewrite lookup_delete_eq.
        rewrite decide_True; [done|]. apply elem_of_cons. by left.
      * rewrite lookup_delete_ne by done.
        destruct (decide (q ∈ l.*1)) as [Hin|Hnin].
        -- rewrite decide_True; [done|]. apply elem_of_cons. by right.
        -- rewrite decide_False; [done|].
           rewrite not_elem_of_cons. done.
Qed.

(* destroying a well-formed snake frees its parts and nothing else *)
Lemma ds_snake_destroy_rep (h : heap) (s : snake_t) (l : list (loc * pos_t)) :
  snake_rep h s l →
  ∃ h', ds_snake_destroy s h = Ok (tt, h') ∧
    ∀ q, h' !! q = if decide (q ∈ l.*1) then None else h !! q.
Proof.
  intros (Hnd & Hc & Hh & _). unfold ds_snake_destroy. rewrite Hh.
  apply (destroy_parts_chain _ _ None); [done|done|].
  pose proof (chain_size h None l Hnd Hc). lia.
Qed.

(** ** Resize *)

(** C8: when the terminal dimensions differ from the stored ones (and
    are positive ints), the reset step of the loop returns a game with a
    fresh board of the new dimensions, a snake of one segment at
    (COLS / 2, LINES / 2) whose old parts are freed, and the new dimensions
    stored; dx, dy, paused and quit are the old ones. *)
Theorem resize_keeps_direction (COLS LINES : Z) (g : game_t) (h : heap)
    (l : list (loc * pos_t)) :
  COLS ≠ prev_COLS g ∨ LINES ≠ prev_LINES g →
  0 < COLS ≤ INT_MAX →
  0 < LINES ≤ INT_MAX →
  snake_rep h (snake g) l →
  ∃ g' h' p,
    reset_on_resize COLS LINES g h = Ok (g', h') ∧
    ds_board_create COLS LINES = Ok (board g') ∧
    snake_rep h' (snake g') [(p, mk_pos (COLS ÷ 2) (LINES ÷ 2))] ∧
    len (snake g') = 1 ∧
    in_board (board g') (mk_pos (COLS ÷ 2) (LINES ÷ 2)) ∧
    (∀ q, q ∈ l.*1 → q ≠ p → h' !! q = None) ∧
    prev_COLS g' = COLS ∧ prev_LINES g' = LINES ∧
    dx g' = dx g ∧ dy g' = dy g ∧
    paused g' = paused g ∧ quit g' = quit g.
Proof.
  intros Hchanged HC HL Hrep. unfold INT_MAX in *.
  assert (to_size_t COLS = COLS) as HtC
    by (apply to_size_t_small; unfold SIZE_MOD; lia).
  assert (to_size_t LINES = LINES) as HtL
    by (apply to_size_t_small; unfold SIZE_MOD; lia).
  assert (0 ≤ COLS ÷ 2 < COLS) as HC2.
  { rewrite Z.quot_div_nonneg by lia. split; [apply Z.div_pos; lia|].
    apply Z.div_lt; lia. }
  assert (0 ≤ LINES ÷ 2 < LINES) as HL2.
  { rewrite Z.quot_div_nonneg by lia. split; [apply Z.div_pos; lia|].
    apply Z.div_lt; lia. }
  assert (to_size_t (COLS ÷ 2) = COLS ÷ 2) as HtC2
    by (apply to_size_t_small; unfold SIZE_MOD; lia).
  assert (to_size_t (LINES ÷ 2) = LINES ÷ 2) as HtL2
    by (apply to_size_t_small; unfold SIZE_MOD; lia).
  assert (ds_board_create COLS LINES
          = Ok (mk_board (fresh_text COLS LINES) (row_offsets COLS LINES) LINES COLS))
    as Hboard.
  { apply ds_board_create_ok; unfold PTRDIFF_MAX, sizeof_ptr; nia. }
  destruct (ds_snake_destroy_rep h (snake g) l Hrep) as (h1 & Hdestroy & Hfreed).
  unfold reset_on_resize.
  assert (negb (COLS =? prev_COLS g) || negb (prev_LINES g =? LINES) = true) as ->.
  { destruct (Z.eqb_spec COLS (prev_COLS g)), (Z.eqb_spec (prev_LINES g) LINES);
      cbn; try done. lia. }
  rewrite HtC, HtL, bind_lift, Hboard. cbn.
  erewrite bind_run by exact Hdestroy.
  erewrite bind_run by apply ds_snake_create_eq.
  eexists _, _, (fresh (dom h1)). split; [reflexivity|]. cbn.
  split; [done|].
  split; [rewrite <- HtC2 at 2; rewrite <- HtL2 at 2; apply rep_created|].
  split; [done|].
  split; [split; cbn; lia|].
  split; [|done].
  intros q Hq Hne. rewrite lookup_insert_ne by done.
  rewrite Hfreed. by rewrite decide_True.
Qed.

(** ** The scenario of one move after creation *)

(* Snake.create does not write to the board: without ds_board_put_snake
   the cell (5,2) still holds the blank that ds_board_create put there *)
Lemma create_then_move_start_cell :
  ¬ scenario_holds create_then_move.
Proof.
  intros (s & b & h & Hrun & _ & _ & Hcell & _).
  vm_compute in Hrun. injection Hrun as <- <- <-.
  vm_compute in Hcell. discriminate.
Qed.

(** C7, amended: after ds_board_create(10,5), ds_snake_create(5,2),
    ds_board_put_snake and ds_snake_move(0,-1) the head is at (5,1), the
    length is 2 and the cells (5,2) and (5,1) are SnakeBody; without
    ds_board_put_snake the run returns with the same head, length and
    cell (5,1), and the cell (5,2) is Floor. *)
Theorem scenario_with_put_snake :
  scenario_holds create_put_then_move ∧
  ∃ s b h,
    create_then_move ∅ = Ok ((s, b), h) ∧
    head_pos s h = Ok (mk_pos 5 1, h) ∧
    len s = 2 ∧
    board_get b 5 2 = Ok DS_CHAR_FLOOR ∧
    board_get b 5 1 = Ok DS_CHAR_SNAKE_BODY.
Proof.
  split.
  - unfold scenario_holds. eexists _, _, _. split; [vm_compute; reflexivity|].
    repeat split; vm_compute; reflexivity.
  - eexists _, _, _. split; [vm_compute; reflexivity|].
    repeat split; vm_compute; reflexivity.
Qed.

(** ** The theorems at concrete snakes and boards *)

Lemma growing_move_extends_witness :
  snake_rep (line_heap 3) (line_snake 3) (line_segments 3) ∧
  board_wf small_board ∧
  valid_dir 0 (-1) ∧
  len (line_snake 3) < DS_FULL_GROWN_LEN ∧
  ∃ s' b' h',
    ds_snake_move (line_snake 3) small_board 0 (-1) (line_heap 3)
    = Ok ((s', b'), h') ∧
    len s' = 4.
Proof.
  assert (snake_rep (line_heap 3) (line_snake 3) (line_segments 3)) as H1
    by by_evaluation.
  assert (board_wf small_board) as H2 by by_evaluation.
  assert (valid_dir 0 (-1)) as H3 by by_evaluation.
  assert (len (line_snake 3) < DS_FULL_GROWN_LEN) as H4 by by_evaluation.
  do 4 (split; [assumption|]).
  destruct (growing_move_extends _ _ _ _ _ _ H1 H2 H3 H4)
    as (p & np & s' & b' & h' & Hmove & Hlen & _).
  exists s', b', h'. split; [exact Hmove|].
  rewrite Hlen. reflexivity.
Defined.

Lemma full_grown_move_slides_witness :
  snake_rep (line_heap 15) (line_snake 15) (line_segments 15) ∧
  last (line_segments 15) = Some (1%positive, mk_pos 0 0) ∧
  board_wf row_board ∧
  in_board row_board (mk_pos 0 0) ∧
  valid_dir 1 0 ∧
  len (line_snake 15) = DS_FULL_GROWN_LEN ∧
  ∃ s' b' h',
    ds_snake_move (line_snake 15) row_board 1 0 (line_heap 15)
    = Ok ((s', b'), h') ∧
    len s' = DS_FULL_GROWN_LEN ∧
    board_get b' 0 0 = Ok DS_CHAR_FLOOR.
Proof.
  assert (snake_rep (line_heap 15) (line_snake 15) (line_segments 15)) as H1
    by by_evaluation.
  assert (last (line_segments 15) = Some (1%positive, mk_pos 0 0)) as H2
    by by_evaluation.
  assert (board_wf row_board) as H3 by by_evaluation.
  assert (in_board row_board (mk_pos 0 0)) as H4 by by_evaluation.
  assert (valid_dir 1 0) as H5 by by_evaluation.
  assert (len (line_snake 15) = DS_FULL_GROWN_LEN) as H6 by by_evaluation.
  do 6 (split; [assumption|]).
  destruct (full_grown_move_slides _ _ _ _ _ _ _ H1 H2 H3 H4 H5 H6)
    as (p & np & b1 & s' & b' & h' & Hmove & Hlen & _ & _ & _ & _ & _ & _ & Hfloor & _).
  exists s', b', h'. split; [exact Hmove|]. split; [exact Hlen|exact Hfloor].
Defined.

Lemma head_on_tail_cell_reads_floor_witness :
  snake_rep (line_heap 15) (line_snake 15) (line_segments 15) ∧
  hd_error (line_segments 15) = Some (15%positive, mk_pos 14 0) ∧
  last (line_segments 15) = Some (1%positive, mk_pos 0 0) ∧
  board_wf row_board ∧
  in_board row_board (mk_pos 0 0) ∧
  valid_dir 1 0 ∧
  len (line_snake 15) = DS_FULL_GROWN_LEN ∧
  new_head_pos row_board (mk_pos 14 0) 1 0 = mk_pos 0 0 ∧
  ∃ s' b' h',
    ds_snake_move (line_snake 15) row_board 1 0 (line_heap 15)
    = Ok ((s', b'), h') ∧
    head_pos s' h' = Ok (mk_pos 0 0, h') ∧
    board_get b' 0 0 = Ok DS_CHAR_FLOOR.
Proof.
  assert (snake_rep (line_heap 15) (line_snake 15) (line_segments 15)) as H1
    by by_evaluation.
  assert (hd_error (line_segments 15) = Some (15%positive, mk_pos 14 0)) as H2
    by by_evaluation.
  assert (last (line_segments 15) = Some (1%positive, mk_pos 0 0)) as H3
    by by_evaluation.
  assert (board_wf row_board) as H4 by by_evaluation.
  assert (in_board row_board (mk_pos 0 0)) as H5 by by_evaluation.
  assert (valid_dir 1 0) as H6 by by_evaluation.
  assert (len (line_snake 15) = DS_FULL_GROWN_LEN) as H7 by by_evaluation.
  assert (new_head_pos row_board (mk_pos 14 0) 1 0 = mk_pos 0 0) as H8
    by by_evaluation.
  do 8 (split; [assumption|]).
  destruct (head_on_tail_cell_reads_floor _ _ _ _ _ _
              (15%positive, mk_pos 14 0) (1%positive, mk_pos 0 0)
              H1 H2 H3 H4 H5 H6 H7)
    as (np & b1 & s' & b' & h' & Hnp & Hmove & _ & _ & Hhead & Hfloor).
  cbn [snd] in Hnp, Hfloor. rewrite H8 in Hnp. subst np.
  exists s', b', h'. split; [exact Hmove|].
  split; [exact Hhead|exact (Hfloor eq_refl)].
Defined.

Lemma move_wraps_around_witness :
  snake_rep (line_heap 3) (line_snake 3) (line_segments 3) ∧
  hd_error (line_segments 3) = Some (3%positive, mk_pos 2 0) ∧
  board_wf small_board ∧
  on_board small_board (line_segments 3) ∧
  valid_dir 0 (-1) ∧
  ∃ s' b' h',
    ds_snake_move (line_snake 3) small_board 0 (-1) (line_heap 3)
    = Ok ((s', b'), h') ∧
    head_pos s' h' = Ok (mk_pos 2 4, h').
Proof.
  assert (snake_rep (line_heap 3) (line_snake 3) (line_segments 3)) as H1
    by by_evaluation.
  assert (hd_error (line_segments 3) = Some (3%positive, mk_pos 2 0)) as H2
    by by_evaluation.
  assert (board_wf small_board) as H3 by by_evaluation.
  assert (on_board small_board (line_segments 3)) as H4 by by_evaluation.
  assert (valid_dir 0 (-1)) as H5 by by_evaluation.
  do 5 (split; [assumption|]).
  destruct (move_wraps_around _ _ _ _ _ _ _ _ H1 H2 H3 H4 H5)
    as (s' & b' & h' & np & Hmove & Hhead & Hnp & _).
  exists s', b', h'. split; [exact Hmove|].
  rewrite Hhead, Hnp. reflexivity.
Defined.

(* what a run of moves from a new snake leads to is reachable *)
Lemma moves_reachable (dirs : list (Z * Z)) (s : snake_t) (b : board_t)
    (h : heap) (s' : snake_t) (h' : heap) :
  reachable h s →
  (moved ← moves dirs s b; mret moved.1) h = Ok (s', h') →
  reachable h' s'.
Proof.
  revert s b h. induction dirs as [|d dirs IH]; intros s b h Hreach Hrun.
  - injection Hrun as <- <-. exact Hreach.
  - cbn [moves] in Hrun. unfold mbind at 1 2, M_bind at 1 2 in Hrun.
    destruct (ds_snake_move s b d.1 d.2 h) as [[[s1 b1] h1]|f] eqn:Hmove;
      [|discriminate Hrun].
    cbn [fst snd] in Hrun.
    apply (IH s1 b1 h1); [|exact Hrun].
    by apply (reach_move h s b d.1 d.2 s1 b1 h1).
Qed.

Lemma run_reachable (px py : Z) (dirs : list (Z * Z)) (b : board_t)
    (h0 : heap) (s' : snake_t) (h' : heap) :
  (s ← ds_snake_create px py; moved ← moves dirs s b; mret moved.1) h0
  = Ok (s', h') →
  reachable h' s'.
Proof.
  intros Hrun. unfold mbind at 1, M_bind at 1 in Hrun.
  destruct (ds_snake_create px py h0) as [[s h]|f] eqn:Hcreate;
    [|discriminate Hrun].
  apply (moves_reachable dirs s b h); [|exact Hrun].
  by apply (reach_create h0 px py).
Qed.

Lemma reachable_snake_inv_witness :
  (s ← ds_snake_create 0 0;
   moved ← moves (replicate 20 (1, 0)) s row_board;
   mret moved.1) ∅ = Ok (wrapped_snake, wrapped_heap) ∧
  reachable wrapped_heap wrapped_snake ∧
  1 ≤ len wrapped_snake ≤ DS_FULL_GROWN_LEN ∧
  ∃ l, snake_rep wrapped_heap wrapped_snake l.
Proof.
  assert ((s ← ds_snake_create 0 0;
           moved ← moves (replicate 20 (1, 0)) s row_board;
           mret moved.1) ∅ = Ok (wrapped_snake, wrapped_heap)) as H0
    by (vm_compute; reflexivity).
  assert (reachable wrapped_heap wrapped_snake) as H1
    by exact (run_reachable _ _ _ _ _ _ _ H0).
  split; [exact H0|]. split; [exact H1|].
  exact (reachable_snake_inv _ _ H1).
Defined.


Lemma repeated_key_registers_once_witness :
  KEY_UP ≠ -1 ∧ quit right_game = false ∧ (-1 ∉ [KEY_UP; KEY_UP; KEY_LEFT]) ∧
  (handle_keys (replicate 3 KEY_UP) right_game).1 = handle_key KEY_UP right_game ∧
  ∃ polled,
    [KEY_UP; KEY_UP; KEY_LEFT]
    = polled ++ (handle_keys [KEY_UP; KEY_UP; KEY_LEFT] right_game).2 ∧
    ((handle_keys [KEY_UP; KEY_UP; KEY_LEFT] right_game).2 = [] ∨
     quit (handle_keys [KEY_UP; KEY_UP; KEY_LEFT] right_game).1 = true) ∧
    (handle_keys [KEY_UP; KEY_UP; KEY_LEFT] right_game).1
    = foldl (λ g' key, handle_key key g') right_game (squeeze None polled).
Proof.
  assert (KEY_UP ≠ -1) as H1 by by_evaluation.
  assert (quit right_game = false) as H2 by reflexivity.
  assert (-1 ∉ [KEY_UP; KEY_UP; KEY_LEFT]) as H3.
  { apply (bool_decide_unpack _). vm_compute. exact I. }
  do 3 (split; [assumption|]).
  split.
  - exact (proj2 repeated_key_registers_once KEY_UP 2%nat right_game H1 H2).
  - exact (proj1 repeated_key_registers_once _ right_game H3).
Defined.

Lemma resize_keeps_direction_witness :
  (80 ≠ prev_COLS right_game ∨ 24 ≠ prev_LINES right_game) ∧
  (0 < 80 ≤ INT_MAX) ∧ (0 < 24 ≤ INT_MAX) ∧
  snake_rep (line_heap 3) (snake right_game) (line_segments 3) ∧
  ∃ g' h',
    reset_on_resize 80 24 right_game (line_heap 3) = Ok (g', h') ∧
    dx g' = 1 ∧ dy g' = 0 ∧ len (snake g') = 1 ∧
    prev_COLS g' = 80 ∧ prev_LINES g' = 24.
Proof.
  assert (80 ≠ prev_COLS right_game ∨ 24 ≠ prev_LINES right_game) as H1
    by (left; by_evaluation).
  assert (0 < 80 ≤ INT_MAX) as H2 by (unfold INT_MAX; lia).
  assert (0 < 24 ≤ INT_MAX) as H3 by (unfold INT_MAX; lia).
  assert (snake_rep (line_heap 3) (snake right_game) (line_segments 3)) as H4
    by by_evaluation.
  do 4 (split; [assumption|]).
  destruct (resize_keeps_direction 80 24 right_game (line_heap 3) _ H1 H2 H3 H4)
    as (g' & h' & p & Hrun & _ & _ & Hlen & _ & _ & HC & HL & Hdx & Hdy & _).
  exists g', h'. split; [exact Hrun|].
  rewrite Hdx, Hdy. repeat split; assumption.
Defined.

(** * Further properties *)

(** ** Boards: creation and printing *)

(** X1: within the sizes malloc can give, ds_board_create returns a board
    exactly when both dimensions are positive; with a zero width or
    height the assert fails. *)
Theorem board_create_zero_aborts (w h : Z) :
  0 ≤ w → 0 ≤ h →
  w * h < PTRDIFF_MAX →
  sizeof_ptr * h ≤ PTRDIFF_MAX →
  ((∃ b, ds_board_create w h = Ok b) ↔ 0 < w ∧ 0 < h) ∧
  (w = 0 ∨ h = 0 → ds_board_create w h = Err Abort).
Proof.
  intros Hw Hh Hfit Hrows. split; [split|].
  - intros [b Hb]. unfold ds_board_create in Hb.
    destruct (Z.ltb_spec 0 w); [|done]. destruct (Z.ltb_spec 0 h); [|done]. done.
  - intros [Hw' Hh']. eexists. by apply ds_board_create_ok.
  - intros Hzero. unfold ds_board_create.
    destruct (Z.ltb_spec 0 w); [|done]. destruct (Z.ltb_spec 0 h); [|done]. lia.
Qed.

Lemma board_create_zero_aborts_witness :
  0 ≤ 0 ∧ 0 ≤ 5 ∧ 0 * 5 < PTRDIFF_MAX ∧ sizeof_ptr * 5 ≤ PTRDIFF_MAX ∧
  ds_board_create 0 5 = Err Abort.
Proof.
  assert (0 ≤ 0) as H1 by lia.
  assert (0 ≤ 5) as H2 by lia.
  assert (0 * 5 < PTRDIFF_MAX) as H3 by by_evaluation.
  assert (sizeof_ptr * 5 ≤ PTRDIFF_MAX) as H4 by by_evaluation.
  do 4 (split; [assumption|]).
  exact (proj2 (board_create_zero_aborts 0 5 H1 H2 H3 H4) (or_introl eq_refl)).
Defined.

Lemma c_string_grid (grid rest : list ascii) :
  Forall (λ c, c ≠ NUL) grid →
  c_string (grid ++ NUL :: rest) = Ok grid.
Proof.
  induction grid as [|c grid IH]; intros Hgrid; [done|].
  apply Forall_cons in Hgrid as [Hc Hgrid]. cbn.
  destruct (Ascii.eqb_spec c NUL) as [|_]; [done|].
  by rewrite IH.
Qed.

Lemma printable_split (b : board_t) :
  board_wf b → printable b →
  text b = take (Z.to_nat (width b * height b)) (text b) ++ [NUL] ∧
  Forall (λ c, c ≠ NUL) (take (Z.to_nat (width b * height b)) (text b)).
Proof.
  intros (Hw & Hh & Hfit & Hlen & _) [Hend Hcells]. split.
  - rewrite <- (take_drop (Z.to_nat (width b * height b)) (text b)) at 1.
    f_equal. apply list_eq. intros i. rewrite lookup_drop.
    destruct i as [|i].
    + by rewrite Nat.add_0_r.
    + cbn. apply lookup_ge_None_2. lia.
  - apply Forall_forall. intros c Hc.
    apply list_elem_of_lookup in Hc as [i Hi].
    pose proof (lookup_lt_Some _ _ _ Hi) as Hlt. rewrite length_take in Hlt.
    rewrite lookup_take_lt in Hi by lia. eapply Hcells; [|exact Hi]. lia.
Qed.

(* a board whose grid holds no NUL prints as its grid *)
Lemma print_printable (b : board_t) :
  board_wf b → printable b →
  ds_board_print b = Ok (take (Z.to_nat (width b * height b)) (text b)).
Proof.
  intros Hwf Hpr. destruct (printable_split b Hwf Hpr) as [Hsplit Hgrid].
  unfold ds_board_print. rewrite Hsplit at 1. by apply c_string_grid.
Qed.

Lemma help_no_nul : Forall (λ c, c ≠ NUL) (chars help).
Proof. apply (bool_decide_unpack _). by vm_compute. Qed.

Lemma fresh_board_printable (w h : Z) :
  0 < w → 0 < h →
  printable (mk_board (fresh_text w h) (row_offsets w h) h w).
Proof.
  intros Hw Hh. split; cbn [text width height].
  - by apply fresh_text_end.
  - intros i c Hi Hc. rewrite fresh_text_cell in Hc by lia. simplify_eq.
    destruct (_ <? _) eqn:Hlt; [|done].
    pose proof help_no_nul as Hhelp. rewrite Forall_forall in Hhelp.
    apply Hhelp. apply list_elem_of_In, nth_In.
    apply Z.ltb_lt in Hlt. rewrite DS_MIN_spec in Hlt. unfold strlen, chars in *.
    change (length (list_ascii_of_string help)) with (String.length help). lia.
Qed.

(** X2: a board that ds_board_create has just made prints as exactly
    width * height characters: the help message cut to the grid, then
    Floor. *)
Theorem fresh_board_prints_grid (w h : Z) (b : board_t) :
  w * h < PTRDIFF_MAX →
  sizeof_ptr * h ≤ PTRDIFF_MAX →
  ds_board_create w h = Ok b →
  ∃ grid,
    ds_board_print b = Ok grid ∧
    Z.of_nat (length grid) = w * h ∧
    grid = take (Z.to_nat (w * h)) (chars help)
           ++ replicate (Z.to_nat (w * h - DS_MIN (strlen help) (w * h)))
                        DS_CHAR_FLOOR.
Proof.
  intros Hfit Hrows Hcreate.
  assert (0 < w ∧ 0 < h) as [Hw Hh].
  { unfold ds_board_create in Hcreate.
    destruct (Z.ltb_spec 0 w); [|done]. by destruct (Z.ltb_spec 0 h). }
  rewrite ds_board_create_ok in Hcreate by done. simplify_eq.
  rewrite print_printable;
    [|by apply fresh_board_wf|by apply fresh_board_printable].
  cbn [text width height]. eexists. split; [done|].
  assert (length (take (Z.to_nat (w * h)) (chars help)
                  ++ replicate (Z.to_nat (w * h - DS_MIN (strlen help) (w * h)))
                               DS_CHAR_FLOOR) = Z.to_nat (w * h)) as Hlen.
  { rewrite length_app, length_take, length_replicate, DS_MIN_spec.
    unfold strlen, chars.
    change (length (list_ascii_of_string help)) with (String.length help). nia. }
  unfold fresh_text. rewrite app_assoc, take_app_length'; [|done].
  split; [nia|done].
Qed.

Lemma fresh_board_prints_grid_witness :
  10 * 5 < PTRDIFF_MAX ∧ sizeof_ptr * 5 ≤ PTRDIFF_MAX ∧
  ds_board_create 10 5 = Ok small_board ∧
  ∃ grid, ds_board_print small_board = Ok grid ∧ Z.of_nat (length grid) = 10 * 5.
Proof.
  assert (10 * 5 < PTRDIFF_MAX) as H1 by by_evaluation.
  assert (sizeof_ptr * 5 ≤ PTRDIFF_MAX) as H2 by by_evaluation.
  assert (ds_board_create 10 5 = Ok small_board) as H3 by by_evaluation.
  do 3 (split; [assumption|]).
  destruct (fresh_board_prints_grid 10 5 small_board H1 H2 H3)
    as (grid & Hprint & Hlen & _).
  exists grid. split; [exact Hprint|exact Hlen].
Defined.

(** ** Snakes: creation and destruction *)

(** X3: ds_snake_create always returns: the snake is one segment at the
    position converted to size_t (so a negative coordinate wraps to a huge
    one), in a part that was not allocated before, and every other part of
    the heap is left as it was. *)
Theorem snake_create_one_segment (px py : Z) (h : heap) :
  ∃ s h' p,
    ds_snake_create px py h = Ok (s, h') ∧
    snake_rep h' s [(p, mk_pos (px mod 2 ^ 64) (py mod 2 ^ 64))] ∧
    len s = 1 ∧ head s = Some p ∧ tail s = Some p ∧
    h !! p = None ∧
    dom h' = {[p]} ∪ dom h ∧
    (∀ q, q ≠ p → h' !! q = h !! q).
Proof.
  eexists _, _, (fresh (dom h)). split; [apply ds_snake_create_eq|].
  split; [apply rep_created|]. do 3 (split; [done|]).
  split; [apply fresh_lookup|]. split; [apply dom_insert_L|].
  intros q Hq. by apply lookup_insert_ne.
Qed.

(* the heap once the parts of [l] are freed *)
Lemma destroy_gives_back (h0 h h' : heap) (l : list (loc * pos_t)) :
  owns h0 h l →
  (∀ q, h' !! q = if decide (q ∈ l.*1) then None else h !! q) →
  h' = h0.
Proof.
  intros [Hout Hin] Hfreed. apply map_eq. intros q. rewrite Hfreed.
  case_decide; [by rewrite Hin|by apply Hout].
Qed.

(** X4: ds_snake_destroy of a well-formed snake returns and frees exactly
    the parts of the snake: they are gone from the heap, and every other
    part is left as it was. *)
Theorem snake_destroy_frees_parts (h : heap) (s : snake_t)
    (l : list (loc * pos_t)) :
  snake_rep h s l →
  ∃ h',
    ds_snake_destroy s h = Ok (tt, h') ∧
    dom h' = dom h ∖ list_to_set l.*1 ∧
    (∀ q, q ∈ l.*1 → h' !! q = None) ∧
    (∀ q, q ∉ l.*1 → h' !! q = h !! q) ∧
    size h = (size h' + length l)%nat.
Proof.
  intros Hrep.
  destruct (ds_snake_destroy_rep h s l Hrep) as (h' & Hrun & Hfreed).
  exists h'. split; [done|].
  assert (dom h' = dom h ∖ list_to_set l.*1) as Hdom.
  { apply set_eq. intros q.
    rewrite elem_of_difference, elem_of_list_to_set, !elem_of_dom, Hfreed.
    destruct (decide (q ∈ l.*1)) as [Hin|Hnin].
    - split; [intros Hn; by apply is_Some_None in Hn|by intros [_ Hn]].
    - split; [by intros Hs|by intros [Hs _]]. }
  split; [done|].
  split; [intros q Hq; by rewrite Hfreed, decide_True|].
  split; [intros q Hq; by rewrite Hfreed, decide_False|].
  destruct Hrep as (Hnd & Hc & _).
  rewrite <- !size_dom, Hdom.
  assert (list_to_set l.*1 ⊆ dom h) as Hsub.
  { intros q Hq. apply elem_of_list_to_set in Hq.
    apply elem_of_dom. by eapply chain_lookup. }
  rewrite (union_difference_L (list_to_set l.*1) (dom h) Hsub) at 1.
  rewrite size_union by apply disjoint_difference_r1, reflexivity.
  rewrite size_list_to_set by done. rewrite length_fmap. lia.
Qed.

Lemma snake_destroy_frees_parts_witness :
  snake_rep (line_heap 3) (line_snake 3) (line_segments 3) ∧
  ds_snake_destroy (line_snake 3) (line_heap 3) = Ok (tt, ∅).
Proof.
  assert (snake_rep (line_heap 3) (line_snake 3) (line_segments 3)) as H1
    by by_evaluation.
  split; [assumption|].
  destruct (snake_destroy_frees_parts _ _ _ H1) as (h' & Hrun & _ & _ & _ & Hsize).
  rewrite Hrun. do 2 f_equal.
  apply map_size_empty_inv.
  assert (size (line_heap 3) = 3%nat) as Hs by (vm_compute; reflexivity).
  assert (length (line_segments 3) = 3%nat) as Hl by reflexivity.
  rewrite Hs, Hl in Hsize. lia.
Defined.

(** X5: ds_snake_destroy on a pointer to a snake_t that holds a
    well-formed snake returns, with the parts and the snake_t freed; a
    second ds_snake_destroy on the same pointer is a use of freed memory
    at its first access: it reads snake->head from the freed snake_t,
    and that is undefined whatever the part heap holds. *)
Theorem snake_destroy_twice_undefined (m : memory) (sp : loc) (s : snake_t)
    (l : list (loc * pos_t)) :
  snakes m !! sp = Some s →
  snake_rep (parts m) s l →
  ∃ m',
    ds_snake_destroy_ptr (Some sp) m = Ok (tt, m') ∧
    snakes m' = delete sp (snakes m) ∧
    (∀ q, parts m' !! q = if decide (q ∈ l.*1) then None else parts m !! q) ∧
    ds_snake_destroy_ptr (Some sp) m' = Err Undefined ∧
    (∀ h, ds_snake_destroy_ptr (Some sp) (mk_memory h (snakes m'))
          = Err Undefined).
Proof.
  intros Hs Hrep.
  destruct (ds_snake_destroy_rep (parts m) s l Hrep) as (h' & Hrun & Hfreed).
  exists (mk_memory h' (delete sp (snakes m))).
  assert (∀ h, ds_snake_destroy_ptr (Some sp) (mk_memory h (delete sp (snakes m)))
               = Err Undefined) as Hagain.
  { intros h. unfold ds_snake_destroy_ptr. cbn [snakes].
    rewrite lookup_delete_eq. reflexivity. }
  split; [unfold ds_snake_destroy_ptr; rewrite Hs, Hrun; reflexivity|].
  split; [reflexivity|]. split; [exact Hfreed|].
  split; [apply Hagain|exact Hagain].
Qed.

Lemma snake_destroy_twice_undefined_witness :
  snakes (line_memory 3) !! 1%positive = Some (line_snake 3) ∧
  snake_rep (parts (line_memory 3)) (line_snake 3) (line_segments 3) ∧
  ∃ m',
    ds_snake_destroy_ptr (Some 1%positive) (line_memory 3) = Ok (tt, m') ∧
    ds_snake_destroy_ptr (Some 1%positive) m' = Err Undefined.
Proof.
  assert (snakes (line_memory 3) !! 1%positive = Some (line_snake 3)) as H1
    by (vm_compute; reflexivity).
  assert (snake_rep (parts (line_memory 3)) (line_snake 3) (line_segments 3))
    as H2 by by_evaluation.
  do 2 (split; [assumption|]).
  destruct (snake_destroy_twice_undefined _ _ _ _ H1 H2)
    as (m' & Hrun & _ & _ & Hagain & _).
  exists m'. split; [exact Hrun|exact Hagain].
Defined.

(** ** Putting the snake on the board *)

Lemma with_snake_cons (b : board_t) (e : loc * pos_t) (l : list (loc * pos_t)) :
  with_snake b (e :: l) = with_snake (paint b e.2 DS_CHAR_SNAKE_BODY) l.
Proof. reflexivity. Qed.

Lemma put_parts_chain (fuel : nat) (h : heap) (b : board_t) (pv : ptr)
    (l : list (loc * pos_t)) :
  chain h pv l → board_wf b → on_board b l → (length l ≤ fuel)%nat →
  put_parts fuel b (fst <$> hd_error l) h = Ok (with_snake b l, h).
Proof.
  revert fuel b pv. induction l as [|e l IH]; intros fuel b pv Hc Hwf Hon Hfuel.
  - by destruct fuel.
  - destruct fuel as [|fuel]; [cbn in Hfuel; lia|].
    destruct Hc as [He Hc]. apply Forall_cons in Hon as [Hin Hon].
    cbn [hd_error fmap option_fmap option_map put_parts].
    erewrite bind_run by (apply deref_lookup; exact He). cbn [pos next].
    rewrite bind_lift, board_set_in by done. cbn [mbind result_bind rbind].
    rewrite with_snake_cons.
    apply (IH fuel _ (Some e.1)); [done|by apply paint_wf|done|cbn in Hfuel; lia].
Qed.

Lemma with_snake_dims (b : board_t) (l : list (loc * pos_t)) :
  width (with_snake b l) = width b ∧ height (with_snake b l) = height b.
Proof.
  revert b. induction l as [|e l IH]; intros b; [done|].
  rewrite with_snake_cons.
  destruct (IH (paint b e.2 DS_CHAR_SNAKE_BODY)) as [-> ->]. done.
Qed.

Lemma with_snake_wf (b : board_t) (l : list (loc * pos_t)) :
  board_wf b → board_wf (with_snake b l).
Proof.
  revert b. induction l as [|e l IH]; intros b Hwf; [done|].
  rewrite with_snake_cons. by apply IH, paint_wf.
Qed.

Lemma with_snake_get (b : board_t) (l : list (loc * pos_t)) (q : pos_t) :
  board_wf b → on_board b l → in_board b q →
  board_get (with_snake b l) (x q) (y q)
  = if decide (q ∈ l.*2) then Ok DS_CHAR_SNAKE_BODY else board_get b (x q) (y q).
Proof.
  revert b. induction l as [|e l IH]; intros b Hwf Hon Hq.
  - cbn. rewrite decide_False; [done|apply not_elem_of_nil].
  - apply Forall_cons in Hon as [Hin Hon]. rewrite with_snake_cons.
    cbn [fmap list_fmap].
    rewrite IH; [|by apply paint_wf|done|done].
    destruct (decide (q ∈ l.*2)) as [Hl|Hl].
    + rewrite decide_True; [done|]. apply elem_of_cons. by right.
    + destruct (decide (q = e.2)) as [->|Hne].
      * rewrite decide_True by (apply elem_of_cons; by left).
        by apply board_get_paint_same.
      * rewrite decide_False by (rewrite not_elem_of_cons; done).
        by apply board_get_paint_other.
Qed.

(** X6: ds_board_put_snake on a well-formed snake that lies on a
    well-formed board returns, leaves the heap as it is, marks the cell
    of every segment SnakeBody and changes no other cell. *)
Theorem put_snake_marks_segments (h : heap) (s : snake_t)
    (l : list (loc * pos_t)) (b : board_t) :
  snake_rep h s l →
  board_wf b →
  on_board b l →
  ∃ b',
    ds_board_put_snake b s h = Ok (b', h) ∧
    board_wf b' ∧ width b' = width b ∧ height b' = height b ∧
    shown b' l ∧
    (∀ q, in_board b q → q ∉ l.*2 →
       board_get b' (x q) (y q) = board_get b (x q) (y q)).
Proof.
  intros Hrep Hwf Hon. exists (with_snake b l).
  destruct Hrep as (Hnd & Hc & Hh & _).
  split.
  { unfold ds_board_put_snake. rewrite Hh.
    apply (put_parts_chain _ _ _ None); [done..|].
    pose proof (chain_size h None l Hnd Hc). lia. }
  split; [by apply with_snake_wf|].
  destruct (with_snake_dims b l) as [Hw Hh'].
  do 2 (split; [done|]). split.
  - unfold shown. apply Forall_forall. intros e He.
    rewrite with_snake_get; [|done|done|].
    + rewrite decide_True; [done|]. by apply list_elem_of_fmap_2.
    + unfold on_board in Hon. rewrite Forall_forall in Hon. by apply Hon.
  - intros q Hq Hnin. rewrite with_snake_get by done. by rewrite decide_False.
Qed.

Lemma put_snake_marks_segments_witness :
  snake_rep (line_heap 3) (line_snake 3) (line_segments 3) ∧
  board_wf small_board ∧
  on_board small_board (line_segments 3) ∧
  ∃ b',
    ds_board_put_snake small_board (line_snake 3) (line_heap 3)
    = Ok (b', line_heap 3) ∧
    shown b' (line_segments 3).
Proof.
  assert (snake_rep (line_heap 3) (line_snake 3) (line_segments 3)) as H1
    by by_evaluation.
  assert (board_wf small_board) as H2 by by_evaluation.
  assert (on_board small_board (line_segments 3)) as H3 by by_evaluation.
  do 3 (split; [assumption|]).
  destruct (put_snake_marks_segments _ _ _ _ H1 H2 H3)
    as (b' & Hrun & _ & _ & _ & Hshown & _).
  exists b'. split; [exact Hrun|exact Hshown].
Defined.

(** ** Moves *)

(** X7: ds_snake_move with a direction that is not one step along one
    axis fails its assert, whatever the snake and the board; with a valid
    direction it returns for every well-formed snake lying on a
    well-formed board. *)
Theorem move_aborts_on_bad_direction (h : heap) (s : snake_t)
    (l : list (loc * pos_t)) (b : board_t) (dx dy : Z) :
  (¬ valid_dir dx dy → ds_snake_move s b dx dy h = Err Abort) ∧
  (snake_rep h s l → board_wf b → on_board b l → valid_dir dx dy →
   ∃ r, ds_snake_move s b dx dy h = Ok r).
Proof.
  split.
  - intros Hbad. unfold ds_snake_move.
    rewrite bind_lift. destruct (valid_step dx) eqn:Hx; [|done]. cbn.
    rewrite bind_lift. destruct (valid_step dy) eqn:Hy; [|done]. cbn.
    rewrite bind_lift. destruct (negb _) eqn:Hxy; [|done].
    exfalso. apply Hbad. by apply valid_dir_asserts.
  - intros Hrep Hwf Hon Hdir.
    destruct (rep_head _ _ _ Hrep) as (hd & hq & nx & Hhd & _).
    destruct (move_returns h s l b dx dy hd hq Hrep Hhd Hwf Hon Hdir)
      as (s' & b' & h' & l' & Hmove & _).
    by eexists.
Qed.

Lemma move_aborts_on_bad_direction_witness :
  ¬ valid_dir 1 1 ∧
  snake_rep (line_heap 3) (line_snake 3) (line_segments 3) ∧
  board_wf small_board ∧ on_board small_board (line_segments 3) ∧
  valid_dir 1 0 ∧
  ds_snake_move (line_snake 3) small_board 1 1 (line_heap 3) = Err Abort ∧
  ∃ r, ds_snake_move (line_snake 3) small_board 1 0 (line_heap 3) = Ok r.
Proof.
  assert (¬ valid_dir 1 1) as H0 by (unfold valid_dir; lia).
  assert (snake_rep (line_heap 3) (line_snake 3) (line_segments 3)) as H1
    by by_evaluation.
  assert (board_wf small_board) as H2 by by_evaluation.
  assert (on_board small_board (line_segments 3)) as H3 by by_evaluation.
  assert (valid_dir 1 0) as H4 by by_evaluation.
  do 5 (split; [assumption|]).
  split.
  - exact (proj1 (move_aborts_on_bad_direction (line_heap 3) (line_snake 3)
                    (line_segments 3) small_board 1 1) H0).
  - exact (proj2 (move_aborts_on_bad_direction (line_heap 3) (line_snake 3)
                    (line_segments 3) small_board 1 0) H1 H2 H3 H4).
Defined.

Lemma owns_grown (h0 h : heap) (l : list (loc * pos_t)) (hd : loc)
    (hq np : pos_t) :
  chain h None l → hd_error l = Some (hd, hq) →
  owns h0 h l →
  owns h0 (grown h hd np) ((fresh (dom h), np) :: l).
Proof.
  intros Hc Hhd [Hout Hin].
  pose proof (chain_fresh _ _ _ Hc) as Hfresh.
  assert (hd ∈ l.*1) as Hhdin.
  { destruct l as [|e l']; [done|]. cbn in Hhd. simplify_eq.
    apply elem_of_cons. by left. }
  split.
  - intros q Hq. cbn in Hq. apply not_elem_of_cons in Hq as [Hqp Hql].
    unfold grown. rewrite lookup_alter_ne by (by intros ->).
    rewrite lookup_insert_ne by done. by apply Hout.
  - intros q Hq. cbn in Hq. apply elem_of_cons in Hq as [->|Hq]; [|by apply Hin].
    rewrite <- Hout by done. apply fresh_lookup.
Qed.

Lemma owns_trimmed (h0 h : heap) (l0 : list (loc * pos_t))
    (e t : loc * pos_t) :
  e.1 ≠ t.1 →
  owns h0 h (l0 ++ [e; t]) →
  owns h0 (trimmed h e.1 t.1) (l0 ++ [e]).
Proof.
  intros Hne [Hout Hin].
  assert (∀ q, q ∈ (l0 ++ [e; t]).*1 ↔ q ∈ (l0 ++ [e]).*1 ∨ q = t.1) as Hsplit.
  { intros q. rewrite !fmap_app, !elem_of_app. cbn.
    rewrite !elem_of_cons, elem_of_nil. tauto. }
  split.
  - intros q Hq. unfold trimmed.
    destruct (decide (q = t.1)) as [->|Hqt].
    + rewrite lookup_delete_eq. symmetry. apply Hin, Hsplit. by right.
    + rewrite lookup_delete_ne by done.
      rewrite lookup_alter_ne.
      * apply Hout. rewrite Hsplit. tauto.
      * intros Heq. apply Hq. rewrite <- Heq, fmap_app, elem_of_app. right.
        apply elem_of_cons. by left.
  - intros q Hq. apply Hin, Hsplit. by left.
Qed.

(* one move of a well-formed snake on its board: what the next move needs
   holds again *)
Lemma move_step (h0 h : heap) (s : snake_t) (l : list (loc * pos_t))
    (b : board_t) (dx dy : Z) :
  snake_rep h s l → board_wf b → on_board b l → valid_dir dx dy →
  owns h0 h l →
  ∃ s' b' h' l',
    ds_snake_move s b dx dy h = Ok ((s', b'), h') ∧
    snake_rep h' s' l' ∧ board_wf b' ∧ on_board b' l' ∧
    width b' = width b ∧ height b' = height b ∧
    len s' = Z.min (len s + 1) DS_FULL_GROWN_LEN ∧
    owns h0 h' l'.
Proof.
  intros Hrep Hwf Hon Hdir Hown.
  destruct (rep_head _ _ _ Hrep) as (hd & hq & nx & Hhd & _).
  pose proof (new_head_in_board b hq dx dy Hwf) as Hnp.
  pose proof Hrep as (_ & Hc & _ & _ & _ & Hrange).
  destruct (Z.ltb_spec (len s) DS_FULL_GROWN_LEN) as [Hshort|Hge].
  - destruct (move_grow h s l b dx dy hd hq Hrep Hhd Hwf Hdir Hshort)
      as [Hmove Hrep'].
    eexists _, _, _, _. split; [exact Hmove|]. split; [exact Hrep'|].
    split; [by apply paint_wf|]. split; [by apply Forall_cons|].
    do 2 (split; [done|]). split; [cbn; lia|].
    by eapply owns_grown.
  - assert (len s = DS_FULL_GROWN_LEN) as Hfull by lia.
    destruct (rep_full_split h s l Hrep Hfull) as (l0 & e & t & ->).
    pose proof (on_board_last b _ t Hon (last_two l0 e t)) as Htail.
    destruct (move_trim h s l0 e t b dx dy hd hq Hrep Hhd Hwf Htail Hdir Hfull)
      as [Hmove Hrep'].
    destruct (grown_tail h s l0 e t hd hq (new_head_pos b hq dx dy) Hrep Hhd)
      as (_ & _ & _ & Hne).
    eexists _, _, _, _. split; [exact Hmove|]. split; [exact Hrep'|].
    split; [by do 2 apply paint_wf|].
    split.
    { apply Forall_cons. split; [done|].
      rewrite <- (removelast_two l0 e t). by apply on_board_removelast. }
    do 2 (split; [done|]). split; [cbn; lia|].
    apply (owns_trimmed h0 _ ((fresh (dom h), new_head_pos b hq dx dy) :: l0));
      [done|].
    by eapply (owns_grown h0 h (l0 ++ [e; t])).
Qed.

Lemma valid_dirs_cons (d : Z * Z) (dirs : list (Z * Z)) :
  Forall (λ d, valid_dir d.1 d.2) (d :: dirs) →
  valid_dir d.1 d.2 ∧ Forall (λ d, valid_dir d.1 d.2) dirs.
Proof. intros Hd. by apply Forall_cons in Hd. Qed.

(* a run of moves *)
Lemma moves_run (h0 h : heap) (s : snake_t) (l : list (loc * pos_t))
    (b : board_t) (dirs : list (Z * Z)) :
  snake_rep h s l → board_wf b → on_board b l →
  Forall (λ d, valid_dir d.1 d.2) dirs →
  owns h0 h l →
  ∃ s' b' h' l',
    moves dirs s b h = Ok ((s', b'), h') ∧
    snake_rep h' s' l' ∧ board_wf b' ∧ on_board b' l' ∧
    width b' = width b ∧ height b' = height b ∧
    len s' = Z.min (len s + Z.of_nat (length dirs)) DS_FULL_GROWN_LEN ∧
    owns h0 h' l'.
Proof.
  revert h s l b. induction dirs as [|d dirs IH]; intros h s l b Hrep Hwf Hon Hdirs Hown.
  - exists s, b, h, l. split; [done|]. do 5 (split; [done|]).
    split; [|done]. destruct Hrep as (_ & _ & _ & _ & _ & Hrange). cbn. lia.
  - apply valid_dirs_cons in Hdirs as [Hd Hdirs].
    destruct (move_step h0 h s l b d.1 d.2 Hrep Hwf Hon Hd Hown)
      as (s1 & b1 & h1 & l1 & Hmove & Hrep1 & Hwf1 & Hon1 & Hw1 & Hh1 & Hlen1 & Hown1).
    destruct (IH h1 s1 l1 b1 Hrep1 Hwf1 Hon1 Hdirs Hown1)
      as (s' & b' & h' & l' & Hrun & Hrep' & Hwf' & Hon' & Hw' & Hh' & Hlen' & Hown').
    exists s', b', h', l'. split.
    { cbn [moves]. erewrite bind_run by exact Hmove. exact Hrun. }
    do 3 (split; [done|]). split; [congruence|]. split; [congruence|].
    split; [|done].
    destruct Hrep as (_ & _ & _ & _ & _ & Hrange).
    rewrite Hlen', Hlen1. cbn [length]. unfold DS_FULL_GROWN_LEN in *. lia.
Qed.

Lemma delete_all_lookup (k : list loc) (h : heap) (q : loc) :
  foldr delete h k !! q = if decide (q ∈ k) then None else h !! q.
Proof.
  induction k as [|a k IH]; cbn.
  - rewrite decide_False; [done|apply not_elem_of_nil].
  - destruct (decide (q = a)) as [->|Hne].
    + rewrite lookup_delete_eq, decide_True; [done|]. apply elem_of_cons. by left.
    + rewrite lookup_delete_ne, IH by done.
      destruct (decide (q ∈ k)) as [Hk|Hk].
      * rewrite decide_True; [done|]. apply elem_of_cons. by right.
      * rewrite decide_False; [done|]. by rewrite not_elem_of_cons.
Qed.

(* every heap is some heap and the parts of a given list *)
Lemma owns_some (h : heap) (l : list (loc * pos_t)) : ∃ h0, owns h0 h l.
Proof.
  exists (foldr delete h l.*1). split; intros q Hq; rewrite delete_all_lookup.
  - by rewrite decide_False.
  - by rewrite decide_True.
Qed.

(** X8: every run of moves in valid directions, from a well-formed snake
    lying on a well-formed board, returns; the snake is well formed and on
    the board again, the board keeps its dimensions, and the length is
    the old length plus the number of moves, capped at 15. *)
Theorem moves_grow_to_full_length (h : heap) (s : snake_t)
    (l : list (loc * pos_t)) (b : board_t) (dirs : list (Z * Z)) :
  snake_rep h s l →
  board_wf b →
  on_board b l →
  Forall (λ d, valid_dir d.1 d.2) dirs →
  ∃ s' b' h' l',
    moves dirs s b h = Ok ((s', b'), h') ∧
    snake_rep h' s' l' ∧ board_wf b' ∧ on_board b' l' ∧
    width b' = width b ∧ height b' = height b ∧
    len s' = Z.min (len s + Z.of_nat (length dirs)) DS_FULL_GROWN_LEN.
Proof.
  intros Hrep Hwf Hon Hdirs.
  destruct (owns_some h l) as [h0 Hown].
  destruct (moves_run _ h s l b dirs Hrep Hwf Hon Hdirs Hown)
    as (s' & b' & h' & l' & Hrun & Hrep' & Hwf' & Hon' & Hw' & Hh' & Hlen' & _).
  by exists s', b', h', l'.
Qed.

Lemma moves_grow_to_full_length_witness :
  snake_rep (line_heap 3) (line_snake 3) (line_segments 3) ∧
  board_wf small_board ∧
  on_board small_board (line_segments 3) ∧
  Forall (λ d, valid_dir d.1 d.2) [(1, 0); (0, -1)] ∧
  ∃ s' b' h',
    moves [(1, 0); (0, -1)] (line_snake 3) small_board (line_heap 3)
    = Ok ((s', b'), h') ∧
    len s' = 5.
Proof.
  assert (snake_rep (line_heap 3) (line_snake 3) (line_segments 3)) as H1
    by by_evaluation.
  assert (board_wf small_board) as H2 by by_evaluation.
  assert (on_board small_board (line_segments 3)) as H3 by by_evaluation.
  assert (Forall (λ d, valid_dir d.1 d.2) [(1, 0); (0, -1)]) as H4.
  { repeat (constructor; [unfold valid_dir; cbn; lia|]). constructor. }
  do 4 (split; [assumption|]).
  destruct (moves_grow_to_full_length _ _ _ _ _ H1 H2 H3 H4)
    as (s' & b' & h' & l' & Hrun & _ & _ & _ & _ & _ & Hlen).
  exists s', b', h'. split; [exact Hrun|]. rewrite Hlen. reflexivity.
Defined.

Lemma on_board_in (b : board_t) (l : list (loc * pos_t)) (e : loc * pos_t) :
  on_board b l → e ∈ l → in_board b e.2.
Proof. unfold on_board. rewrite Forall_forall. auto. Qed.

Lemma shown_paint_other (b : board_t) (l : list (loc * pos_t)) (q : pos_t)
    (c : ascii) :
  board_wf b → on_board b l → in_board b q → q ∉ l.*2 →
  shown b l → shown (paint b q c) l.
Proof.
  intros Hwf Hon Hq Hnin. unfold shown. rewrite !Forall_forall.
  intros Hshown e He. rewrite board_get_paint_other; [by apply Hshown|done|done| |].
  - by eapply on_board_in.
  - intros Heq. apply Hnin. rewrite <- Heq. by apply list_elem_of_fmap_2.
Qed.

(** X9: when the head of a snake that is shown on the board and nowhere
    crosses itself steps onto a cell that none of its segments is on, the
    move returns with the snake shown again and not crossing itself: the
    cells of its segments read SnakeBody, the cell the cut tail has left
    reads Floor, and every other cell is as before. *)
Theorem clear_step_keeps_snake_shown (h : heap) (s : snake_t)
    (l : list (loc * pos_t)) (b : board_t) (dx dy : Z) (hd : loc * pos_t) :
  snake_rep h s l →
  hd_error l = Some hd →
  board_wf b →
  on_board b l →
  shown b l →
  NoDup l.*2 →
  valid_dir dx dy →
  new_head_pos b hd.2 dx dy ∉ l.*2 →
  ∃ s' b' h' l',
    ds_snake_move s b dx dy h = Ok ((s', b'), h') ∧
    snake_rep h' s' l' ∧
    on_board b' l' ∧
    shown b' l' ∧
    NoDup l'.*2 ∧
    (∀ q, in_board b q → q ∉ l'.*2 →
       board_get b' (x q) (y q)
       = if decide (q ∈ l.*2) then Ok DS_CHAR_FLOOR else board_get b (x q) (y q)).
Proof.
  intros Hrep Hhd Hwf Hon Hshown Hnd Hdir Hclear.
  destruct hd as [hd hq]. cbn [snd] in Hclear.
  pose proof (new_head_in_board b hq dx dy Hwf) as Hnp.
  set (np := new_head_pos b hq dx dy) in *.
  pose proof (paint_wf b np DS_CHAR_SNAKE_BODY Hwf) as Hwf1.
  pose proof Hrep as (_ & _ & _ & _ & _ & Hrange).
  destruct (Z.ltb_spec (len s) DS_FULL_GROWN_LEN) as [Hshort|Hge].
  - destruct (move_grow h s l b dx dy hd hq Hrep Hhd Hwf Hdir Hshort)
      as [Hmove Hrep'].
    eexists _, _, _, _. split; [exact Hmove|]. split; [exact Hrep'|].
    split; [by apply Forall_cons|].
    split.
    { apply Forall_cons. split; [by apply board_get_paint_same|].
      by apply shown_paint_other. }
    split; [cbn; by apply NoDup_cons|].
    intros q Hq Hnin. cbn in Hnin. apply not_elem_of_cons in Hnin as [Hne Hnin].
    rewrite decide_False by done. by apply board_get_paint_other.
  - assert (len s = DS_FULL_GROWN_LEN) as Hfull by lia.
    destruct (rep_full_split h s l Hrep Hfull) as (l0 & e & t & ->).
    pose proof (on_board_last b _ t Hon (last_two l0 e t)) as Htail.
    destruct (move_trim h s l0 e t b dx dy hd hq Hrep Hhd Hwf Htail Hdir Hfull)
      as [Hmove Hrep'].
    fold np in Hmove, Hrep'.
    assert ((l0 ++ [e; t]).*2 = (l0 ++ [e]).*2 ++ [t.2]) as Hpos.
    { rewrite !fmap_app. cbn. by rewrite <- app_assoc. }
    rewrite Hpos in Hnd, Hclear.
    apply NoDup_app in Hnd as (Hnd0 & Hsep & _).
    assert (t.2 ∉ (l0 ++ [e]).*2) as Htnin.
    { intros Hin. apply (Hsep _ Hin). apply elem_of_cons. by left. }
    apply not_elem_of_app in Hclear as [Hclear Hnpt].
    assert (np ≠ t.2) as Hne.
    { intros Heq. apply Hnpt. rewrite Heq. apply elem_of_cons. by left. }
    assert (on_board b (l0 ++ [e])) as Hon0.
    { rewrite <- (removelast_two l0 e t). by apply on_board_removelast. }
    assert (shown b (l0 ++ [e])) as Hshown0.
    { unfold shown in *. rewrite Forall_forall in *. intros a Ha.
      apply Hshown. rewrite elem_of_app in *. destruct Ha as [Ha|Ha]; [by left|].
      right. apply elem_of_cons in Ha as [->|Ha]; [|by apply elem_of_nil in Ha].
      apply elem_of_cons. by left. }
    eexists _, _, _, _. split; [exact Hmove|]. split; [exact Hrep'|].
    split; [by apply Forall_cons|].
    split.
    { apply Forall_cons. split.
      - rewrite board_get_paint_other by done. by apply board_get_paint_same.
      - apply shown_paint_other; [done|done|done|done|].
        by apply shown_paint_other. }
    split; [cbn; by apply NoDup_cons|].
    intros q Hq Hnin. cbn in Hnin. apply not_elem_of_cons in Hnin as [Hqnp Hnin].
    rewrite Hpos. destruct (decide (q = t.2)) as [->|Hqt].
    + rewrite decide_True by (apply elem_of_app; right; apply elem_of_cons; by left).
      by apply board_get_paint_same.
    + rewrite decide_False.
      2:{ rewrite not_elem_of_app, not_elem_of_cons. split; [done|].
          split; [done|apply not_elem_of_nil]. }
      rewrite board_get_paint_other by done. by apply board_get_paint_other.
Qed.

Lemma clear_step_keeps_snake_shown_witness :
  snake_rep (line_heap 3) (line_snake 3) (line_segments 3) ∧
  hd_error (line_segments 3) = Some (3%positive, mk_pos 2 0) ∧
  board_wf (with_snake small_board (line_segments 3)) ∧
  on_board (with_snake small_board (line_segments 3)) (line_segments 3) ∧
  shown (with_snake small_board (line_segments 3)) (line_segments 3) ∧
  NoDup (line_segments 3).*2 ∧
  valid_dir 1 0 ∧
  (new_head_pos (with_snake small_board (line_segments 3)) (mk_pos 2 0) 1 0
     ∉ (line_segments 3).*2) ∧
  ∃ s' b' h' l',
    ds_snake_move (line_snake 3) (with_snake small_board (line_segments 3)) 1 0
                  (line_heap 3) = Ok ((s', b'), h') ∧
    shown b' l'.
Proof.
  assert (snake_rep (line_heap 3) (line_snake 3) (line_segments 3)) as H1
    by by_evaluation.
  assert (hd_error (line_segments 3) = Some (3%positive, mk_pos 2 0)) as H2
    by by_evaluation.
  assert (board_wf (with_snake small_board (line_segments 3))) as H3
    by by_evaluation.
  assert (on_board (with_snake small_board (line_segments 3)) (line_segments 3))
    as H4 by by_evaluation.
  assert (shown (with_snake small_board (line_segments 3)) (line_segments 3))
    as H5.
  { unfold shown. repeat (constructor; [vm_compute; reflexivity|]). constructor. }
  assert (NoDup (line_segments 3).*2) as H6.
  { apply (bool_decide_unpack _). vm_compute. exact I. }
  assert (valid_dir 1 0) as H7 by by_evaluation.
  assert (new_head_pos (with_snake small_board (line_segments 3)) (mk_pos 2 0) 1 0
            ∉ (line_segments 3).*2) as H8.
  { apply (bool_decide_unpack _). vm_compute. exact I. }
  do 8 (split; [assumption|]).
  destruct (clear_step_keeps_snake_shown _ _ _ _ _ _ (3%positive, mk_pos 2 0)
              H1 H2 H3 H4 H5 H6 H7 H8)
    as (s' & b' & h' & l' & Hmove & _ & _ & Hshown & _).
  exists s', b', h', l'. split; [exact Hmove|exact Hshown].
Defined.

(** X10: creating a snake on the board, moving it any number of times in
    valid directions and destroying it returns and leaves the heap exactly
    as it was before the creation: every part the moves allocate is freed
    by a cut or by ds_snake_destroy, and no other part is touched. *)
Theorem create_move_destroy_restores_heap (px py : Z) (b : board_t)
    (dirs : list (Z * Z)) (h0 : heap) :
  board_wf b →
  in_board b (mk_pos px py) →
  Forall (λ d, valid_dir d.1 d.2) dirs →
  (s ← ds_snake_create px py;
   moved ← moves dirs s b;
   ds_snake_destroy moved.1) h0 = Ok (tt, h0).
Proof.
  intros Hwf [Hx Hy] Hdirs. cbn in Hx, Hy.
  destruct (board_wf_dims b Hwf) as [Hw Hh].
  erewrite bind_run by apply ds_snake_create_eq.
  rewrite !to_size_t_small by (unfold PTRDIFF_MAX, SIZE_MOD in *; lia).
  pose proof (rep_created px py h0) as Hrep.
  rewrite !to_size_t_small in Hrep by (unfold PTRDIFF_MAX, SIZE_MOD in *; lia).
  assert (owns h0 (<[fresh (dom h0) := mk_part (mk_pos px py) None None]> h0)
               [(fresh (dom h0), mk_pos px py)]) as Hown.
  { split; intros q Hq; cbn in Hq.
    - apply lookup_insert_ne. intros Heq. apply Hq. rewrite Heq.
      apply elem_of_cons. by left.
    - apply elem_of_cons in Hq as [->|Hq]; [apply fresh_lookup|].
      by apply elem_of_nil in Hq. }
  assert (on_board b [(fresh (dom h0), mk_pos px py)]) as Hon.
  { constructor; [by split|constructor]. }
  destruct (moves_run h0 _ _ _ b dirs Hrep Hwf Hon Hdirs Hown)
    as (s' & b' & h' & l' & Hrun & Hrep' & _ & _ & _ & _ & _ & Hown').
  erewrite bind_run by exact Hrun. cbn [fst].
  destruct (ds_snake_destroy_rep h' s' l' Hrep') as (h'' & Hdestroy & Hfreed).
  rewrite Hdestroy. do 2 f_equal. by eapply destroy_gives_back.
Qed.

Lemma create_move_destroy_restores_heap_witness :
  board_wf small_board ∧
  in_board small_board (mk_pos 5 2) ∧
  Forall (λ d, valid_dir d.1 d.2) [(0, -1); (1, 0)] ∧
  (s ← ds_snake_create 5 2;
   moved ← moves [(0, -1); (1, 0)] s small_board;
   ds_snake_destroy moved.1) (line_heap 3) = Ok (tt, line_heap 3).
Proof.
  assert (board_wf small_board) as H1 by by_evaluation.
  assert (in_board small_board (mk_pos 5 2)) as H2 by by_evaluation.
  assert (Forall (λ d, valid_dir d.1 d.2) [(0, -1); (1, 0)]) as H3.
  { repeat (constructor; [unfold valid_dir; cbn; lia|]). constructor. }
  do 3 (split; [assumption|]).
  exact (create_move_destroy_restores_heap 5 2 small_board _ (line_heap 3) H1 H2 H3).
Defined.

(** ** Printing the board *)

(** X11: a well-formed board whose grid holds no NUL and is followed by
    the terminator prints as exactly width * height characters, row after
    row: the character number y * width + x is the cell (x, y). *)
Theorem print_shows_every_cell (b : board_t) :
  board_wf b →
  printable b →
  ∃ grid,
    ds_board_print b = Ok grid ∧
    Z.of_nat (length grid) = width b * height b ∧
    ∀ q, in_board b q →
      ∃ c, grid !! cell_index b q = Some c ∧ board_get b (x q) (y q) = Ok c.
Proof.
  intros Hwf Hpr. eexists. split; [by apply print_printable|].
  pose proof Hwf as (Hw & Hh & Hfit & Hlen & _).
  split; [rewrite length_take; nia|].
  intros q Hq. pose proof (cell_index_lt b q Hwf Hq) as Hi.
  destruct (board_get_in b q Hwf Hq) as (c & Hc & Hget).
  exists c. split; [|done].
  rewrite lookup_take_lt; [done|]. unfold cell_index. lia.
Qed.

Lemma print_shows_every_cell_witness :
  board_wf small_board ∧ printable small_board ∧
  ∃ grid, ds_board_print small_board = Ok grid ∧ Z.of_nat (length grid) = 50.
Proof.
  assert (board_wf small_board) as H1 by by_evaluation.
  assert (printable small_board) as H2 by (by apply fresh_board_printable).
  do 2 (split; [assumption|]).
  destruct (print_shows_every_cell small_board H1 H2) as (grid & Hprint & Hlen & _).
  exists grid. split; [exact Hprint|exact Hlen].
Defined.

Lemma printable_paint (b : board_t) (q : pos_t) (c : ascii) :
  board_wf b → in_board b q → c ≠ NUL →
  printable b → printable (paint b q c).
Proof.
  intros Hwf Hq Hc [Hend Hcells].
  pose proof (cell_index_lt b q Hwf Hq) as Hi.
  split; cbn [paint text width height].
  - rewrite list_lookup_insert_ne; [done|]. unfold cell_index. lia.
  - intros i a Hlt Ha.
    destruct (decide (cell_index b q = i)) as [<-|Hne].
    + rewrite list_lookup_insert_eq in Ha; [by simplify_eq|].
      destruct Hwf as (_ & _ & _ & Hlen & _). unfold cell_index. lia.
    + rewrite list_lookup_insert_ne in Ha by done. by eapply Hcells.
Qed.

(** X12: a move never writes a NUL into the grid nor over the terminator:
    when the board prints completely before a move of a well-formed snake
    lying on it, the move returns a well-formed board that prints
    completely again. *)
Theorem move_keeps_board_printable (h : heap) (s : snake_t)
    (l : list (loc * pos_t)) (b : board_t) (dx dy : Z) :
  snake_rep h s l →
  board_wf b →
  on_board b l →
  valid_dir dx dy →
  printable b →
  ∃ s' b' h' grid,
    ds_snake_move s b dx dy h = Ok ((s', b'), h') ∧
    board_wf b' ∧ printable b' ∧
    ds_board_print b' = Ok grid ∧
    Z.of_nat (length grid) = width b * height b.
Proof.
  intros Hrep Hwf Hon Hdir Hpr.
  destruct (rep_head _ _ _ Hrep) as (hd & hq & nx & Hhd & _).
  pose proof (new_head_in_board b hq dx dy Hwf) as Hnp.
  pose proof Hrep as (_ & _ & _ & _ & _ & Hrange).
  assert (printable (paint b (new_head_pos b hq dx dy) DS_CHAR_SNAKE_BODY)) as Hpr1
    by (by apply printable_paint).
  pose proof (paint_wf b (new_head_pos b hq dx dy) DS_CHAR_SNAKE_BODY Hwf) as Hwf1.
  assert (∃ s' b' h', ds_snake_move s b dx dy h = Ok ((s', b'), h') ∧
            board_wf b' ∧ printable b' ∧
            width b' = width b ∧ height b' = height b)
    as (s' & b' & h' & Hmove & Hwf' & Hpr' & Hw' & Hh').
  { destruct (Z.ltb_spec (len s) DS_FULL_GROWN_LEN) as [Hshort|Hge].
    - destruct (move_grow h s l b dx dy hd hq Hrep Hhd Hwf Hdir Hshort)
        as [Hmove _].
      by eexists _, _, _.
    - assert (len s = DS_FULL_GROWN_LEN) as Hfull by lia.
      destruct (rep_full_split h s l Hrep Hfull) as (l0 & e & t & ->).
      pose proof (on_board_last b _ t Hon (last_two l0 e t)) as Htail.
      destruct (move_trim h s l0 e t b dx dy hd hq Hrep Hhd Hwf Htail Hdir Hfull)
        as [Hmove _].
      eexists _, _, _. split; [exact Hmove|].
      split; [by apply paint_wf|]. split; [by apply printable_paint|]. done. }
  pose proof (print_printable b' Hwf' Hpr') as Hprint.
  eexists s', b', h', _. split; [exact Hmove|]. do 2 (split; [done|]).
  split; [exact Hprint|].
  destruct Hwf' as (Hw & Hh & Hfit & Hlen & _).
  rewrite length_take, <- Hw', <- Hh'. nia.
Qed.

Lemma move_keeps_board_printable_witness :
  snake_rep (line_heap 3) (line_snake 3) (line_segments 3) ∧
  board_wf small_board ∧
  on_board small_board (line_segments 3) ∧
  valid_dir 1 0 ∧
  printable small_board ∧
  ∃ s' b' h' grid,
    ds_snake_move (line_snake 3) small_board 1 0 (line_heap 3)
    = Ok ((s', b'), h') ∧
    ds_board_print b' = Ok grid ∧
    Z.of_nat (length grid) = 50.
Proof.
  assert (snake_rep (line_heap 3) (line_snake 3) (line_segments 3)) as H1
    by by_evaluation.
  assert (board_wf small_board) as H2 by by_evaluation.
  assert (on_board small_board (line_segments 3)) as H3 by by_evaluation.
  assert (valid_dir 1 0) as H4 by by_evaluation.
  assert (printable small_board) as H5 by (by apply fresh_board_printable).
  do 5 (split; [assumption|]).
  destruct (move_keeps_board_printable _ _ _ _ _ _ H1 H2 H3 H4 H5)
    as (s' & b' & h' & grid & Hmove & _ & _ & Hprint & Hlen).
  exists s', b', h', grid. split; [exact Hmove|]. split; [exact Hprint|exact Hlen].
Defined.

(** ** Timing *)

Lemma long_of_in_range (z : Z) :
  LONG_MIN ≤ z ≤ LONG_MAX → long_of z = Ok z.
Proof.
  intros Hz. unfold long_of.
  destruct (Z.leb_spec LONG_MIN z); [|lia].
  destruct (Z.leb_spec z LONG_MAX); [done|lia].
Qed.

Lemma long_of_overflow (z : Z) :
  LONG_MAX < z → long_of z = Err Undefined.
Proof.
  intros Hz. unfold long_of.
  destruct (Z.leb_spec z LONG_MAX); [lia|]. by rewrite andb_false_r.
Qed.

Lemma ds_nano_diff_exact (before after : timespec) :
  clock_range before → clock_range after →
  ds_nano_diff before after
  = Ok (10 ^ 9 * (tv_sec after - tv_sec before) + (tv_nsec after - tv_nsec before)).
Proof.
  intros [Hsb Hnb] [Hsa Hna]. unfold ds_nano_diff, long_mul, long_add, long_sub.
  change (1000 * 1000 * 1000) with (10 ^ 9).
  assert (10 ^ 9 = 1000000000) as Hpow by done.
  rewrite (long_of_in_range (10 ^ 9 * tv_sec before))
    by (unfold LONG_MIN, LONG_MAX; lia). cbn.
  rewrite (long_of_in_range (tv_nsec before + _))
    by (unfold LONG_MIN, LONG_MAX; lia). cbn.
  rewrite (long_of_in_range (10 ^ 9 * tv_sec after))
    by (unfold LONG_MIN, LONG_MAX; lia). cbn.
  rewrite (long_of_in_range (tv_nsec after + _))
    by (unfold LONG_MIN, LONG_MAX; lia). cbn.
  rewrite long_of_in_range by (unfold LONG_MIN, LONG_MAX; lia).
  f_equal. lia.
Qed.

(** X13: for timestamps in the range of the process clock (whole seconds
    up to 9 * 10^9, nanoseconds below 10^9) ds_nano_diff returns the exact
    number of nanoseconds from [before] to [after]; it is not negative
    exactly when [before] is not later than [after], and swapping the
    arguments negates it.  With a seconds field above LONG_MAX / 10^9 the
    multiplication overflows. *)
Theorem nano_diff_exact (before after : timespec) :
  (clock_range before → clock_range after →
   ∃ d,
     ds_nano_diff before after = Ok d ∧
     d = 10 ^ 9 * (tv_sec after - tv_sec before)
         + (tv_nsec after - tv_nsec before) ∧
     (0 ≤ d ↔ tv_sec before < tv_sec after ∨
              (tv_sec before = tv_sec after ∧ tv_nsec before ≤ tv_nsec after)) ∧
     ds_nano_diff after before = Ok (- d)) ∧
  (LONG_MAX `div` 10 ^ 9 < tv_sec before →
   ds_nano_diff before after = Err Undefined).
Proof.
  split.
  - intros Hb Ha. eexists. split; [by apply ds_nano_diff_exact|].
    split; [done|]. destruct Hb as [Hsb Hnb], Ha as [Hsa Hna].
    assert (10 ^ 9 = 1000000000) as Hpow by done.
    split; [lia|].
    rewrite ds_nano_diff_exact by done. f_equal. lia.
  - intros Hbig. unfold ds_nano_diff, long_mul.
    change (1000 * 1000 * 1000) with (10 ^ 9).
    rewrite (long_of_overflow (10 ^ 9 * tv_sec before)); [reflexivity|].
    assert (LONG_MAX `div` 10 ^ 9 = 9223372036) as Hq by (vm_compute; reflexivity).
    unfold LONG_MAX in *. assert (10 ^ 9 = 1000000000) as Hpow by done. lia.
Qed.

Lemma nano_diff_exact_witness :
  clock_range (mk_timespec 1 999999000) ∧ clock_range (mk_timespec 2 500) ∧
  ds_nano_diff (mk_timespec 1 999999000) (mk_timespec 2 500) = Ok 1500 ∧
  LONG_MAX `div` 10 ^ 9 < tv_sec (mk_timespec 9223372037 0) ∧
  ds_nano_diff (mk_timespec 9223372037 0) (mk_timespec 2 500) = Err Undefined.
Proof.
  assert (clock_range (mk_timespec 1 999999000)) as H1
    by (unfold clock_range; cbn; lia).
  assert (clock_range (mk_timespec 2 500)) as H2
    by (unfold clock_range; cbn; lia).
  assert (LONG_MAX `div` 10 ^ 9 < tv_sec (mk_timespec 9223372037 0)) as H3
    by by_evaluation.
  split; [assumption|]. split; [assumption|].
  split.
  - destruct (proj1 (nano_diff_exact (mk_timespec 1 999999000) (mk_timespec 2 500))
                H1 H2) as (d & Hd & Hval & _).
    rewrite Hd, Hval. reflexivity.
  - split; [assumption|].
    exact (proj2 (nano_diff_exact (mk_timespec 9223372037 0) (mk_timespec 2 500)) H3).
Defined.

(** X14: when the clock has not gone back since the last pass, the loop
    sleeps exactly when fewer than 50 ms have passed, and then for the
    rest of the 50 ms: the delay has zero seconds and 50000000 minus the
    nanoseconds passed as nanoseconds.  The new prev_timestamp is the
    timestamp just read. *)
Theorem rhythm_sleeps_the_rest (prev_timestamp timestamp : timespec) :
  clock_range prev_timestamp →
  clock_range timestamp →
  (tv_sec prev_timestamp < tv_sec timestamp ∨
   (tv_sec prev_timestamp = tv_sec timestamp ∧
    tv_nsec prev_timestamp ≤ tv_nsec timestamp)) →
  ∃ passed,
    ds_nano_diff prev_timestamp timestamp = Ok passed ∧
    0 ≤ passed ∧
    apply_rhythm prev_timestamp timestamp
    = Ok (if passed <? 50000000
          then Some (mk_timespec 0 (50000000 - passed))
          else None,
          timestamp).
Proof.
  intros Hp Ht Horder.
  pose proof (ds_nano_diff_exact _ _ Hp Ht) as Hdiff.
  eexists. split; [exact Hdiff|].
  destruct Hp as [Hsp Hnp], Ht as [Hst Hnt].
  change (10 ^ 9) with 1000000000 in *.
  set (passed := 1000000000 * (tv_sec timestamp - tv_sec prev_timestamp)
                 + (tv_nsec timestamp - tv_nsec prev_timestamp)) in *.
  assert (0 ≤ passed ≤ 9000000001000000000) as Hrange by (unfold passed; lia).
  split; [lia|].
  unfold apply_rhythm. rewrite Hdiff. cbn [mbind result_bind rbind].
  unfold long_sub, long_mul, DS_DELAY_MILLIS.
  change (50 * 1000 * 1000) with 50000000.
  change (1000 * 1000 * 1000) with 1000000000.
  rewrite long_of_in_range by (unfold LONG_MIN, LONG_MAX; lia).
  cbn [mbind result_bind rbind].
  destruct (Z.ltb_spec 0 (50000000 - passed)) as [Hpos|Hneg];
    destruct (Z.ltb_spec passed 50000000) as [Hlt|Hge]; try lia; [|done].
  assert ((50000000 - passed) ÷ 1000000000 = 0) as ->.
  { apply Z.quot_small. lia. }
  rewrite long_of_in_range by (unfold LONG_MIN, LONG_MAX; lia).
  cbn [mbind result_bind rbind].
  rewrite long_of_in_range by (unfold LONG_MIN, LONG_MAX; lia).
  cbn [mbind result_bind rbind].
  by rewrite Z.mul_0_r, Z.sub_0_r.
Qed.

Lemma rhythm_sleeps_the_rest_witness :
  clock_range (mk_timespec 1 999999000) ∧ clock_range (mk_timespec 2 500) ∧
  (tv_sec (mk_timespec 1 999999000) < tv_sec (mk_timespec 2 500) ∨
   (tv_sec (mk_timespec 1 999999000) = tv_sec (mk_timespec 2 500) ∧
    tv_nsec (mk_timespec 1 999999000) ≤ tv_nsec (mk_timespec 2 500))) ∧
  apply_rhythm (mk_timespec 1 999999000) (mk_timespec 2 500)
  = Ok (Some (mk_timespec 0 49998500), mk_timespec 2 500).
Proof.
  assert (clock_range (mk_timespec 1 999999000)) as H1
    by (unfold clock_range; cbn; lia).
  assert (clock_range (mk_timespec 2 500)) as H2
    by (unfold clock_range; cbn; lia).
  assert (tv_sec (mk_timespec 1 999999000) < tv_sec (mk_timespec 2 500) ∨
          (tv_sec (mk_timespec 1 999999000) = tv_sec (mk_timespec 2 500) ∧
           tv_nsec (mk_timespec 1 999999000) ≤ tv_nsec (mk_timespec 2 500))) as H3
    by (left; cbn; lia).
  do 3 (split; [assumption|]).
  destruct (rhythm_sleeps_the_rest _ _ H1 H2 H3) as (passed & Hd & _ & Hrun).
  assert (passed = 1500) as -> by (vm_compute in Hd; congruence).
  exact Hrun.
Defined.

(** ** Keys and the state of the game *)

Section MoreKeys.

Context `{keys : curses_keys}.

(* a key changes at most the direction and the two flags *)
Lemma handle_key_frame (key : Z) (g : game_t) :
  board (handle_key key g) = board g ∧
  snake (handle_key key g) = snake g ∧
  prev_COLS (handle_key key g) = prev_COLS g ∧
  prev_LINES (handle_key key g) = prev_LINES g ∧
  (valid_dir (dx g) (dy g) → valid_dir (dx (handle_key key g)) (dy (handle_key key g))).
Proof.
  unfold handle_key.
  repeat match goal with
         | |- context [if ?c then _ else _] => destruct c
         end; cbn; repeat split; try done; intros _; unfold valid_dir; lia.
Qed.

Lemma key_loop_frame (pending : list Z) (prev_key : Z) (g : game_t) :
  board (key_loop pending prev_key g).1 = board g ∧
  snake (key_loop pending prev_key g).1 = snake g ∧
  prev_COLS (key_loop pending prev_key g).1 = prev_COLS g ∧
  prev_LINES (key_loop pending prev_key g).1 = prev_LINES g ∧
  (valid_dir (dx g) (dy g) →
   valid_dir (dx (key_loop pending prev_key g).1) (dy (key_loop pending prev_key g).1)).
Proof.
  revert prev_key g. induction pending as [|key rest IH]; intros prev_key g.
  - cbn. by destruct (quit g).
  - cbn [key_loop]. destruct (quit g); [done|].
    destruct (key =? -1); [done|].
    destruct (key =? prev_key); [apply IH|].
    destruct (IH key (handle_key key g)) as (Hb & Hs & Hc & Hl & Hd).
    destruct (handle_key_frame key g) as (Hb1 & Hs1 & Hc1 & Hl1 & Hd1).
    repeat split; try congruence. auto.
Qed.

(** X15: whatever keys are pending, handling them changes neither the
    board nor the snake nor the stored dimensions, and a direction that is
    one step along one axis stays one: the keys never make the snake
    stand still or move diagonally. *)
Theorem keys_keep_direction_valid (pending : list Z) (g : game_t) :
  valid_dir (dx g) (dy g) →
  valid_dir (dx (handle_keys pending g).1) (dy (handle_keys pending g).1) ∧
  board (handle_keys pending g).1 = board g ∧
  snake (handle_keys pending g).1 = snake g ∧
  prev_COLS (handle_keys pending g).1 = prev_COLS g ∧
  prev_LINES (handle_keys pending g).1 = prev_LINES g.
Proof.
  intros Hdir. unfold handle_keys.
  destruct (key_loop_frame pending (-1) g) as (Hb & Hs & Hc & Hl & Hd).
  auto.
Qed.

Lemma handle_key_keeps_quit (key : Z) (g : game_t) :
  key ≠ char_code "q" → quit (handle_key key g) = quit g.
Proof.
  intros Hkey. unfold handle_key.
  destruct (Z.eqb_spec key (char_code "q")); [done|].
  repeat match goal with
         | |- context [if ?c then _ else _] => destruct c
         end; done.
Qed.

(* the loop over [pre ++ post] when no key of [pre] quits *)
Lemma key_loop_app (pre post : list Z) (prev_key : Z) (g : game_t) :
  -1 ∉ pre → char_code "q" ∉ pre → quit g = false →
  quit (key_loop pre prev_key g).1 = false ∧
  key_loop (pre ++ post) prev_key g
  = key_loop post (last_key prev_key pre) (key_loop pre prev_key g).1.
Proof.
  revert prev_key g. induction pre as [|key pre IH]; intros prev_key g Hno Hnq Hq.
  - cbn [key_loop app]. rewrite Hq. cbn [fst]. split; [exact Hq|reflexivity].
  - apply not_elem_of_cons in Hno as [Hk1 Hno].
    apply not_elem_of_cons in Hnq as [Hk2 Hnq].
    cbn [app key_loop]. rewrite Hq.
    destruct (Z.eqb_spec key (-1)); [done|].
    assert (∀ p, last_key p (key :: pre) = last_key key pre) as Hlast.
    { intros p. unfold last_key. destruct pre as [|z pre']; [reflexivity|].
      change (last (key :: z :: pre')) with (last (z :: pre')).
      destruct (last (z :: pre')) eqn:Hl; [reflexivity|].
      by apply last_None in Hl. }
    destruct (Z.eqb_spec key prev_key) as [->|Hne].
    + rewrite Hlast. by apply IH.
    + rewrite Hlast. apply IH; [done|done|].
      rewrite handle_key_keeps_quit by done. done.
Qed.

(** X16: the quit key ends the drain at once.  When the keys before the
    first 'q' are handled, 'q' sets quit and the keys that follow it
    are not read: they stay pending and have no effect. *)
Theorem quit_key_ends_drain (pre rest : list Z) (g : game_t) :
  -1 ∉ pre →
  char_code "q" ∉ pre →
  quit g = false →
  handle_keys (pre ++ char_code "q" :: rest) g
  = (handle_key (char_code "q") (handle_keys pre g).1, rest) ∧
  quit (handle_keys (pre ++ char_code "q" :: rest) g).1 = true.
Proof.
  intros Hno Hnq Hq. unfold handle_keys.
  destruct (key_loop_app pre (char_code "q" :: rest) (-1) g Hno Hnq Hq)
    as [Hq1 Happ].
  assert (key_loop (char_code "q" :: rest) (last_key (-1) pre)
                   (key_loop pre (-1) g).1
          = (handle_key (char_code "q") (key_loop pre (-1) g).1, rest)) as Hend.
  { cbn [key_loop]. rewrite Hq1.
    destruct (Z.eqb_spec (char_code "q") (-1)) as [Habs|_]; [done|].
    destruct (Z.eqb_spec (char_code "q") (last_key (-1) pre)) as [Heq|_].
    - exfalso. unfold last_key in Heq.
      destruct (last pre) as [k|] eqn:Hl; [|done]. cbn in Heq. subst k.
      apply Hnq. rewrite last_lookup in Hl. by eapply list_elem_of_lookup_2.
    - assert (quit (handle_key (char_code "q") (key_loop pre (-1) g).1) = true)
        as Hset by (unfold handle_key; by rewrite Z.eqb_refl).
      destruct rest; cbn [key_loop]; by rewrite Hset. }
  rewrite Happ, Hend. split; [done|].
  cbn. unfold handle_key. by rewrite Z.eqb_refl.
Qed.

(* a drain of one key repeated *)
Lemma drain_repeated (key : Z) (n : nat) (g : game_t) :
  key ≠ -1 → quit g = false →
  (handle_keys (replicate (S n) key) g).1 = handle_key key g.
Proof.
  intros Hkey Hq. unfold handle_keys. cbn [replicate key_loop].
  rewrite Hq. destruct (Z.eqb_spec key (-1)); [done|].
  by apply key_loop_repeated.
Qed.

Lemma handle_pause (g : game_t) :
  handle_key (char_code "p") g
  = mk_game (prev_COLS g) (prev_LINES g) (board g) (snake g) (dx g) (dy g)
            (quit g) (negb (paused g)).
Proof. reflexivity. Qed.

(** X17: the pause key in two drains, one after the other, gives back
    the game as it was; twice in the same drain it is a repeated key and
    is registered once, so the game is paused when it was running and
    runs when it was paused. *)
Theorem pause_key_toggles (g : game_t) :
  quit g = false →
  (handle_keys [char_code "p"] (handle_keys [char_code "p"] g).1).1 = g ∧
  paused (handle_keys [char_code "p"; char_code "p"] g).1 = negb (paused g) ∧
  paused (handle_keys [char_code "p"] g).1 = negb (paused g).
Proof.
  intros Hq.
  assert (char_code "p" ≠ -1) as Hp by done.
  pose proof (drain_repeated (char_code "p") 0 g Hp Hq) as H1.
  pose proof (drain_repeated (char_code "p") 1 g Hp Hq) as H2.
  cbn [replicate] in H1, H2. rewrite H2, H1.
  split; [|by rewrite handle_pause].
  pose proof (drain_repeated (char_code "p") 0 (handle_key (char_code "p") g) Hp)
    as H3.
  cbn [replicate] in H3. rewrite H3 by (by rewrite handle_pause).
  rewrite !handle_pause. cbn. rewrite negb_involutive. by destruct g.
Qed.

(* handling the pending keys changes at most the direction and the flags *)
Lemma keys_frame (pending : list Z) (g : game_t) :
  board (handle_keys pending g).1 = board g ∧
  snake (handle_keys pending g).1 = snake g ∧
  prev_COLS (handle_keys pending g).1 = prev_COLS g ∧
  prev_LINES (handle_keys pending g).1 = prev_LINES g ∧
  (valid_dir (dx g) (dy g) →
   valid_dir (dx (handle_keys pending g).1) (dy (handle_keys pending g).1)).
Proof. apply key_loop_frame. Qed.

End MoreKeys.

Lemma quit_key_ends_drain_witness :
  (-1 ∉ [KEY_UP]) ∧ (char_code "q" ∉ [KEY_UP]) ∧ quit right_game = false ∧
  handle_keys ([KEY_UP] ++ char_code "q" :: [KEY_LEFT; char_code "p"]) right_game
  = (handle_key (char_code "q") (handle_keys [KEY_UP] right_game).1,
     [KEY_LEFT; char_code "p"]).
Proof.
  assert (-1 ∉ [KEY_UP]) as H1.
  { apply (bool_decide_unpack _). vm_compute. exact I. }
  assert (char_code "q" ∉ [KEY_UP]) as H2.
  { apply (bool_decide_unpack _). vm_compute. exact I. }
  assert (quit right_game = false) as H3 by reflexivity.
  do 3 (split; [assumption|]).
  exact (proj1 (quit_key_ends_drain [KEY_UP] [KEY_LEFT; char_code "p"]
                  right_game H1 H2 H3)).
Defined.

Lemma pause_key_toggles_witness :
  quit right_game = false ∧
  (handle_keys [char_code "p"] (handle_keys [char_code "p"] right_game).1).1
  = right_game ∧
  paused (handle_keys [char_code "p"; char_code "p"] right_game).1 = true.
Proof.
  assert (quit right_game = false) as H1 by reflexivity.
  split; [assumption|].
  destruct (pause_key_toggles right_game H1) as (Hback & Hsame & _).
  split; [exact Hback|]. rewrite Hsame. reflexivity.
Defined.

(** ** The game *)

Lemma good_dims_facts (cols lines : Z) :
  good_dims cols lines →
  to_size_t cols = cols ∧ to_size_t lines = lines ∧
  to_size_t (cols ÷ 2) = cols ÷ 2 ∧ to_size_t (lines ÷ 2) = lines ÷ 2 ∧
  0 ≤ cols ÷ 2 < cols ∧ 0 ≤ lines ÷ 2 < lines ∧
  cols * lines < PTRDIFF_MAX ∧ sizeof_ptr * lines ≤ PTRDIFF_MAX.
Proof.
  intros [HC HL]. unfold INT_MAX in *.
  assert (0 ≤ cols ÷ 2 < cols) as HC2.
  { rewrite Z.quot_div_nonneg by lia. split; [apply Z.div_pos; lia|].
    apply Z.div_lt; lia. }
  assert (0 ≤ lines ÷ 2 < lines) as HL2.
  { rewrite Z.quot_div_nonneg by lia. split; [apply Z.div_pos; lia|].
    apply Z.div_lt; lia. }
  repeat split; try lia;
    try (apply to_size_t_small; unfold SIZE_MOD; lia);
    unfold PTRDIFF_MAX, sizeof_ptr; nia.
Qed.

(* the board and the centre of a terminal of good dimensions *)
Lemma fresh_board_centre (cols lines : Z) :
  good_dims cols lines →
  ds_board_create cols lines
  = Ok (mk_board (fresh_text cols lines) (row_offsets cols lines) lines cols) ∧
  board_wf (mk_board (fresh_text cols lines) (row_offsets cols lines) lines cols) ∧
  in_board (mk_board (fresh_text cols lines) (row_offsets cols lines) lines cols)
           (mk_pos (cols ÷ 2) (lines ÷ 2)).
Proof.
  intros Hgood. pose proof Hgood as [HC HL].
  destruct (good_dims_facts cols lines Hgood)
    as (_ & _ & _ & _ & HC2 & HL2 & Hfit & Hrows).
  split; [apply ds_board_create_ok; lia|].
  split; [apply fresh_board_wf; lia|]. by split.
Qed.

(* a fresh snake in a heap that is [h0] *)
Lemma created_owns (h0 : heap) (q : pos_t) :
  owns h0 (<[fresh (dom h0) := mk_part q None None]> h0) [(fresh (dom h0), q)].
Proof.
  split; intros p Hp; cbn in Hp.
  - apply lookup_insert_ne. intros Heq. apply Hp. rewrite Heq.
    apply elem_of_cons. by left.
  - apply elem_of_cons in Hp as [->|Hp]; [apply fresh_lookup|].
    by apply elem_of_nil in Hp.
Qed.

(* Reset on window size change, when the size has changed *)
Lemma reset_on_resize_changed (h0 h : heap) (l : list (loc * pos_t))
    (cols lines : Z) (g : game_t) :
  snake_rep h (snake g) l → owns h0 h l →
  good_dims cols lines →
  cols ≠ prev_COLS g ∨ lines ≠ prev_LINES g →
  reset_on_resize cols lines g h
  = Ok (mk_game cols lines
                (mk_board (fresh_text cols lines) (row_offsets cols lines) lines cols)
                (mk_snake 1 (Some (fresh (dom h0))) (Some (fresh (dom h0))))
                (dx g) (dy g) (quit g) (paused g),
        <[fresh (dom h0) := mk_part (mk_pos (cols ÷ 2) (lines ÷ 2)) None None]> h0).
Proof.
  intros Hrep Hown Hgood Hchanged.
  destruct (good_dims_facts cols lines Hgood)
    as (HtC & HtL & HtC2 & HtL2 & _ & _ & _ & _).
  destruct (fresh_board_centre cols lines Hgood) as (Hboard & _ & _).
  destruct (ds_snake_destroy_rep h (snake g) l Hrep) as (h1 & Hdestroy & Hfreed).
  assert (h1 = h0) as -> by (by eapply destroy_gives_back).
  unfold reset_on_resize.
  assert (negb (cols =? prev_COLS g) || negb (prev_LINES g =? lines) = true) as ->.
  { destruct (Z.eqb_spec cols (prev_COLS g)), (Z.eqb_spec (prev_LINES g) lines);
      cbn; try done. lia. }
  rewrite HtC, HtL, bind_lift, Hboard. cbn [mbind result_bind rbind].
  erewrite bind_run by exact Hdestroy.
  erewrite bind_run by apply ds_snake_create_eq.
  by rewrite HtC2, HtL2.
Qed.

Lemma reset_on_resize_same (h : heap) (g : game_t) :
  reset_on_resize (prev_COLS g) (prev_LINES g) g h = Ok (g, h).
Proof. unfold reset_on_resize. by rewrite !Z.eqb_refl. Qed.

(* the reset keeps what the loop needs *)
Lemma reset_keeps_inv (h0 h : heap) (cols lines : Z) (g : game_t) :
  game_inv h0 g h →
  good_dims cols lines →
  ∃ g' h',
    reset_on_resize cols lines g h = Ok (g', h') ∧
    game_inv h0 g' h' ∧
    prev_COLS g' = cols ∧ prev_LINES g' = lines ∧
    paused g' = paused g ∧ quit g' = quit g.
Proof.
  intros Hinv Hgood.
  destruct (decide (cols = prev_COLS g ∧ lines = prev_LINES g)) as [[-> ->]|Hne].
  - exists g, h. by rewrite reset_on_resize_same.
  - assert (cols ≠ prev_COLS g ∨ lines ≠ prev_LINES g) as Hchanged by lia.
    destruct Hinv as (l & Hrep & _ & _ & _ & _ & Hdir & Hown).
    eexists _, _. split; [by eapply reset_on_resize_changed|].
    split; [|done].
    destruct (fresh_board_centre cols lines Hgood) as (_ & Hwf & Hcentre).
    destruct (good_dims_facts cols lines Hgood)
      as (_ & _ & HtC2 & HtL2 & _ & _ & _ & _).
    exists [(fresh (dom h0), mk_pos (cols ÷ 2) (lines ÷ 2))].
    cbn [snake board dx dy prev_COLS prev_LINES width height].
    pose proof (rep_created (cols ÷ 2) (lines ÷ 2) h0) as Hr.
    rewrite HtC2, HtL2 in Hr. split; [exact Hr|].
    split; [done|]. do 2 (split; [done|]).
    split; [constructor; [done|constructor]|].
    split; [done|apply created_owns].
Qed.

(* ds_board_put_snake on a well-formed snake that lies on the board *)
Lemma put_snake_run (h : heap) (s : snake_t) (l : list (loc * pos_t))
    (b : board_t) :
  snake_rep h s l → board_wf b → on_board b l →
  ds_board_put_snake b s h = Ok (with_snake b l, h).
Proof.
  intros (Hnd & Hc & Hh & _) Hwf Hon.
  unfold ds_board_put_snake. rewrite Hh.
  apply (put_parts_chain _ _ _ None); [done..|].
  pose proof (chain_size h None l Hnd Hc). lia.
Qed.

(* Init game data *)
Lemma game_init_run (cols lines : Z) (h0 : heap) :
  good_dims cols lines →
  game_init cols lines h0
  = Ok (mk_game cols lines
          (paint (mk_board (fresh_text cols lines) (row_offsets cols lines) lines cols)
                 (mk_pos (cols ÷ 2) (lines ÷ 2)) DS_CHAR_SNAKE_BODY)
          (mk_snake 1 (Some (fresh (dom h0))) (Some (fresh (dom h0))))
          0 (-1) false false,
        <[fresh (dom h0) := mk_part (mk_pos (cols ÷ 2) (lines ÷ 2)) None None]> h0).
Proof.
  intros Hgood.
  destruct (good_dims_facts cols lines Hgood)
    as (HtC & HtL & HtC2 & HtL2 & _ & _ & _ & _).
  destruct (fresh_board_centre cols lines Hgood) as (Hboard & Hwf & Hcentre).
  pose proof (rep_created (cols ÷ 2) (lines ÷ 2) h0) as Hrep.
  rewrite HtC2, HtL2 in Hrep.
  unfold game_init. rewrite HtC, HtL, bind_lift, Hboard.
  cbn [mbind result_bind rbind].
  erewrite bind_run by apply ds_snake_create_eq. rewrite HtC2, HtL2.
  erewrite bind_run; [reflexivity|].
  apply (put_snake_run _ _ [(fresh (dom h0), mk_pos (cols ÷ 2) (lines ÷ 2))]);
    [exact Hrep|exact Hwf|].
  constructor; [exact Hcentre|constructor].
Qed.

Lemma game_init_inv (cols lines : Z) (h0 : heap) :
  good_dims cols lines →
  ∃ g h, game_init cols lines h0 = Ok (g, h) ∧ game_inv h0 g h ∧ quit g = false.
Proof.
  intros Hgood. eexists _, _. split; [by apply game_init_run|]. split; [|done].
  destruct (good_dims_facts cols lines Hgood)
    as (_ & _ & HtC2 & HtL2 & _ & _ & _ & _).
  destruct (fresh_board_centre cols lines Hgood) as (_ & Hwf & Hcentre).
  pose proof (rep_created (cols ÷ 2) (lines ÷ 2) h0) as Hrep.
  rewrite HtC2, HtL2 in Hrep.
  exists [(fresh (dom h0), mk_pos (cols ÷ 2) (lines ÷ 2))].
  cbn [snake board dx dy prev_COLS prev_LINES].
  split; [exact Hrep|]. split; [by apply paint_wf|]. do 2 (split; [done|]).
  split; [constructor; [done|constructor]|].
  split; [unfold valid_dir; lia|apply created_owns].
Qed.

(** X18: for a terminal of positive int size game() starts with a board
    of that size that is the fresh board with one cell overwritten: the
    centre, which reads SnakeBody; the snake is one new segment there,
    the direction is up, and the game is neither paused nor quit. *)
Theorem game_init_shows_snake (cols lines : Z) (h0 : heap) :
  good_dims cols lines →
  ∃ g h p,
    game_init cols lines h0 = Ok (g, h) ∧
    ds_board_create cols lines = Ok (fresh_board cols lines) ∧
    board g = paint (fresh_board cols lines) (centre cols lines) DS_CHAR_SNAKE_BODY ∧
    board_get (board g) (cols ÷ 2) (lines ÷ 2) = Ok DS_CHAR_SNAKE_BODY ∧
    snake_rep h (snake g) [(p, centre cols lines)] ∧
    h0 !! p = None ∧ h = <[p := mk_part (centre cols lines) None None]> h0 ∧
    prev_COLS g = cols ∧ prev_LINES g = lines ∧
    dx g = 0 ∧ dy g = -1 ∧ quit g = false ∧ paused g = false.
Proof.
  intros Hgood. unfold fresh_board, centre.
  destruct (good_dims_facts cols lines Hgood)
    as (_ & _ & HtC2 & HtL2 & _ & _ & _ & _).
  destruct (fresh_board_centre cols lines Hgood) as (Hboard & Hwf & Hcentre).
  pose proof (rep_created (cols ÷ 2) (lines ÷ 2) h0) as Hrep.
  rewrite HtC2, HtL2 in Hrep.
  eexists _, _, (fresh (dom h0)).
  split; [by apply game_init_run|].
  cbn [snake board dx dy prev_COLS prev_LINES quit paused].
  split; [exact Hboard|]. split; [reflexivity|].
  split; [exact (board_get_paint_same _ _ _ Hwf Hcentre)|].
  split; [exact Hrep|]. split; [apply fresh_lookup|]. repeat split.
Qed.

Lemma game_init_shows_snake_witness :
  good_dims 10 5 ∧
  ∃ g h,
    game_init 10 5 ∅ = Ok (g, h) ∧
    board_get (board g) 5 2 = Ok DS_CHAR_SNAKE_BODY ∧
    dx g = 0 ∧ dy g = -1.
Proof.
  assert (good_dims 10 5) as H1 by (unfold good_dims, INT_MAX; lia).
  split; [assumption|].
  destruct (game_init_shows_snake 10 5 ∅ H1)
    as (g & h & p & Hrun & _ & _ & Hget & _ & _ & _ & _ & _ & Hdx & Hdy & _).
  exists g, h. split; [exact Hrun|]. split; [exact Hget|]. split; [exact Hdx|exact Hdy].
Defined.

Section GameRuns.

Context `{keys : curses_keys}.

(* the quit key among the pending keys ends the game *)
Lemma keys_quit (pending : list Z) (prev_key : Z) (g : game_t) :
  prev_key ≠ char_code "q" → char_code "q" ∈ pending → -1 ∉ pending →
  quit (key_loop pending prev_key g).1 = true.
Proof.
  revert prev_key g.
  induction pending as [|key rest IH]; intros prev_key g Hprev Hin Hno.
  - by apply elem_of_nil in Hin.
  - apply not_elem_of_cons in Hno as [Hk Hno].
    cbn [key_loop]. destruct (quit g) eqn:Hq; [exact Hq|].
    destruct (Z.eqb_spec key (-1)); [done|].
    destruct (Z.eqb_spec key prev_key) as [->|Hne].
    + apply IH; [done| |done].
      apply elem_of_cons in Hin as [Heq|Hin]; [congruence|done].
    + destruct (decide (key = char_code "q")) as [->|Hnq].
      * assert (quit (handle_key (char_code "q") g) = true) as Hset by reflexivity.
        destruct rest; cbn [key_loop]; by rewrite Hset.
      * apply IH; [done| |done].
        apply elem_of_cons in Hin as [Heq|Hin]; [congruence|done].
Qed.

(* Do a single step *)
Lemma single_step_inv (h0 h : heap) (g : game_t) :
  game_inv h0 g h →
  ∃ g' h', single_step g h = Ok (g', h') ∧ game_inv h0 g' h' ∧
    prev_COLS g' = prev_COLS g ∧ prev_LINES g' = prev_LINES g ∧
    quit g' = quit g ∧ paused g' = paused g.
Proof.
  intros Hinv. unfold single_step. destruct (paused g) eqn:Hp; cbn [negb].
  - by exists g, h.
  - destruct Hinv as (l & Hrep & Hwf & Hw & Hh & Hon & Hdir & Hown).
    destruct (move_step h0 h (snake g) l (board g) (dx g) (dy g)
                Hrep Hwf Hon Hdir Hown)
      as (s' & b' & h' & l' & Hmove & Hrep' & Hwf' & Hon' & Hw' & Hh' & _ & Hown').
    eexists _, _. split; [erewrite bind_run by exact Hmove; reflexivity|].
    cbn [fst snd]. split; [|done].
    exists l'. cbn [snake board dx dy prev_COLS prev_LINES].
    split; [done|]. split; [done|]. split; [congruence|]. split; [congruence|].
    done.
Qed.

(* one pass of the main loop keeps what the next pass needs *)
Lemma game_pass_inv (h0 h : heap) (cols lines : Z) (pending : list Z)
    (g : game_t) :
  game_inv h0 g h →
  good_dims cols lines →
  ∃ g2 h',
    game_pass cols lines pending g h = Ok (handle_keys pending g2, h') ∧
    game_inv h0 (handle_keys pending g2).1 h' ∧
    prev_COLS g2 = cols ∧ prev_LINES g2 = lines ∧
    quit g2 = quit g ∧ paused g2 = paused g.
Proof.
  intros Hinv Hgood.
  destruct (reset_keeps_inv h0 h cols lines g Hinv Hgood)
    as (g1 & h1 & Hreset & Hinv1 & HC1 & HL1 & Hp1 & Hq1).
  destruct (single_step_inv h0 h1 g1 Hinv1)
    as (g2 & h2 & Hstep & Hinv2 & HC2 & HL2 & Hq2 & Hp2).
  destruct (keys_frame pending g2) as (Hb & Hs & Hc & Hl & Hd).
  exists g2, h2.
  split.
  { unfold game_pass. erewrite bind_run by exact Hreset.
    erewrite bind_run by exact Hstep. reflexivity. }
  split; [|repeat split; congruence].
  destruct Hinv2 as (l & Hrep & Hwf & Hw & Hh & Hon & Hdir & Hown).
  exists l. rewrite Hb, Hs, Hc, Hl. auto 10.
Qed.

(* the main loop over a trace of passes *)
Lemma game_loop_inv (h0 h : heap) (trace : list (Z * Z * list Z)) (g : game_t) :
  game_inv h0 g h →
  Forall (λ e, good_dims e.1.1 e.1.2) trace →
  ∃ g' h',
    game_loop trace g h = Ok (g', h') ∧ game_inv h0 g' h' ∧
    (quit g = true ∨ Exists (λ e, char_code "q" ∈ e.2 ∧ -1 ∉ e.2) trace →
     quit g' = true).
Proof.
  revert g h.
  induction trace as [|[[cols lines] pending] rest IH]; intros g h Hinv Hgood.
  - exists g, h. split; [reflexivity|]. split; [exact Hinv|].
    intros [Hq|Hex]; [exact Hq|]. by apply Exists_nil in Hex.
  - apply Forall_cons in Hgood as [Hg Hgood]. cbn [fst snd] in Hg.
    cbn [game_loop]. destruct (quit g) eqn:Hq.
    + exists g, h. split; [reflexivity|]. split; [exact Hinv|]. by intros _.
    + destruct (game_pass_inv h0 h cols lines pending g Hinv Hg)
        as (g2 & h' & Hpass & Hinv' & _ & _ & Hq2 & _).
      destruct (IH _ _ Hinv' Hgood) as (g' & h'' & Hloop & Hinv'' & Hquit).
      exists g', h''.
      split; [erewrite bind_run by exact Hpass; exact Hloop|].
      split; [exact Hinv''|].
      intros [Hf|Hex]; [discriminate Hf|]. apply Hquit.
      apply Exists_cons in Hex as [[Hin Hno]|Hex]; [left|by right].
      cbn [snd] in Hin, Hno. by apply keys_quit.
Qed.

(* game() over a trace in which the quit key is pressed *)
Lemma game_run (cols lines : Z) (trace : list (Z * Z * list Z)) (h0 : heap) :
  good_dims cols lines →
  Forall (λ e, good_dims e.1.1 e.1.2) trace →
  Exists (λ e, char_code "q" ∈ e.2 ∧ -1 ∉ e.2) trace →
  ∃ g, game cols lines trace h0 = Ok (g, h0) ∧ quit g = true.
Proof.
  intros Hgood Htrace Hex.
  destruct (game_init_inv cols lines h0 Hgood) as (g0 & h1 & Hinit & Hinv0 & _).
  destruct (game_loop_inv h0 h1 trace g0 Hinv0 Htrace)
    as (g & h2 & Hloop & (l & Hrep & _ & _ & _ & _ & _ & Hown) & Hquit).
  assert (quit g = true) as Hq by (apply Hquit; by right).
  destruct (ds_snake_destroy_rep h2 (snake g) l Hrep) as (h3 & Hdestroy & Hfreed).
  assert (h3 = h0) as -> by (by eapply destroy_gives_back).
  exists g. split; [|exact Hq].
  unfold game. erewrite bind_run by exact Hinit.
  erewrite bind_run by exact Hloop. rewrite Hq.
  erewrite bind_run by exact Hdestroy. reflexivity.
Qed.

(** X19: one pass of the main loop, from a game whose snake is
    well-formed and lies on a well-formed board of the size in prev_COLS
    and prev_LINES, with a valid direction, for a terminal of positive
    int size: the pass returns (no assertion fails, nothing is
    undefined), and the same holds of the game after it, whose board has
    the size of the terminal; memory outside the parts of the old and
    the new snake is as before. *)
Theorem game_pass_keeps_invariant (h : heap) (l : list (loc * pos_t))
    (cols lines : Z) (pending : list Z) (g : game_t) :
  snake_rep h (snake g) l →
  board_wf (board g) →
  width (board g) = prev_COLS g → height (board g) = prev_LINES g →
  on_board (board g) l →
  valid_dir (dx g) (dy g) →
  good_dims cols lines →
  ∃ g' rest h' l',
    game_pass cols lines pending g h = Ok ((g', rest), h') ∧
    snake_rep h' (snake g') l' ∧
    board_wf (board g') ∧
    width (board g') = cols ∧ height (board g') = lines ∧
    prev_COLS g' = cols ∧ prev_LINES g' = lines ∧
    on_board (board g') l' ∧
    valid_dir (dx g') (dy g') ∧
    (∀ q, q ∉ l.*1 → q ∉ l'.*1 → h' !! q = h !! q).
Proof.
  intros Hrep Hwf Hw Hh Hon Hdir Hgood.
  destruct (owns_some h l) as [h0 Hown].
  assert (game_inv h0 g h) as Hinv by (exists l; auto 10).
  destruct (game_pass_inv h0 h cols lines pending g Hinv Hgood)
    as (g2 & h' & Hpass & (l' & Hrep' & Hwf' & Hw' & Hh' & Hon' & Hdir' & Hown')
        & HC & HL & _ & _).
  destruct (keys_frame pending g2) as (_ & _ & Hc & Hl & _).
  exists (handle_keys pending g2).1, (handle_keys pending g2).2, h', l'.
  split; [by destruct (handle_keys pending g2)|].
  rewrite Hw', Hh', Hc, Hl, HC, HL. repeat (split; [done|]).
  intros q Hq Hq'. destruct Hown as [Hout _]. destruct Hown' as [Hout' _].
  by rewrite Hout, Hout'.
Qed.

(** X20: game() on a terminal of positive int size, also after every
    resize, in which the quit key is among the keys of some pass:
    game() returns with quit set, and the heap is as it was before the
    call: every part of every snake it made is freed. *)
Theorem game_quits_and_frees (cols lines : Z) (trace : list (Z * Z * list Z))
    (h0 : heap) :
  good_dims cols lines →
  Forall (λ e, good_dims e.1.1 e.1.2) trace →
  Exists (λ e, char_code "q" ∈ e.2 ∧ -1 ∉ e.2) trace →
  ∃ g, game cols lines trace h0 = Ok (g, h0) ∧ quit g = true.
Proof. apply game_run. Qed.

(** X21: while the game is paused and the terminal keeps its size, a
    pass of the main loop changes neither the board nor the snake nor the
    heap, whatever the keys; only the direction and the flags follow the
    keys. *)
Theorem paused_pass_moves_nothing (pending : list Z) (g : game_t) (h : heap) :
  paused g = true →
  ∃ g' rest,
    game_pass (prev_COLS g) (prev_LINES g) pending g h = Ok ((g', rest), h) ∧
    (g', rest) = handle_keys pending g ∧
    board g' = board g ∧ snake g' = snake g.
Proof.
  intros Hp. exists (handle_keys pending g).1, (handle_keys pending g).2.
  destruct (keys_frame pending g) as (Hb & Hs & _).
  split; [|split; [by destruct (handle_keys pending g)|by split]].
  unfold game_pass. erewrite bind_run by apply reset_on_resize_same.
  unfold single_step. rewrite Hp. cbn [negb].
  erewrite bind_run by reflexivity. by destruct (handle_keys pending g).
Qed.

(** X22: main() returns what atexit returned when that is not 0, without
    touching the heap; otherwise it aborts unless COLS and LINES are
    positive, and with positive sizes it runs the game to the quit key
    and returns 0 with the heap as it found it. *)
Theorem main_result (atexit_error cols lines : Z)
    (trace : list (Z * Z * list Z)) (h0 : heap) :
  cols ≤ INT_MAX → lines ≤ INT_MAX →
  Forall (λ e, good_dims e.1.1 e.1.2) trace →
  Exists (λ e, char_code "q" ∈ e.2 ∧ -1 ∉ e.2) trace →
  main atexit_error cols lines trace h0
  = if decide (atexit_error = 0) then
      if decide (0 < cols ∧ 0 < lines) then Ok (0, h0) else Err Abort
    else Ok (atexit_error, h0).
Proof.
  intros HC HL Htrace Hex. unfold main.
  destruct (Z.eqb_spec atexit_error 0) as [->|Hne]; cbn [negb].
  2: { by rewrite decide_False. }
  rewrite decide_True by done.
  destruct (Z.ltb_spec 0 cols) as [Hc|Hc]; cbn [negb].
  2: { rewrite decide_False by lia. reflexivity. }
  destruct (Z.ltb_spec 0 lines) as [Hl|Hl]; cbn [negb].
  2: { rewrite decide_False by lia. reflexivity. }
  rewrite decide_True by done.
  destruct (game_run cols lines trace h0) as (g & Hgame & _); [by split|done..|].
  erewrite bind_run by exact Hgame. reflexivity.
Qed.

End GameRuns.

Lemma keys_keep_direction_valid_witness :
  valid_dir (dx right_game) (dy right_game) ∧
  valid_dir (dx (handle_keys [KEY_UP; KEY_LEFT] right_game).1)
            (dy (handle_keys [KEY_UP; KEY_LEFT] right_game).1).
Proof.
  assert (valid_dir (dx right_game) (dy right_game)) as H1
    by (unfold valid_dir; cbn; lia).
  split; [assumption|].
  exact (proj1 (keys_keep_direction_valid [KEY_UP; KEY_LEFT] right_game H1)).
Defined.

Lemma game_pass_keeps_invariant_witness :
  snake_rep (line_heap 3) (snake right_game) (line_segments 3) ∧
  board_wf (board right_game) ∧
  width (board right_game) = prev_COLS right_game ∧
  height (board right_game) = prev_LINES right_game ∧
  on_board (board right_game) (line_segments 3) ∧
  valid_dir (dx right_game) (dy right_game) ∧
  good_dims 12 6 ∧
  ∃ g' rest h' l',
    game_pass 12 6 [KEY_UP] right_game (line_heap 3) = Ok ((g', rest), h') ∧
    snake_rep h' (snake g') l' ∧
    width (board g') = 12 ∧ height (board g') = 6.
Proof.
  assert (snake_rep (line_heap 3) (snake right_game) (line_segments 3)) as H1
    by by_evaluation.
  assert (board_wf (board right_game)) as H2 by by_evaluation.
  assert (width (board right_game) = prev_COLS right_game) as H3 by reflexivity.
  assert (height (board right_game) = prev_LINES right_game) as H4 by reflexivity.
  assert (on_board (board right_game) (line_segments 3)) as H5 by by_evaluation.
  assert (valid_dir (dx right_game) (dy right_game)) as H6
    by (unfold valid_dir; cbn; lia).
  assert (good_dims 12 6) as H7 by (unfold good_dims, INT_MAX; lia).
  do 7 (split; [assumption|]).
  destruct (game_pass_keeps_invariant _ _ 12 6 [KEY_UP] right_game
              H1 H2 H3 H4 H5 H6 H7)
    as (g' & rest & h' & l' & Hrun & Hrep & _ & Hw & Hh & _).
  exists g', rest, h', l'.
  split; [exact Hrun|]. split; [exact Hrep|]. split; [exact Hw|exact Hh].
Defined.

Lemma game_quits_and_frees_witness :
  good_dims 10 5 ∧
  Forall (λ e, good_dims e.1.1 e.1.2) quit_trace ∧
  Exists (λ e, char_code "q" ∈ e.2 ∧ -1 ∉ e.2) quit_trace ∧
  ∃ g, game 10 5 quit_trace ∅ = Ok (g, ∅) ∧ quit g = true.
Proof.
  assert (good_dims 10 5) as H1 by (unfold good_dims, INT_MAX; lia).
  assert (Forall (λ e, good_dims e.1.1 e.1.2) quit_trace) as H2.
  { repeat (constructor; [unfold good_dims, INT_MAX; cbn; lia|]). constructor. }
  assert (Exists (λ e, char_code "q" ∈ e.2 ∧ -1 ∉ e.2) quit_trace) as H3.
  { apply Exists_cons_tl, Exists_cons_hd.
    apply (bool_decide_unpack _). vm_compute. exact I. }
  do 3 (split; [assumption|]).
  exact (game_quits_and_frees 10 5 quit_trace ∅ H1 H2 H3).
Defined.

Lemma paused_pass_moves_nothing_witness :
  paused paused_game = true ∧
  ∃ g' rest,
    game_pass 10 5 [KEY_UP] paused_game (line_heap 3)
    = Ok ((g', rest), line_heap 3) ∧
    board g' = small_board ∧ snake g' = line_snake 3.
Proof.
  assert (paused paused_game = true) as H1 by reflexivity.
  split; [assumption|].
  destruct (paused_pass_moves_nothing [KEY_UP] paused_game (line_heap 3) H1)
    as (g' & rest & Hrun & _ & Hb & Hs).
  exists g', rest. split; [exact Hrun|]. split; [exact Hb|exact Hs].
Defined.

Lemma main_result_witness :
  10 ≤ INT_MAX ∧ 5 ≤ INT_MAX ∧
  Forall (λ e, good_dims e.1.1 e.1.2) quit_trace ∧
  Exists (λ e, char_code "q" ∈ e.2 ∧ -1 ∉ e.2) quit_trace ∧
  main 0 10 5 quit_trace ∅ = Ok (0, ∅).
Proof.
  assert (10 ≤ INT_MAX) as H1 by (unfold INT_MAX; lia).
  assert (5 ≤ INT_MAX) as H2 by (unfold INT_MAX; lia).
  assert (Forall (λ e, good_dims e.1.1 e.1.2) quit_trace) as H3.
  { repeat (constructor; [unfold good_dims, INT_MAX; cbn; lia|]). constructor. }
  assert (Exists (λ e, char_code "q" ∈ e.2 ∧ -1 ∉ e.2) quit_trace) as H4.
  { apply Exists_cons_tl, Exists_cons_hd.
    apply (bool_decide_unpack _). vm_compute. exact I. }
  do 4 (split; [assumption|]).
  exact (main_result 0 10 5 quit_trace ∅ H1 H2 H3 H4).
Defined.

(** ** The start cell after a resize *)

Lemma help_no_body : Forall (λ c, c ≠ DS_CHAR_SNAKE_BODY) (chars help).
Proof. apply (bool_decide_unpack _). by vm_compute. Qed.

(* no cell of a fresh board reads SnakeBody *)
Lemma fresh_cell_not_body (w h : Z) (q : pos_t) :
  0 < w → 0 < h → board_wf (fresh_board w h) → in_board (fresh_board w h) q →
  board_get (fresh_board w h) (x q) (y q) ≠ Ok DS_CHAR_SNAKE_BODY.
Proof.
  intros Hw Hh Hwf Hq.
  destruct (board_get_in _ q Hwf Hq) as (c & Hc & ->).
  pose proof (cell_index_lt _ q Hwf Hq) as Hi.
  unfold cell_index in Hc. cbn [fresh_board text width height] in Hc, Hi.
  rewrite fresh_text_cell in Hc by lia.
  assert (c ≠ DS_CHAR_SNAKE_BODY) as Hnb; [|congruence].
  simplify_eq. destruct (_ <? _) eqn:Hlt; [|done].
  pose proof help_no_body as Hhelp. rewrite Forall_forall in Hhelp.
  apply Hhelp. apply list_elem_of_In, nth_In.
  apply Z.ltb_lt in Hlt. rewrite DS_MIN_spec in Hlt. unfold strlen, chars in *.
  change (length (list_ascii_of_string help)) with (String.length help). lia.
Qed.

(* one step along an axis of more than one cell leaves the cell *)
Lemma step_leaves_cell (c d w : Z) :
  0 ≤ c < w → 1 < w → d = 1 ∨ d = -1 → (c + d + w) mod w ≠ c.
Proof.
  intros Hc Hw Hd Heq.
  pose proof (Z.div_mod (c + d + w) w ltac:(lia)) as Hdm. rewrite Heq in Hdm.
  assert (d = w * ((c + d + w) / w - 1)) as Hk by lia.
  destruct (Z.eq_dec ((c + d + w) / w - 1) 0) as [H0|H0]; [rewrite H0 in Hk; lia|].
  nia.
Qed.

Section Resize.

Context `{keys : curses_keys}.

(** X23: a pass of the running game in which the terminal has a new
    size, of more than one column and more than one line: the new snake
    has two segments after the pass, the new head and the segment at the
    centre; the board is the fresh board with the cell of the new head
    set to SnakeBody, so the cell of the segment at the centre is not
    SnakeBody: it reads what ds_board_create put there (after a resize
    ds_board_put_snake is not called). *)
Theorem resize_leaves_start_cell_undrawn (h : heap) (l : list (loc * pos_t))
    (cols lines : Z) (pending : list Z) (g : game_t) :
  snake_rep h (snake g) l →
  valid_dir (dx g) (dy g) →
  good_dims cols lines → 1 < cols → 1 < lines →
  cols ≠ prev_COLS g ∨ lines ≠ prev_LINES g →
  paused g = false →
  ∃ g' rest h' p p',
    game_pass cols lines pending g h = Ok ((g', rest), h') ∧
    board g'
    = paint (fresh_board cols lines)
            (new_head_pos (fresh_board cols lines) (centre cols lines) (dx g) (dy g))
            DS_CHAR_SNAKE_BODY ∧
    snake_rep h' (snake g')
      [(p', new_head_pos (fresh_board cols lines) (centre cols lines) (dx g) (dy g));
       (p, centre cols lines)] ∧
    board_get (board g') (cols ÷ 2) (lines ÷ 2)
    = board_get (fresh_board cols lines) (cols ÷ 2) (lines ÷ 2) ∧
    board_get (board g') (cols ÷ 2) (lines ÷ 2) ≠ Ok DS_CHAR_SNAKE_BODY.
Proof.
  intros Hrep Hdir Hgood Hcols Hlines Hchanged Hrun.
  destruct (owns_some h l) as [h0 Hown].
  destruct (good_dims_facts cols lines Hgood)
    as (_ & _ & HtC2 & HtL2 & HC2 & HL2 & _ & _).
  destruct (fresh_board_centre cols lines Hgood) as (_ & Hwf & Hcentre).
  fold (fresh_board cols lines) in Hwf, Hcentre.
  fold (centre cols lines) in Hcentre.
  pose proof (rep_created (cols ÷ 2) (lines ÷ 2) h0) as Hrep1.
  rewrite HtC2, HtL2 in Hrep1. fold (centre cols lines) in Hrep1.
  set (h1 := <[fresh (dom h0) := mk_part (centre cols lines) None None]> h0) in *.
  set (s1 := mk_snake 1 (Some (fresh (dom h0))) (Some (fresh (dom h0)))) in *.
  set (np := new_head_pos (fresh_board cols lines) (centre cols lines) (dx g) (dy g)).
  destruct (move_grow h1 s1 _ (fresh_board cols lines) (dx g) (dy g)
              (fresh (dom h0)) (centre cols lines) Hrep1 eq_refl Hwf Hdir)
    as [Hmove Hrep2]; [cbn; unfold DS_FULL_GROWN_LEN; lia|].
  fold np in Hmove, Hrep2.
  pose proof (new_head_in_board (fresh_board cols lines) (centre cols lines)
                (dx g) (dy g) Hwf) as Hnp.
  fold np in Hnp.
  assert (centre cols lines ≠ np) as Hne.
  { unfold np.
    rewrite (new_head_pos_wraps _ _ _ _ Hwf Hcentre Hdir).
    cbn [fresh_board centre width height x y].
    intros [= Hx Hy].
    destruct Hdir as [[_ Hd]|[_ Hd]].
    - by apply (step_leaves_cell (lines ÷ 2) (dy g) lines).
    - by apply (step_leaves_cell (cols ÷ 2) (dx g) cols). }
  set (g2 := mk_game cols lines
               (paint (fresh_board cols lines) np DS_CHAR_SNAKE_BODY)
               (mk_snake (len s1 + 1) (Some (fresh (dom h1))) (tail s1))
               (dx g) (dy g) (quit g) (paused g)).
  destruct (keys_frame pending g2) as (Hb & Hs & _).
  cbn [g2 board snake] in Hb, Hs.
  exists (handle_keys pending g2).1, (handle_keys pending g2).2,
         (grown h1 (fresh (dom h0)) np), (fresh (dom h0)), (fresh (dom h1)).
  split.
  { unfold game_pass.
    erewrite bind_run by (by eapply reset_on_resize_changed).
    erewrite bind_run.
    2: { unfold single_step.
         cbn [paused snake board dx dy prev_COLS prev_LINES quit].
         rewrite Hrun. cbn [negb].
         erewrite bind_run by exact Hmove. reflexivity. }
    cbn [fst snd]. unfold g2. rewrite Hrun.
    match goal with |- mret ?k _ = _ => destruct k end. reflexivity. }
  rewrite Hb, Hs.
  split; [reflexivity|]. split; [exact Hrep2|].
  pose proof (board_get_paint_other (fresh_board cols lines) np (centre cols lines)
                DS_CHAR_SNAKE_BODY Hwf Hnp Hcentre Hne) as Hget.
  cbn [centre x y] in Hget.
  split; [exact Hget|]. rewrite Hget.
  apply (fresh_cell_not_body cols lines (centre cols lines)); [lia|lia|done|done].
Qed.

End Resize.

Lemma resize_leaves_start_cell_undrawn_witness :
  snake_rep (line_heap 3) (snake right_game) (line_segments 3) ∧
  valid_dir (dx right_game) (dy right_game) ∧
  good_dims 12 6 ∧ 1 < 12 ∧ 1 < 6 ∧
  (12 ≠ prev_COLS right_game ∨ 6 ≠ prev_LINES right_game) ∧
  paused right_game = false ∧
  ∃ g' rest h',
    game_pass 12 6 [] right_game (line_heap 3) = Ok ((g', rest), h') ∧
    board_get (board g') 7 3 = Ok DS_CHAR_SNAKE_BODY ∧
    board_get (board g') 6 3 ≠ Ok DS_CHAR_SNAKE_BODY.
Proof.
  assert (snake_rep (line_heap 3) (snake right_game) (line_segments 3)) as H1
    by by_evaluation.
  assert (valid_dir (dx right_game) (dy right_game)) as H2
    by (unfold valid_dir; cbn; lia).
  assert (good_dims 12 6) as H3 by (unfold good_dims, INT_MAX; lia).
  assert (1 < 12) as H4 by lia.
  assert (1 < 6) as H5 by lia.
  assert (12 ≠ prev_COLS right_game ∨ 6 ≠ prev_LINES right_game) as H6
    by (left; cbn; lia).
  assert (paused right_game = false) as H7 by reflexivity.
  do 7 (split; [assumption|]).
  destruct (resize_leaves_start_cell_undrawn _ _ 12 6 [] right_game
              H1 H2 H3 H4 H5 H6 H7)
    as (g' & rest & h' & p & p' & Hrun & Hboard & _ & _ & Hcentre).
  exists g', rest, h'. split; [exact Hrun|]. split; [|exact Hcentre].
  rewrite Hboard. vm_compute. reflexivity.
Defined.

(** ** What ends the game, and what the reversal guard lets through *)

Section QuitOnly.

Context `{keys : curses_keys}.

(* no key but the quit key sets quit *)
Lemma keys_no_quit (pending : list Z) (prev_key : Z) (g : game_t) :
  char_code "q" ∉ pending → quit g = false →
  quit (key_loop pending prev_key g).1 = false.
Proof.
  revert prev_key g.
  induction pending as [|key rest IH]; intros prev_key g Hnq Hq.
  - cbn [key_loop]. by rewrite Hq.
  - apply not_elem_of_cons in Hnq as [Hk Hnq].
    cbn [key_loop]. rewrite Hq.
    destruct (key =? -1); [exact Hq|].
    destruct (key =? prev_key); [by apply IH|].
    apply IH; [exact Hnq|]. rewrite handle_key_keeps_quit; [exact Hq|].
    intros Heq. by apply Hk.
Qed.

Lemma game_loop_no_quit (h0 h : heap) (trace : list (Z * Z * list Z))
    (g : game_t) :
  game_inv h0 g h → quit g = false →
  Forall (λ e, good_dims e.1.1 e.1.2) trace →
  Forall (λ e, char_code "q" ∉ e.2) trace →
  ∃ g' h', game_loop trace g h = Ok (g', h') ∧ game_inv h0 g' h' ∧
    quit g' = false.
Proof.
  revert g h.
  induction trace as [|[[cols lines] pending] rest IH]; intros g h Hinv Hq Hgood Hnq.
  - exists g, h. split; [reflexivity|]. split; [exact Hinv|exact Hq].
  - apply Forall_cons in Hgood as [Hg Hgood]. cbn [fst snd] in Hg.
    apply Forall_cons in Hnq as [Hn Hnq]. cbn [snd] in Hn.
    cbn [game_loop]. rewrite Hq.
    destruct (game_pass_inv h0 h cols lines pending g Hinv Hg)
      as (g2 & h' & Hpass & Hinv' & _ & _ & Hq2 & _).
    assert (quit (handle_keys pending g2).1 = false) as Hq'.
    { apply keys_no_quit; [exact Hn|congruence]. }
    destruct (IH _ _ Hinv' Hq' Hgood Hnq) as (g' & h'' & Hloop & Hinv'' & Hquit).
    exists g', h''.
    split; [erewrite bind_run by exact Hpass; exact Hloop|].
    split; [exact Hinv''|exact Hquit].
Qed.

(** X24: only the quit key ends the game.  On a terminal of positive int
    size, through any passes in none of which the quit key is pending,
    the main loop runs every pass without a fault and quit is still
    unset after the last one: game() has not returned. *)
Theorem only_quit_key_ends_game (cols lines : Z)
    (trace : list (Z * Z * list Z)) (h0 : heap) :
  good_dims cols lines →
  Forall (λ e, good_dims e.1.1 e.1.2) trace →
  Forall (λ e, char_code "q" ∉ e.2) trace →
  (∃ g h, (g0 ← game_init cols lines; game_loop trace g0) h0 = Ok (g, h) ∧
          quit g = false) ∧
  game cols lines trace h0 = Err Diverge.
Proof.
  intros Hgood Htrace Hnq.
  destruct (game_init_inv cols lines h0 Hgood) as (g0 & h1 & Hinit & Hinv0 & Hq0).
  destruct (game_loop_no_quit h0 h1 trace g0 Hinv0 Hq0 Htrace Hnq)
    as (g & h2 & Hloop & _ & Hq).
  split.
  - exists g, h2. split; [|exact Hq].
    erewrite bind_run by exact Hinit. exact Hloop.
  - unfold game. erewrite bind_run by exact Hinit.
    erewrite bind_run by exact Hloop. rewrite Hq. reflexivity.
Qed.

(* two different keys in one drain *)
Lemma drain_two (k1 k2 : Z) (g : game_t) :
  k1 ≠ -1 → k2 ≠ -1 → k2 ≠ k1 →
  quit g = false → quit (handle_key k1 g) = false →
  (handle_keys [k1; k2] g).1 = handle_key k2 (handle_key k1 g).
Proof.
  intros H1 H2 Hne Hq Hq1. unfold handle_keys. cbn [key_loop].
  rewrite Hq.
  destruct (Z.eqb_spec k1 (-1)); [done|]. rewrite Hq1.
  destruct (Z.eqb_spec k2 (-1)); [done|].
  destruct (Z.eqb_spec k2 k1); [done|].
  by destruct (quit (handle_key k2 (handle_key k1 g))).
Qed.

End QuitOnly.

Lemma only_quit_key_ends_game_witness :
  good_dims 10 5 ∧
  Forall (λ e, good_dims e.1.1 e.1.2) turn_trace ∧
  Forall (λ e, char_code "q" ∉ e.2) turn_trace ∧
  game 10 5 turn_trace ∅ = Err Diverge.
Proof.
  assert (good_dims 10 5) as H1 by (unfold good_dims, INT_MAX; lia).
  assert (Forall (λ e, good_dims e.1.1 e.1.2) turn_trace) as H2.
  { repeat (constructor; [unfold good_dims, INT_MAX; cbn; lia|]). constructor. }
  assert (Forall (λ e, char_code "q" ∉ e.2) turn_trace) as H3.
  { apply (bool_decide_unpack _). vm_compute. exact I. }
  do 3 (split; [assumption|]).
  exact (proj2 (only_quit_key_ends_game 10 5 turn_trace ∅ H1 H2 H3)).
Defined.

(** X25: the reversal guard compares a key with the direction as the
    keys before it in the same drain have left it, not with the direction
    of the last step: a turn followed by the key against the old
    direction, both pending in one pass, reverses the direction between
    two steps, for each of the four directions. *)
Theorem two_turns_reverse_in_one_drain (g : game_t) :
  quit g = false →
  (dx g = 1 → dy g = 0 →
   dx (handle_keys [KEY_UP; KEY_LEFT] g).1 = -1 ∧
   dy (handle_keys [KEY_UP; KEY_LEFT] g).1 = 0) ∧
  (dx g = -1 → dy g = 0 →
   dx (handle_keys [KEY_UP; KEY_RIGHT] g).1 = 1 ∧
   dy (handle_keys [KEY_UP; KEY_RIGHT] g).1 = 0) ∧
  (dx g = 0 → dy g = -1 →
   dx (handle_keys [KEY_LEFT; KEY_DOWN] g).1 = 0 ∧
   dy (handle_keys [KEY_LEFT; KEY_DOWN] g).1 = 1) ∧
  (dx g = 0 → dy g = 1 →
   dx (handle_keys [KEY_LEFT; KEY_UP] g).1 = 0 ∧
   dy (handle_keys [KEY_LEFT; KEY_UP] g).1 = -1).
Proof.
  intros Hq.
  split; [|split; [|split]]; intros Hx Hy.
  all: rewrite drain_two;
    [|done|done|done|exact Hq|
     rewrite ?handle_up, ?handle_left, ?Hx, ?Hy; exact Hq].
  all: rewrite ?handle_up, ?handle_left, ?handle_right, ?handle_down, ?Hx, ?Hy;
    cbn [Z.eqb set_direction dx dy];
    rewrite ?handle_up, ?handle_left, ?handle_right, ?handle_down;
    cbn [Z.eqb set_direction dx dy]; split; reflexivity.
Qed.

Lemma two_turns_reverse_in_one_drain_witness :
  quit right_game = false ∧
  dx (handle_keys [KEY_UP; KEY_LEFT] right_game).1 = -1 ∧
  dy (handle_keys [KEY_UP; KEY_LEFT] right_game).1 = 0.
Proof.
  assert (quit right_game = false) as H1 by reflexivity.
  split; [assumption|].
  exact (proj1 (two_turns_reverse_in_one_drain right_game H1) eq_refl eq_refl).
Defined.
